(** * hello-halo: health supervisor and API URL normalisation

    A shallow embedding of the parts of the repository that the
    specification talks about, followed by the properties proved of them.

    Source files embedded here:
    - [src/main/openai-compat-router/utils/url.ts]            (module [Url])
    - [src/main/services/health/health-checker/probes/config-probe.ts]
                                                              (module [ConfigProbe])
    - the startup checker ([safeProbe], [withTimeout])        (module [StartupChecker])
    - the Windows platform operations ([killProcess])         (module [Win32ProcessOps])
    - the process cleaner ([cleanupOrphans])                  (module [Cleaner])
    - [src/main/services/health/health-checker/runtime-checker.ts]
                                                              (module [RuntimeChecker])
      with its fallback poll                                  (module [FallbackCheck])
    - [src/main/services/health/orchestrator.ts]              (module [Orchestrator])
    - [src/main/services/health/diagnostics/collector.ts]: the diagnostic
      report                                                  (module [Diagnostics])
    - [src/main/services/health/diagnostics/collector.ts]: the Windows
      process scans                                           (module [Win32Platform])
    - [src/main/openai-compat-router/interceptors]            (module [Interceptors])
    - [src/main/openai-compat-router/server/request-handler.ts]: error
      replies and provider adapters          (modules [RequestHandler], [ProviderAdapters])
    - the V2 session manager                                  (module [SessionManager])
    - the config service: credential migration and the
      signature of the AI sources                             (module [ConfigService])

    Conventions.  JavaScript strings are modelled by [string] (8-bit
    characters; none of the functions below looks inside a character).
    JavaScript integers (pids, timestamps, byte counts) are [Z].  A function
    that may throw returns a [result], or an [attempt] where what is thrown
    comes from code outside this part of the repository and may be any
    value; a function that mutates module-level variables takes the old
    state and returns the new one.  Values have the types the source
    declares for them; a cast applied to a value that comes from such
    code ([error as Error] in a [catch] around it, [errors as string[]])
    is not taken for granted. *)

From Stdlib Require Import String Ascii List ZArith Lia Bool DecimalString.
From Stdlib Require QArith.
Import ListNotations.
Local Open Scope string_scope.

(* ================================================================== *)
(** * Part I: the model                                                *)
(* ================================================================== *)

(** ** JavaScript helpers shared by every module *)

Module Js.

(** A thrown [Error]: only its [message] is ever read by the code. *)
Record Error : Type := mkError { message : string }.

(** Outcome of a call that may throw a value of type [E]. *)
Inductive outcome_of (E A : Type) : Type :=
| Ok (a : A)
| Throw (e : E).
Arguments Ok {E A} a.
Arguments Throw {E A} e.

(** Outcome of a call that throws [Error] objects: the functions of Node and
    of the language, and the code of this repository. *)
Definition result : Type -> Type := outcome_of Error.

(** What a [catch] can receive from code that is not in this part of the
    repository: JavaScript lets any value be thrown, and a promise be
    rejected with any value. [AnError e] is an [Error], or any other value
    that has properties, [message e] being what a template literal renders
    for its [message] ([undefined] where there is none); [null] and
    [undefined] are the values no property can be read of. *)
Inductive Thrown : Type :=
| AnError (e : Error)
| Nullish.

(** Outcome of a call that may throw any value. *)
Definition attempt : Type -> Type := outcome_of Thrown.

(** [(error as Error).message]: the cast checks nothing, and reading a
    property of [null] or [undefined] is a [TypeError]. *)
Definition messageOf (error : Thrown) : result string :=
  match error with
  | AnError e => Ok (message e)
  | Nullish =>
      Throw (mkError "Cannot read properties of undefined (reading 'message')")
  end.

(** The thrown value has properties to read. *)
Definition readable (error : Thrown) : bool :=
  match error with AnError _ => true | Nullish => false end.

Definition bind {E A B : Type} (r : outcome_of E A) (k : A -> outcome_of E B)
  : outcome_of E B :=
  match r with
  | Ok a => k a
  | Throw e => Throw e
  end.

(** [try { body } catch (error) { handler(error) }]: the handler may itself
    throw. *)
Definition try_catch {E E' A : Type} (body : outcome_of E A)
    (handler : E -> outcome_of E' A) : outcome_of E' A :=
  match body with
  | Ok a => Ok a
  | Throw e => handler e
  end.

Definition is_throw {E A : Type} (r : outcome_of E A) : bool :=
  match r with Ok _ => false | Throw _ => true end.

(** A promise as seen by the code that awaits it: how long it takes to
    settle ([None]: it never does) and how it settles. *)
Record Promise (A : Type) : Type := mkPromise {
  settledAfter : option Z;   (* milliseconds *)
  outcome : attempt A        (* [Ok]: fulfilled; [Throw]: rejected *)
}.
Arguments mkPromise {A} _ _.
Arguments settledAfter {A} _.
Arguments outcome {A} _.

Definition is_ok {E A : Type} (r : outcome_of E A) : bool :=
  match r with Ok _ => true | Throw _ => false end.

(** Template-literal rendering of an integer: [`${n}`]. *)
Definition show_Z (n : Z) : string := NilZero.string_of_int (Z.to_int n).
Definition show_nat (n : nat) : string := NilZero.string_of_uint (Nat.to_uint n).

(** [s.endsWith(suffix)]: the last [suffix.length] code units of [s] are
    [suffix]. *)
Definition endsWith (s suffix : string) : bool :=
  String.eqb
    (substring (String.length s - String.length suffix) (String.length suffix) s)
    suffix.

(** [s.indexOf(sub)], with [None] for JavaScript's [-1]. *)
Definition indexOf (s sub : string) : option nat := String.index 0 sub s.

(** [s.includes(sub)] *)
Definition includes (s sub : string) : bool :=
  match indexOf s sub with Some _ => true | None => false end.

(** [s.slice(0, e)]: a negative [e] counts from the end of the string. *)
Definition slice0 (s : string) (e : Z) : string :=
  let len := Z.of_nat (String.length s) in
  let stop := if (e <? 0)%Z then Z.max (len + e) 0 else Z.min e len in
  substring 0 (Z.to_nat stop) s.

(** White space and line terminators among the 8-bit characters. *)
Definition isWhiteSpace (c : ascii) : bool :=
  let n := nat_of_ascii c in
  ((9 <=? n) && (n <=? 13) || (n =? 32) || (n =? 160))%nat.

(** [s.trim()] *)
Fixpoint trimStart (s : string) : string :=
  match s with
  | String c rest => if isWhiteSpace c then trimStart rest else s
  | EmptyString => EmptyString
  end.

Fixpoint trimEnd (s : string) : string :=
  match s with
  | EmptyString => EmptyString
  | String c rest =>
      match trimEnd rest with
      | EmptyString => if isWhiteSpace c then EmptyString else String c EmptyString
      | rest' => String c rest'
      end
  end.

Definition trim (s : string) : string := trimEnd (trimStart s).

End Js.

Module JsNotations.
Notation "'do' x <- c1 ; c2" := (Js.bind c1 (fun x => c2))
  (at level 61, x name, c1 at next level, right associativity).
End JsNotations.

(* ------------------------------------------------------------------ *)
(** ** [utils/url.ts] *)

Module Url.
Import Js.

Inductive provider : Type := Anthropic | OpenAI.

(** [const trimSlash = (s) => s.replace(/\/+$/, '')]: the regular expression
    matches the maximal run of slashes that ends the string, so the
    replacement removes every trailing slash. *)
Fixpoint trimSlash (s : string) : string :=
  match s with
  | EmptyString => EmptyString
  | String c rest =>
      match trimSlash rest with
      | EmptyString => if Ascii.eqb c "/"%char then EmptyString else String c EmptyString
      | String c' rest' => String c (String c' rest')
      end
  end.

Definition partialSuffixes : list string := ["/v1/chat"; "/chat"; "/v1/"].

(** The [for (const suffix of partialSuffixes)] loop: the first suffix that
    matches is cut off and the loop is left ([break]). *)
Fixpoint stripPartialSuffix (suffixes : list string) (normalized : string) : string :=
  match suffixes with
  | [] => normalized
  | suffix :: rest =>
      if endsWith normalized suffix
      then slice0 normalized (- Z.of_nat (String.length suffix))
      else stripPartialSuffix rest normalized
  end.

(** The [/v1] step: cut after the first ["/v1"], or append one. *)
Definition ensureV1 (normalized : string) : string :=
  if includes normalized "/v1" then
    match indexOf normalized "/v1" with
    | Some v1Idx => slice0 normalized (Z.of_nat v1Idx + 3)
    | None => slice0 normalized 2 (* indexOf = -1: slice(0, -1 + 3) *)
    end
  else normalized ++ "/v1".

Definition normalizeApiUrl (apiUrl : string) (p : provider) : string :=
  let normalized := trimSlash apiUrl in
  match p with
  | Anthropic => normalized
  | OpenAI =>
      if endsWith normalized "/chat/completions" || endsWith normalized "/responses"
      then normalized
      else
        let normalized := stripPartialSuffix partialSuffixes normalized in
        let normalized := ensureV1 normalized in
        normalized ++ "/chat/completions"
  end.

(** Every character of [s] is a slash. *)
Fixpoint onlySlashes (s : string) : bool :=
  match s with
  | EmptyString => true
  | String c rest => Ascii.eqb c "/"%char && onlySlashes rest
  end.

End Url.

(* ------------------------------------------------------------------ *)
(** ** [services/health/types]: the records the health system passes around *)

Module Types.

Inductive Severity : Type := critical | warning | info.
Inductive HealthStatus : Type := healthy | degraded | unhealthy.

Definition Severity_eqb (a b : Severity) : bool :=
  match a, b with
  | critical, critical | warning, warning | info, info => true
  | _, _ => false
  end.

Definition HealthStatus_eqb (a b : HealthStatus) : bool :=
  match a, b with
  | healthy, healthy | degraded, degraded | unhealthy, unhealthy => true
  | _, _ => false
  end.

(** The [data] object of the config probe. *)
Record ConfigProbeData : Type := mkConfigProbeData {
  fileExists : bool;
  jsonValid : bool;
  criticalFieldsPresent : bool;
  apiKeyConfigured : bool;
  errors : list string
}.

(** The [data] object of a service probe. *)
Record ServiceProbeData : Type := mkServiceProbeData {
  responseTime : option Z;
  error : option string
}.

(** The [errors] of the [data] of a probe that is not in this part of the
    repository, as far as the startup log looks at them. The log casts them
    to an array of strings; whatever they are, it tests [errors?.length]
    and then calls [errors.join(', ')]. [ErrorsAbsent]: [undefined] or
    [null]. [ErrorsValue lengthTruthy joined]: any other value, with the
    truthiness of its [length] and what the call of [join] gives, a
    [TypeError] for a value without that method (a string, an object). *)
Inductive ForeignErrors : Type :=
| ErrorsAbsent
| ErrorsValue (lengthTruthy : bool) (joined : Js.result string).

Inductive ProbeData : Type :=
| ConfigData (d : ConfigProbeData)
| ServiceData (d : ServiceProbeData)
| OtherData (foreignErrors : ForeignErrors).

Record ProbeResult : Type := mkProbeResult {
  name : string;
  probe_healthy : bool;            (* field [healthy] *)
  severity : Severity;
  probe_message : string;          (* field [message] *)
  probe_timestamp : Z;             (* field [timestamp] *)
  data : option ProbeData
}.

Record StartupCheckResult : Type := mkStartupCheckResult {
  status : HealthStatus;
  probes : list ProbeResult;
  duration : Z;
  timestamp : Z
}.

Inductive ProcessType : Type := v2_session | tunnel.

Definition ProcessType_eqb (a b : ProcessType) : bool :=
  match a, b with
  | v2_session, v2_session | tunnel, tunnel => true
  | _, _ => false
  end.

(** One entry of the process registry. [pid] is [null] when the SDK did not
    report one. *)
Record ProcessEntry : Type := mkProcessEntry {
  id : string;
  pid : option Z;
  type : ProcessType;
  instanceId : string;
  startedAt : Z
}.

(** Truthiness of a nullable number ([entry.pid], [lastCheckTime]): [null]
    and [0] are falsy. *)
Definition pidTruthy (p : option Z) : bool :=
  match p with
  | Some n => negb (n =? 0)%Z
  | None => false
  end.

(** What [findByArgs] reports for one process. *)
Record ProcessInfo : Type := mkProcessInfo {
  pi_pid : Z;
  commandLine : string;
  pi_name : string
}.

(** What [findChildProcesses] reports for one process. *)
Record ChildProcessInfo : Type := mkChildProcessInfo {
  cp_pid : Z;
  ppid : Z;
  cp_name : string
}.

Inductive CleanupMethod : Type := by_pid | by_args.

Record CleanupDetail : Type := mkCleanupDetail {
  cd_pid : Z;
  cd_type : ProcessType;
  method : CleanupMethod
}.

Record CleanupResult : Type := mkCleanupResult {
  cleaned : nat;
  failed : nat;
  details : list CleanupDetail
}.

End Types.

(* ------------------------------------------------------------------ *)
(** ** [health-checker/probes/config-probe.ts] *)

Module ConfigProbe.
Import Js JsNotations Types.

(** What [JSON.parse] returns. An object is the list of its own
    properties. *)
#[warnings="-register-all"]
Inductive json : Type :=
| JNull
| JBool (b : bool)
| JNum (q : QArith_base.Q)
| JStr (s : string)
| JArr (items : list json)
| JObj (fields : list (string * json)).

(** A JavaScript value read from the configuration: [None] is
    [undefined]. *)
Definition value : Type := option json.

Fixpoint lookup (k : string) (fields : list (string * json)) : value :=
  match fields with
  | [] => None
  | (k', v) :: rest => if String.eqb k k' then Some v else lookup k rest
  end.

(** [v[k]] for a [v] that is neither [null] nor [undefined]. None of the
    keys the probe reads names a built-in property of a string, a number,
    a boolean or an array; a prototype property that a computed key could
    reach has no [accessToken], so it counts as [undefined] here. *)
Definition prop (v : json) (k : string) : value :=
  match v with
  | JObj fields => lookup k fields
  | _ => None
  end.

Definition typeError (k : string) : Error :=
  mkError ("Cannot read properties of null (reading '" ++ k ++ "')").

(** [v.k]: a [TypeError] on [null] and [undefined]. *)
Definition get (v : value) (k : string) : result value :=
  match v with
  | None | Some JNull => Throw (typeError k)
  | Some o => Ok (prop o k)
  end.

(** [v?.k] *)
Definition getOpt (v : value) (k : string) : value :=
  match v with
  | None | Some JNull => None
  | Some o => prop o k
  end.

Definition truthy (v : value) : bool :=
  match v with
  | None | Some JNull => false
  | Some (JBool b) => b
  | Some (JNum q) => negb (QArith_base.Qeq_bool q (QArith_base.Qmake 0 1))
  | Some (JStr s) => negb (String.eqb s "")
  | Some (JArr _) | Some (JObj _) => true
  end.

(** [a === b]. Two arrays or objects read from different places of the
    parsed document are different objects. *)
Definition strictEq (a b : value) : bool :=
  match a, b with
  | None, None => true
  | Some JNull, Some JNull => true
  | Some (JBool x), Some (JBool y) => Bool.eqb x y
  | Some (JNum x), Some (JNum y) => QArith_base.Qeq_bool x y
  | Some (JStr x), Some (JStr y) => String.eqb x y
  | _, _ => false
  end.

(** [typeof v === 'string'] *)
Definition isString (v : value) : bool :=
  match v with Some (JStr _) => true | _ => false end.

(** [v && typeof v === 'object'] *)
Definition isObject (v : value) : bool :=
  match v with Some (JArr _) | Some (JObj _) => true | _ => false end.

(** [!!(v && typeof v === 'string' && v.length > 0)], which is also
    [!!(v && typeof v === 'string')]: a truthy string is not empty. *)
Definition nonEmptyString (v : value) : bool :=
  match v with Some (JStr s) => negb (String.eqb s "") | _ => false end.

Definition two : json := JNum (QArith_base.Qmake 2 1).

(** Everything the probe reads from outside. [toPropertyKey] is
    JavaScript's conversion of a value that is not a string to a property
    key. *)
Record Env : Type := mkEnv {
  existsSync : bool;
  readFileSync : result string;
  JSON_parse : string -> result json;
  toPropertyKey : json -> string;
  now : Z
}.

(** [aiSources?.version === 2] *)
Definition isV2 (aiSources : value) : bool := strictEq (getOpt aiSources "version") (Some two).

(** [hasAiSourcesCurrent] *)
Definition hasAiSourcesCurrent (aiSources : value) : bool :=
  if isV2 aiSources
  then negb (strictEq (getOpt aiSources "currentId") None)
  else truthy aiSources && isString (getOpt aiSources "current").

(** [sources?.find(s => s.id === currentId)] *)
Fixpoint findById (currentId : value) (items : list json) : result value :=
  match items with
  | [] => Ok None
  | s :: rest =>
      do sid <- get (Some s) "id";
      if strictEq sid currentId then Ok (Some s) else findById currentId rest
  end.

Definition findSource (sources currentId : value) : result value :=
  match sources with
  | None | Some JNull => Ok None
  | Some (JArr items) => findById currentId items
  | Some _ => Throw (mkError "sources?.find is not a function")
  end.

(** The "check API key configuration" block: the final value of
    [apiKeyConfigured], or the exception that interrupts it. *)
Definition checkApiKey (env : Env) (aiSources : value) : result bool :=
  if isV2 aiSources then
    (* v2 format: check sources array *)
    do currentSource <- findSource (getOpt aiSources "sources")
                                   (getOpt aiSources "currentId");
    if truthy currentSource then
      match currentSource with
      | Some src =>
          let authType := prop src "authType" in
          if strictEq authType (Some (JStr "api-key"))
          then Ok (nonEmptyString (prop src "apiKey"))
          else if strictEq authType (Some (JStr "oauth"))
          then Ok (nonEmptyString (prop src "accessToken"))
          else Ok false
      | None => Ok false
      end
    else Ok false
  else
    (* v1 format: legacy check *)
    let currentSource := getOpt aiSources "current" in
    if strictEq currentSource (Some (JStr "custom"))
    then Ok (nonEmptyString (getOpt (getOpt aiSources "custom") "apiKey"))
    else if truthy currentSource
    then
      match currentSource with
      | Some (JStr k) => Ok (nonEmptyString (getOpt (getOpt aiSources k) "accessToken"))
      | Some v =>
          Ok (nonEmptyString (getOpt (getOpt aiSources (toPropertyKey env v)) "accessToken"))
      | None => Ok false
      end
    else Ok false.

Definition report (healthy : bool) (sev : Severity) (message : string) (env : Env)
    (d : ConfigProbeData) : ProbeResult :=
  {| name := "config"; probe_healthy := healthy; severity := sev;
     probe_message := message; probe_timestamp := now env;
     data := Some (ConfigData d) |}.

(** The errors pushed by the "check critical fields" block. *)
Definition fieldErrors (aiSources : value) (hasPermissions : bool) : list string :=
  (if hasAiSourcesCurrent aiSources then []
   else [if isV2 aiSources then "Missing aiSources.currentId field"
         else "Missing aiSources.current field"])
  ++ (if hasPermissions then [] else ["Missing permissions field"]).

(** The [catch (error)] of the outer [try]; the flags are the ones that
    were set when the exception was thrown. *)
Definition unexpected (env : Env) (criticalFieldsPresent : bool) (errors : list string)
    (error : Error) : ProbeResult :=
  report false critical ("Config check failed: " ++ message error) env
    {| fileExists := true; jsonValid := true;
       criticalFieldsPresent := criticalFieldsPresent; apiKeyConfigured := false;
       errors := errors ++ ["Unexpected error: " ++ message error] |}.

(** The part of [runConfigProbe] that follows a successful parse. *)
Definition inspect (env : Env) (config : json) : ProbeResult :=
  match get (Some config) "aiSources" with
  | Throw error => unexpected env false [] error
  | Ok aiSources =>
      let hasPermissions := isObject (prop config "permissions") in
      let criticalFieldsPresent := hasAiSourcesCurrent aiSources && hasPermissions in
      let errors := fieldErrors aiSources hasPermissions in
      match checkApiKey env aiSources with
      | Throw error => unexpected env criticalFieldsPresent errors error
      | Ok apiKeyConfigured =>
          (* Determine overall health *)
          let healthy := true && criticalFieldsPresent in
          let sev := if negb healthy then critical
                     else if negb apiKeyConfigured then warning else info in
          let message :=
            if negb criticalFieldsPresent then "Config file missing critical fields"
            else if negb apiKeyConfigured then "No API key configured"
            else "Config file is healthy" in
          report healthy sev message env
            {| fileExists := true; jsonValid := true;
               criticalFieldsPresent := criticalFieldsPresent;
               apiKeyConfigured := apiKeyConfigured; errors := errors |}
      end
  end.

(** [readFileSync] followed by [JSON.parse], both inside the inner [try]. *)
Definition readConfig (env : Env) : result json :=
  do content <- readFileSync env; JSON_parse env content.

Definition runConfigProbe (env : Env) : ProbeResult :=
  if negb (existsSync env) then
    report false info "Config file not found, will be created on first launch" env
      {| fileExists := false; jsonValid := false; criticalFieldsPresent := false;
         apiKeyConfigured := false; errors := ["Config file does not exist"] |}
  else
    match readConfig env with
    | Throw parseError =>
        report false critical "Config file is corrupted (invalid JSON)" env
          {| fileExists := true; jsonValid := false; criticalFieldsPresent := false;
             apiKeyConfigured := false;
             errors := ["JSON parse error: " ++ message parseError] |}
    | Ok config => inspect env config
    end.

(** The schema-critical fields of a parsed configuration: the current
    source of [aiSources] (a string [current], or any [currentId] in
    version 2) and an object [permissions]. *)
Definition criticalFieldsOf (config : json) : bool :=
  hasAiSourcesCurrent (prop config "aiSources") && isObject (prop config "permissions").

(** The [sources] of a version 2 configuration have the type the probe
    casts them to: absent, or an array of objects. *)
Definition sourcesWellTyped (config : json) : bool :=
  match getOpt (prop config "aiSources") "sources" with
  | None | Some JNull => true
  | Some (JArr items) =>
      forallb (fun s => match s with JObj _ => true | _ => false end) items
  | Some _ => false
  end.

(** *** The classes of configurations, as the specification names them

    These are read off the parsed document and use nothing of the probe. *)

(** The document is of version 2. *)
Definition version2 (config : json) : bool :=
  strictEq (getOpt (prop config "aiSources") "version") (Some two).

(** The field of [aiSources] that names the active source. *)
Definition activeSourceField (config : json) : string :=
  if version2 config then "currentId" else "current".

(** A schema-critical field is not there at all: [permissions], or the
    field of [aiSources] that names the active source. *)
Definition missingCriticalField (config : json) : bool :=
  match prop config "permissions" with
  | None => true
  | Some _ =>
      match getOpt (prop config "aiSources") (activeSourceField config) with
      | None => true
      | Some _ => false
      end
  end.

(** The document has its schema-critical fields: [permissions] is an
    object, and [aiSources] names the active source, by a [currentId]
    (which may be [null]) in version 2 and by a string [current]
    otherwise. *)
Definition hasCriticalFields (config : json) : bool :=
  match prop config "permissions" with
  | Some (JObj _) | Some (JArr _) =>
      match getOpt (prop config "aiSources") (activeSourceField config) with
      | Some (JStr _) => true
      | Some _ => version2 config
      | None => false
      end
  | _ => false
  end.

(** The first of [items] whose [id] is [currentId]. *)
Fixpoint firstWithId (currentId : value) (items : list json) : option json :=
  match items with
  | [] => None
  | s :: rest =>
      if strictEq (prop s "id") currentId then Some s else firstWithId currentId rest
  end.

(** The credential of the active source. In version 2 the active source is
    the first of [sources] whose [id] is [currentId], and its credential is
    its [apiKey] when its [authType] is [api-key] and its [accessToken]
    when it is [oauth]. Otherwise the active source is the one [current]
    names: [custom] with its [apiKey], any other with its [accessToken]. *)
Definition activeCredential (config : json) : value :=
  let aiSources := prop config "aiSources" in
  if version2 config then
    match getOpt aiSources "sources" with
    | Some (JArr items) =>
        match firstWithId (getOpt aiSources "currentId") items with
        | Some activeSource =>
            match prop activeSource "authType" with
            | Some (JStr authType) =>
                if String.eqb authType "api-key" then prop activeSource "apiKey"
                else if String.eqb authType "oauth" then prop activeSource "accessToken"
                else None
            | _ => None
            end
        | None => None
        end
    | _ => None
    end
  else
    match getOpt aiSources "current" with
    | Some (JStr name) =>
        if String.eqb name "custom" then getOpt (getOpt aiSources "custom") "apiKey"
        else if String.eqb name "" then None
        else getOpt (getOpt aiSources name) "accessToken"
    | _ => None
    end.

(** No credentials are configured for the active source: there is no such
    source, or its credential is not a string, or it is the empty
    string. *)
Definition noCredentials (config : json) : bool :=
  match activeCredential config with
  | Some (JStr credential) => String.eqb credential ""
  | _ => true
  end.

(** The configuration file is there and cannot be used: it cannot be read
    or parsed, it lacks a critical field, or the credential check was
    interrupted by an exception. *)
Definition unusable (env : Env) : bool :=
  existsSync env
  && match readConfig env with
     | Throw _ => true
     | Ok config =>
         negb (criticalFieldsOf config)
         || is_throw (checkApiKey env (prop config "aiSources"))
     end.

(** Examples of configuration files, already parsed. *)
Definition asFile (config : json) : Env :=
  {| existsSync := true; readFileSync := Ok "...";
     JSON_parse := fun _ => Ok config; toPropertyKey := fun _ => ""; now := 0%Z |}.

Definition source (i authType apiKey : string) : json :=
  JObj [("id", JStr i); ("authType", JStr authType); ("apiKey", JStr apiKey)].

Definition v2Config (currentId : json) (sources : json) : json :=
  JObj [("aiSources", JObj [("version", two); ("currentId", currentId);
                            ("sources", sources)]);
        ("permissions", JObj [])].

Definition v1Config (current : string) (apiKey : string) : json :=
  JObj [("aiSources", JObj [("current", JStr current);
                            ("custom", JObj [("apiKey", JStr apiKey)])]);
        ("permissions", JObj [])].

End ConfigProbe.

(* ------------------------------------------------------------------ *)
(** ** The startup checker: [runStartupChecks], [safeProbe], [withTimeout] *)

Module StartupChecker.
Import Js JsNotations Types.

(** [withTimeout(promise, timeoutMs)]: a race between the promise and a
    timer that rejects with [new Error('Timeout')] after [timeoutMs]. The
    promise exists before the timer is set, so a promise that settles at
    the very moment the timer fires has settled first and the race gives
    its outcome. The value is what [await] gives the caller. *)
Definition withTimeout {A : Type} (promise : Promise A) (timeoutMs : Z) : attempt A :=
  match settledAfter promise with
  | Some t => if (t <=? timeoutMs)%Z then outcome promise
              else Throw (AnError (mkError "Timeout"))
  | None => Throw (AnError (mkError "Timeout"))
  end.

(** [safeProbe(name, probeFn)]. [probeFn ()] is evaluated inside the [try],
    so a synchronous throw is caught as well. The [catch] builds its result
    from [(error as Error).message]: when that read throws, [safeProbe]
    itself rejects. [now] is the [Date.now()] of the [catch] block. *)
Definition safeProbe (name : string) (probeFn : unit -> attempt (Promise ProbeResult))
    (now : Z) : result ProbeResult :=
  try_catch
    (do promise <- probeFn tt; withTimeout promise 10000)
    (fun error =>
       do failure <- messageOf error;
       Ok {| name := name;
             probe_healthy := true;     (* Assume healthy on error *)
             severity := warning;
             probe_message := "Probe failed: " ++ failure;
             probe_timestamp := now;
             data := None |}).

Definition determineOverallStatus (probes : list ProbeResult) : HealthStatus :=
  let hasCritical :=
    existsb (fun p => negb (probe_healthy p) && Severity_eqb (severity p) critical) probes in
  let hasWarning :=
    existsb (fun p => negb (probe_healthy p) && Severity_eqb (severity p) warning) probes in
  if hasCritical then unhealthy
  else if hasWarning then degraded
  else healthy.

(** [probe.data?.errors]; those of the config probe are an array of
    strings. *)
Definition errorsOf (probe : ProbeResult) : ForeignErrors :=
  match data probe with
  | Some (ConfigData d) =>
      ErrorsValue (negb (length (errors d) =? 0)%nat) (Ok (String.concat ", " (errors d)))
  | Some (OtherData foreignErrors) => foreignErrors
  | Some (ServiceData _) | None => ErrorsAbsent
  end.

(** [errors?.length], as a condition. *)
Definition hasLength (e : ForeignErrors) : bool :=
  match e with
  | ErrorsAbsent => false
  | ErrorsValue lengthTruthy _ => lengthTruthy
  end.

(** [errors.join(', ')], reached only when [errors?.length] is truthy. *)
Definition join (e : ForeignErrors) : result string :=
  match e with
  | ErrorsAbsent => Throw (mkError "Cannot read properties of undefined (reading 'join')")
  | ErrorsValue _ joined => joined
  end.

(** The [detail] of the line that logs one result:
    [!probe.healthy && errors?.length ? ` (${errors.join(', ')})` : ''].
    The rest of the line (an icon, the name, the message) is printed as it
    is. *)
Definition detail (probe : ProbeResult) : result string :=
  if negb (probe_healthy probe) && hasLength (errorsOf probe)
  then do joined <- join (errorsOf probe); Ok (" (" ++ joined ++ ")")
  else Ok "".

(** The loop that logs the results. *)
Fixpoint logResults (probes : list ProbeResult) : result unit :=
  match probes with
  | [] => Ok tt
  | probe :: rest => do _ <- detail probe; logResults rest
  end.

(** Everything [runStartupChecks] reads from outside. *)
Record Env : Type := mkEnv {
  wasLastExitClean : attempt bool;
  runConfigProbe : unit -> attempt (Promise ProbeResult);
  runPortProbe : unit -> attempt (Promise ProbeResult);
  runDiskProbe : unit -> attempt (Promise ProbeResult);
  runProcessProbe : unit -> attempt (Promise ProbeResult);
  startTime : Z;            (* [Date.now()] on entry *)
  catchTime : string -> Z;  (* [Date.now()] inside the [catch] of a probe *)
  endTime : Z;              (* [Date.now()] when the duration is taken *)
  stampTime : Z             (* [Date.now()] of the [timestamp] *)
}.

(** [await Promise.all([safeProbe(...), ...])]: the four results, or the
    rejection of a [safeProbe] that rejects. *)
Definition allProbes (env : Env) : result (list ProbeResult) :=
  do configResult <- safeProbe "config" (runConfigProbe env) (catchTime env "config");
  do portResult <- safeProbe "port" (runPortProbe env) (catchTime env "port");
  do diskResult <- safeProbe "disk" (runDiskProbe env) (catchTime env "disk");
  do processResult <- safeProbe "process" (runProcessProbe env) (catchTime env "process");
  Ok [configResult; portResult; diskResult; processResult].

(** [runStartupChecks()]. The [catch] does not look at what was thrown and
    returns the [probes] array as it is at that moment: empty until the
    four results are pushed. *)
Definition runStartupChecks (env : Env) : StartupCheckResult :=
  let caught (probes : list ProbeResult) :=
    {| status := healthy;   (* Assume healthy on error to not block app *)
       probes := probes;
       duration := endTime env - startTime env;
       timestamp := stampTime env |} in
  match wasLastExitClean env with
  | Throw _ => caught []
  | Ok lastExitClean =>
      (* Run probes in parallel for speed *)
      match allProbes env with
      | Throw _ => caught []
      | Ok probes =>
          (* Log probe results *)
          match logResults probes with
          | Throw _ => caught probes
          | Ok _ =>
              {| status := determineOverallStatus probes;
                 probes := probes;
                 duration := endTime env - startTime env;
                 timestamp := stampTime env |}
          end
      end
  end.

(** A probe invocation faults when the call throws, the promise rejects, or
    the promise is not settled when the 10 second timer fires. *)
Definition faults (probeFn : unit -> attempt (Promise ProbeResult)) : bool :=
  match probeFn tt with
  | Throw _ => true
  | Ok promise =>
      match settledAfter promise with
      | Some t => (10000 <? t)%Z || is_throw (outcome promise)
      | None => true
      end
  end.

(** What reaches the [catch] of [safeProbe], if anything does. *)
Definition caughtIn (probeFn : unit -> attempt (Promise ProbeResult)) : option Thrown :=
  match probeFn tt with
  | Throw error => Some error
  | Ok promise =>
      match settledAfter promise with
      | Some t =>
          if (10000 <? t)%Z then Some (AnError (mkError "Timeout"))
          else match outcome promise with
               | Throw error => Some error
               | Ok _ => None
               end
      | None => Some (AnError (mkError "Timeout"))
      end
  end.

(** The probe throws, or rejects in time, with [null] or [undefined]. *)
Definition escapes (probeFn : unit -> attempt (Promise ProbeResult)) : bool :=
  match caughtIn probeFn with
  | Some Nullish => true
  | _ => false
  end.

(** What a probe answers, when it answers in time. *)
Definition answer (probeFn : unit -> attempt (Promise ProbeResult)) : list ProbeResult :=
  if faults probeFn then []
  else
    match probeFn tt with
    | Ok promise => match outcome promise with Ok r => [r] | Throw _ => [] end
    | Throw _ => []
    end.

Definition answers (env : Env) : list ProbeResult :=
  (answer (runConfigProbe env) ++ answer (runPortProbe env)
   ++ answer (runDiskProbe env) ++ answer (runProcessProbe env))%list.

(** The check is interrupted before any result is pushed: [wasLastExitClean]
    throws, or one of the wrapped probes rejects. *)
Definition interrupted (env : Env) : bool :=
  is_throw (wasLastExitClean env)
  || escapes (runConfigProbe env) || escapes (runPortProbe env)
  || escapes (runDiskProbe env) || escapes (runProcessProbe env).

(** Logging this result throws. *)
Definition logFails (probe : ProbeResult) : bool := is_throw (detail probe).

(** [!p.healthy && p.severity === s] *)
Definition alarming (s : Severity) (p : ProbeResult) : bool :=
  negb (probe_healthy p) && Severity_eqb (severity p) s.

(** [runQuickHealthCheck()], given what [await runConfigProbe()] gives. *)
Definition runQuickHealthCheck (configProbe : attempt ProbeResult) : bool * string :=
  match configProbe with
  | Ok configResult => (probe_healthy configResult, probe_message configResult)
  | Throw _ => (true, "Quick check failed, assuming healthy")
  end.

(** A first launch: no configuration file yet, and the other probes find
    nothing. *)
Definition firstLaunch : Env :=
  let fine := fun probeName (_ : unit) =>
    Ok (mkPromise (Some 40%Z) (Ok (mkProbeResult probeName true info "ok" 0 None))) in
  {| wasLastExitClean := Ok true;
     runConfigProbe := fun _ =>
       Ok (mkPromise (Some 5%Z)
             (Ok (ConfigProbe.runConfigProbe
                    (ConfigProbe.mkEnv false (Throw (mkError "ENOENT"))
                       (fun _ => Throw (mkError "unused")) (fun _ => "") 0))));
     runPortProbe := fine "port";
     runDiskProbe := fine "disk";
     runProcessProbe := fine "process";
     startTime := 0; catchTime := fun _ => 0%Z; endTime := 50; stampTime := 50 |}.

(** A check in which three probes fault in three ways and the process
    probe reports two orphans. *)
Definition threeFaults : Env :=
  {| wasLastExitClean := Ok true;
     runConfigProbe := fun _ =>
       Ok (mkPromise (Some 12000%Z)
             (Ok (mkProbeResult "config" false critical "late" 0 None)));
     runPortProbe := fun _ => Throw (AnError (mkError "EACCES"));
     runDiskProbe := fun _ =>
       Ok (mkPromise (Some 5%Z) (Throw (AnError (mkError "statfs failed"))));
     runProcessProbe := fun _ =>
       Ok (mkPromise (Some 40%Z)
             (Ok (mkProbeResult "process" false critical "2 orphans" 0 None)));
     startTime := 100; catchTime := fun _ => 150%Z; endTime := 200; stampTime := 201 |}.

(** The same check, the disk probe rejecting with [undefined]. *)
Definition undefinedRejection : Env :=
  {| wasLastExitClean := wasLastExitClean threeFaults;
     runConfigProbe := runConfigProbe threeFaults;
     runPortProbe := runPortProbe threeFaults;
     runDiskProbe := fun _ => Ok (mkPromise (Some 5%Z) (Throw Nullish));
     runProcessProbe := runProcessProbe threeFaults;
     startTime := 100; catchTime := fun _ => 150%Z; endTime := 200; stampTime := 201 |}.

(** A check in which the process probe reports two orphans, its [errors]
    being a string and not an array. *)
Definition unjoinable : Env :=
  let fine := fun probeName (_ : unit) =>
    Ok (mkPromise (Some 40%Z) (Ok (mkProbeResult probeName true info "ok" 0 None))) in
  {| wasLastExitClean := Ok true;
     runConfigProbe := fine "config";
     runPortProbe := fine "port";
     runDiskProbe := fine "disk";
     runProcessProbe := fun _ =>
       Ok (mkPromise (Some 40%Z)
             (Ok (mkProbeResult "process" false critical "2 orphans" 0
                    (Some (OtherData
                             (ErrorsValue true
                                (Throw (mkError "errors.join is not a function"))))))));
     startTime := 100; catchTime := fun _ => 150%Z; endTime := 200; stampTime := 201 |}.

End StartupChecker.

(* ------------------------------------------------------------------ *)
(** ** Platform process operations, Windows implementation *)

Module Win32ProcessOps.
Import Js JsNotations Types.

(** The operating system as the Windows implementation reaches it:
    [execAsync] runs a shell command (it throws when the command exits with
    an error or runs into its timeout) and [process.kill(pid, 0)] throws
    when the process cannot be signalled. *)
Record OS (World : Type) : Type := mkOS {
  execAsync : string -> Z -> World -> result string * World;
  process_kill0 : Z -> World -> result unit
}.
Arguments execAsync {World} _ _ _ _.
Arguments process_kill0 {World} _ _ _.

Section Ops.
Context {World : Type} (os : OS World).

Definition isProcessAlive (pid : Z) (w : World) : bool :=
  match process_kill0 os pid w with
  | Ok _ => true
  | Throw _ => false
  end.

Definition taskkill (pid : Z) (signal : string) : string :=
  let forceFlag := if String.eqb signal "SIGKILL" then "/F " else "" in
  "taskkill " ++ forceFlag ++ "/PID " ++ show_Z pid ++ " /T".

Definition killProcess (pid : Z) (signal : string) (w : World) : result unit * World :=
  let (r, w') := execAsync os (taskkill pid signal) 5000 w in
  match r with
  | Ok _ => (Ok tt, w')
  | Throw _ =>
      (* Goal-based validation: verify the process is gone regardless of
         error message *)
      if negb (isProcessAlive pid w') then (Ok tt, w')
      else (Throw (mkError ("Failed to terminate process " ++ show_Z pid)), w')
  end.

End Ops.

(** A small concrete system used in examples: the world is the list of
    live pids; [taskkill] reports what [tool] says and removes the process
    only when [effective]. *)
Definition demoOS (tool : result string) (effective : bool) : OS (list Z) :=
  {| execAsync := fun cmd timeout w => (tool, if effective then [] else w);
     process_kill0 := fun pid w =>
       if existsb (Z.eqb pid) w then Ok tt else Throw (mkError "ESRCH") |}.

End Win32ProcessOps.

(* ------------------------------------------------------------------ *)
(** ** The platform capability interface ([PlatformProcessOps]) *)

Module Platform.
Import Js Types.

(** The four operations every platform implements. [World] is the state of
    the operating system; an operation that shells out returns the world
    it leaves behind. [isProcessAlive] only looks. *)
Record PlatformProcessOps (World : Type) : Type := mkOps {
  findByArgs : string -> World -> result (list ProcessInfo) * World;
  killProcess : Z -> string -> World -> result unit * World;
  isProcessAlive : Z -> World -> bool;
  findChildProcesses : Z -> World -> result (list ChildProcessInfo) * World
}.
Arguments findByArgs {World} _ _ _.
Arguments killProcess {World} _ _ _ _.
Arguments isProcessAlive {World} _ _ _.
Arguments findChildProcesses {World} _ _ _.

End Platform.

(* ------------------------------------------------------------------ *)
(** ** The process registry *)

Module Registry.
Import Js Types.

(** The registry as the health system holds it: the identifier of the
    running instance ([null] before [markInstanceStart]) and the recorded
    processes. *)
Record State : Type := mkState {
  currentInstanceId : option string;
  processes : list ProcessEntry
}.

(** [entry.instanceId === currentInstanceId] *)
Definition isCurrent (cur : option string) (entry : ProcessEntry) : bool :=
  match cur with
  | Some c => String.eqb (instanceId entry) c
  | None => false
  end.

Definition getCurrentInstanceId (st : State) : option string := currentInstanceId st.

(** Modelled from the spec: [registry.ts] is not among the source files.
    "getCurrentProcesses(): entries tagged with the current instance." *)
Definition getCurrentProcesses (st : State) : list ProcessEntry :=
  filter (isCurrent (currentInstanceId st)) (processes st).

(** Modelled from the spec: [registry.ts] is not among the source files.
    "getOrphanProcesses(): entries tagged with any other instance." *)
Definition getOrphanProcesses (st : State) : list ProcessEntry :=
  filter (fun e => negb (isCurrent (currentInstanceId st) e)) (processes st).

(** Modelled from the spec: [registry.ts] is not among the source files.
    The cleaner calls it so that "all orphan registry entries are removed
    after the pass": it drops exactly the entries [getOrphanProcesses]
    returns. *)
Definition clearOrphanEntries (st : State) : State :=
  {| currentInstanceId := currentInstanceId st;
     processes := filter (isCurrent (currentInstanceId st)) (processes st) |}.

Definition sameKey (i : string) (t : ProcessType) (entry : ProcessEntry) : bool :=
  String.eqb (id entry) i && ProcessType_eqb (type entry) t.

(** Modelled from the spec: [registry.ts] is not among the source files.
    "registerProcess(entry) / unregisterProcess(id, type): idempotent
    upsert/remove", with at most one entry per [(id, type)]. *)
Definition unregisterProcess (i : string) (t : ProcessType) (st : State) : State :=
  {| currentInstanceId := currentInstanceId st;
     processes := filter (fun e => negb (sameKey i t e)) (processes st) |}.

(** Modelled from the spec: see [unregisterProcess]. *)
Definition registerProcess (entry : ProcessEntry) (st : State) : State :=
  {| currentInstanceId := currentInstanceId st;
     processes :=
       filter (fun e => negb (sameKey (id entry) (type entry) e)) (processes st)
       ++ [entry] |}.

End Registry.

(* ------------------------------------------------------------------ *)
(** ** The process cleaner: [cleanupOrphans] *)

Module Cleaner.
Import Js Types Platform Registry.

Definition HALO_MANAGED_FLAG : string := "halo-managed".
Definition HALO_INSTANCE_PREFIX : string := "halo-instance=".

Definition inferProcessType (commandLine : string) : ProcessType :=
  if includes commandLine "claude" || includes commandLine "cli.js" then v2_session
  else if includes commandLine "tunnel" || includes commandLine "cloudflared" then tunnel
  else v2_session.

Definition countCleaned (r : CleanupResult) (d : CleanupDetail) : CleanupResult :=
  {| cleaned := S (cleaned r); failed := failed r; details := details r ++ [d] |}.

Definition countFailed (r : CleanupResult) : CleanupResult :=
  {| cleaned := cleaned r; failed := S (failed r); details := details r |}.

Section WithOps.
Context {World : Type} (platformOps : PlatformProcessOps World).

(** Body of the loop of step 1 (kill by PID, registry-based). *)
Definition killByPid (acc : CleanupResult * World) (entry : ProcessEntry)
  : CleanupResult * World :=
  let (result, w) := acc in
  match pid entry with
  | None => acc                                   (* no PID recorded *)
  | Some p =>
      if negb (pidTruthy (Some p)) then acc
      else if isProcessAlive platformOps p w then
        let (r, w') := killProcess platformOps p "SIGTERM" w in
        match r with
        | Ok _ => (countCleaned result (mkCleanupDetail p (type entry) by_pid), w')
        | Throw _ => (countFailed result, w')
        end
      else acc
  end.

(** Body of the loop of step 2 (scan by args, fallback). *)
Definition killByArgs (currentInstanceId : string) (acc : CleanupResult * World)
    (proc : ProcessInfo) : CleanupResult * World :=
  let (result, w) := acc in
  if includes (commandLine proc) (HALO_INSTANCE_PREFIX ++ currentInstanceId) then acc
  else if existsb (fun d => (cd_pid d =? pi_pid proc)%Z) (details result) then acc
  else if negb (isProcessAlive platformOps (pi_pid proc) w) then acc
  else
    let (r, w') := killProcess platformOps (pi_pid proc) "SIGTERM" w in
    match r with
    | Ok _ =>
        (countCleaned result
           (mkCleanupDetail (pi_pid proc) (inferProcessType (commandLine proc)) by_args),
         w')
    | Throw _ => (countFailed result, w')
    end.

Definition emptyResult : CleanupResult := {| cleaned := 0; failed := 0; details := [] |}.

Definition cleanupOrphans (st : Registry.State) (w : World)
  : CleanupResult * Registry.State * World :=
  match getCurrentInstanceId st with
  | None => (emptyResult, st, w)
  | Some EmptyString => (emptyResult, st, w)       (* [!currentInstanceId] *)
  | Some currentInstanceId =>
      (* Step 1: kill by PID (registry-based) *)
      let orphanEntries := getOrphanProcesses st in
      let (result1, w1) := fold_left killByPid orphanEntries (emptyResult, w) in
      (* Step 2: scan by args (fallback); a failed scan is only logged *)
      let (scan, w2) := findByArgs platformOps HALO_MANAGED_FLAG w1 in
      let (result2, w3) :=
        match scan with
        | Ok haloProcesses =>
            fold_left (killByArgs currentInstanceId) haloProcesses (result1, w2)
        | Throw _ => (result1, w2)
        end in
      (* Step 3: clean up registry entries *)
      (result2, clearOrphanEntries st, w3)
  end.

(** Nothing is left to clean in world [w]: the args scan finds no live
    process of another instance (or finds nothing at all). *)
Definition nothingToScan (currentInstanceId : string) (w : World) : bool :=
  let (scan, w') := findByArgs platformOps HALO_MANAGED_FLAG w in
  match scan with
  | Ok haloProcesses =>
      forallb (fun proc =>
                 includes (commandLine proc) (HALO_INSTANCE_PREFIX ++ currentInstanceId)
                 || negb (isProcessAlive platformOps (pi_pid proc) w'))
              haloProcesses
  | Throw _ => true
  end.

End WithOps.

(** [[a-f0-9-]] *)
Definition isInstanceIdChar (c : ascii) : bool :=
  let n := nat_of_ascii c in
  ((97 <=? n) && (n <=? 102) || (48 <=? n) && (n <=? 57) || (n =? 45))%nat.

(** The longest run of such characters at the start of [s] (the greedy
    [+] of the pattern). *)
Fixpoint idRun (s : string) : string :=
  match s with
  | String c rest => if isInstanceIdChar c then String c (idRun rest) else EmptyString
  | EmptyString => EmptyString
  end.

(** What follows [p] in [s], when [s] starts with [p]. *)
Fixpoint afterPrefix (p s : string) : option string :=
  match p, s with
  | EmptyString, _ => Some s
  | String a p', String b s' => if Ascii.eqb a b then afterPrefix p' s' else None
  | String _ _, EmptyString => None
  end.

(** The pattern [halo-instance=([a-f0-9-]+)] tried at the start of [s]:
    the captured group. *)
Definition matchHere (s : string) : option string :=
  match afterPrefix HALO_INSTANCE_PREFIX s with
  | Some rest =>
      match idRun rest with
      | EmptyString => None
      | run => Some run
      end
  | None => None
  end.

(** [commandLine.match(new RegExp(`${HALO_INSTANCE_PREFIX}([a-f0-9-]+)`))]:
    group 1 of the leftmost match, [None] for no match. *)
Fixpoint matchInstance (commandLine : string) : option string :=
  match matchHere commandLine with
  | Some run => Some run
  | None =>
      match commandLine with
      | String _ rest => matchInstance rest
      | EmptyString => None
      end
  end.

Record RunningHaloProcess : Type := mkRunningHaloProcess {
  rp_pid : Z;                        (* field [pid] *)
  rp_instanceId : option string;     (* field [instanceId], [None] for [null] *)
  rp_commandLine : string            (* field [commandLine] *)
}.

(** [a !== b] on values that are a string or [null] *)
Definition differs (a b : option string) : bool :=
  match a, b with
  | Some x, Some y => negb (String.eqb x y)
  | None, None => false
  | _, _ => true
  end.

Section Verification.
Context {World : Type} (platformOps : PlatformProcessOps World).

(** [forceKillProcess(pid)] *)
Definition forceKillProcess (p : Z) (w : World) : bool * World :=
  if negb (isProcessAlive platformOps p w) then (true, w)    (* already dead *)
  else
    let (r, w') := killProcess platformOps p "SIGKILL" w in
    match r with
    | Ok _ => (true, w')
    | Throw _ => (false, w')
    end.

(** [isHaloManagedProcess(pid)] *)
Definition isHaloManagedProcess (p : Z) (w : World) : bool * World :=
  let (scan, w') := findByArgs platformOps HALO_MANAGED_FLAG w in
  match scan with
  | Ok processes => (existsb (fun proc => (pi_pid proc =? p)%Z) processes, w')
  | Throw _ => (false, w')
  end.

(** [getRunningHaloProcesses()] *)
Definition getRunningHaloProcesses (w : World) : list RunningHaloProcess * World :=
  let (scan, w') := findByArgs platformOps HALO_MANAGED_FLAG w in
  match scan with
  | Ok processes =>
      (map (fun proc =>
              {| rp_pid := pi_pid proc;
                 rp_instanceId := matchInstance (commandLine proc);
                 rp_commandLine := commandLine proc |}) processes, w')
  | Throw _ => ([], w')
  end.

(** [verifyCleanup()] *)
Definition verifyCleanup (st : Registry.State) (w : World) : bool * World :=
  let currentInstanceId := getCurrentInstanceId st in
  let (runningProcesses, w') := getRunningHaloProcesses w in
  let orphansRemaining :=
    filter (fun p => differs (rp_instanceId p) currentInstanceId) runningProcesses in
  (if (0 <? length orphansRemaining)%nat then false else true, w').

End Verification.

(** The platform with its [killProcess] calls written down, most recent
    first; nothing else changes. *)
Definition recording {World : Type} (ops : PlatformProcessOps World)
  : PlatformProcessOps (World * list (Z * string)) :=
  {| findByArgs := fun pattern wl =>
       let (r, w') := findByArgs ops pattern (fst wl) in (r, (w', snd wl));
     killProcess := fun pid signal wl =>
       let (r, w') := killProcess ops pid signal (fst wl) in
       (r, (w', (pid, signal) :: snd wl));
     isProcessAlive := fun pid wl => isProcessAlive ops pid (fst wl);
     findChildProcesses := fun ppid wl =>
       let (r, w') := findChildProcesses ops ppid (fst wl) in (r, (w', snd wl)) |}.

(** What the args scan of [cleanupOrphans] returns: it runs in the world
    that step 1 leaves behind. A failed scan lists nothing. *)
Definition argsScan {World : Type} (ops : PlatformProcessOps World)
    (st : Registry.State) (w : World) : list ProcessInfo :=
  let w1 := snd (fold_left (killByPid ops) (getOrphanProcesses st) (emptyResult, w)) in
  match fst (findByArgs ops HALO_MANAGED_FLAG w1) with
  | Ok haloProcesses => haloProcesses
  | Throw _ => []
  end.

(** The bookkeeping of a pass, with the kills written down in [log]. *)
Definition tallied (P : Z -> Prop) (result : CleanupResult) (log : list (Z * string))
  : Prop :=
  length log = cleaned result + failed result
  /\ cleaned result = length (details result)
  /\ (forall d, In d (details result) -> In (cd_pid d, "SIGTERM") log)
  /\ (forall p sig, In (p, sig) log -> sig = "SIGTERM" /\ P p).

(** A small concrete system for examples. A process is alive as long as it
    is in the list; [killProcess] removes a killable one and fails on the
    others. *)
Record Proc : Type := mkProc { p_pid : Z; p_cmd : string; p_killable : bool }.

Definition demoOps : PlatformProcessOps (list Proc) :=
  {| findByArgs := fun pattern w =>
       (Ok (map (fun p => mkProcessInfo (p_pid p) (p_cmd p) "node")
                (filter (fun p => includes (p_cmd p) pattern) w)), w);
     killProcess := fun pid signal w =>
       if existsb (fun p => (p_pid p =? pid)%Z && negb (p_killable p)) w
       then (Throw (mkError ("Failed to terminate process " ++ show_Z pid)), w)
       else (Ok tt, filter (fun p => negb (p_pid p =? pid)%Z) w);
     isProcessAlive := fun pid w => existsb (fun p => (p_pid p =? pid)%Z) w;
     findChildProcesses := fun ppid w => (Ok [], w) |}.

Definition demoRegistry : Registry.State :=
  {| currentInstanceId := Some "run-2";
     processes :=
       [ mkProcessEntry "c1" (Some 1234%Z) v2_session "run-1" 10%Z;
         mkProcessEntry "c2" (Some 1235%Z) tunnel "run-1" 11%Z;
         mkProcessEntry "c3" (Some 2000%Z) v2_session "run-2" 20%Z ] |}.

(** Pid 1234 is a stubborn process of the previous run without the
    management flag; pid 1235 can be killed. *)
Definition demoWorld : list Proc :=
  [ mkProc 1234%Z "claude --resume" false;
    mkProc 1235%Z "cloudflared tunnel --halo-managed --halo-instance=run-1" true;
    mkProc 2000%Z "node cli.js --halo-managed --halo-instance=run-2" true ].

(** A system after a clean pass: only a process of the running instance
    is left. *)
Definition verifiedRegistry : Registry.State :=
  {| currentInstanceId := Some "3f2a-77b1"; processes := [] |}.

Definition verifiedWorld : list Proc :=
  [ mkProc 2000%Z "node cli.js --halo-managed --halo-instance=3f2a-77b1" true ].

End Cleaner.

(* ------------------------------------------------------------------ *)
(** ** [health-checker/runtime-checker.ts]: the active immediate check *)

Module RuntimeChecker.
Import Js Types Platform Registry.

Definition MEMORY_WARNING_THRESHOLD_MB : Z := 500.
Definition MIN_CHECK_INTERVAL_MS : Z := 2000.

Record ProcessCheckStatus : Type := mkProcessCheckStatus {
  expected : nat;
  actual : nat;
  pids : list Z;
  pcs_healthy : bool                (* field [healthy] *)
}.

Record ServiceCheckStatus : Type := mkServiceCheckStatus {
  port : option Z;
  responsive : bool;
  svc_responseTime : option Z;      (* field [responseTime] *)
  svc_error : option string         (* field [error] *)
}.

Record RegistryCleanup : Type := mkRegistryCleanup {
  removed : nat;
  orphans : nat
}.

Record ImmediateCheckResult : Type := mkImmediateCheckResult {
  timestamp : Z;
  claude : ProcessCheckStatus;
  cloudflared : ProcessCheckStatus;
  openaiRouter : ServiceCheckStatus;
  httpServer : ServiceCheckStatus;
  issues : list string;
  healthy : bool;
  registryCleanup : RegistryCleanup
}.

(** Everything one run of [doImmediateCheck] reads from outside the
    registry. *)
Record Env (World : Type) : Type := mkEnv {
  platformOps : PlatformProcessOps World;
  mainPid : Z;                                  (* [process.pid] *)
  getRouterInfo : option Z;                     (* the router's port, or [null] *)
  checkOpenAIRouter : Z -> result ProbeResult;  (* what [await] gives *)
  serverRunning : bool;                         (* [getServerInfo().running] *)
  serverPort : Z;                               (* [getServerInfo().port] *)
  checkHttpServer : Z -> result ProbeResult;
  heapUsed : Z                                  (* bytes *)
}.
Arguments platformOps {World} _.
Arguments mainPid {World} _.
Arguments getRouterInfo {World} _.
Arguments checkOpenAIRouter {World} _ _.
Arguments serverRunning {World} _.
Arguments serverPort {World} _.
Arguments checkHttpServer {World} _ _.
Arguments heapUsed {World} _.

(** [array.includes(pid)] on numbers *)
Definition includesPid (l : list Z) (p : Z) : bool := existsb (Z.eqb p) l.

(** [children.filter(p => p.name === a || p.name === b).map(p => p.pid)] *)
Definition pidsNamed (a b : string) (children : list ChildProcessInfo) : list Z :=
  map cp_pid
    (filter (fun p => String.eqb (cp_name p) a || String.eqb (cp_name p) b) children).

Definition ofType (t : ProcessType) (entries : list ProcessEntry) : list ProcessEntry :=
  filter (fun p => ProcessType_eqb (type p) t) entries.

(** Body of a "find dead processes" loop: an entry with a pid that was not
    seen by the scan is unregistered and counted. *)
Definition reapDead (t : ProcessType) (live : list Z) (acc : Registry.State * nat)
    (entry : ProcessEntry) : Registry.State * nat :=
  let (st, registryRemoved) := acc in
  match pid entry with
  | Some p =>
      if pidTruthy (Some p) && negb (includesPid live p)
      then (unregisterProcess (id entry) t st, S registryRemoved)
      else acc
  | None => acc
  end.

(** [entries.map(p => p.pid).filter(Boolean)] *)
Fixpoint truthyPids (entries : list ProcessEntry) : list Z :=
  match entries with
  | [] => []
  | e :: rest =>
      match pid e with
      | Some p => if pidTruthy (Some p) then p :: truthyPids rest else truthyPids rest
      | None => truthyPids rest
      end
  end.

(** Body of a "find orphan processes" loop, counted over the whole list. *)
Definition countOrphans (live registered : list Z) : nat :=
  length (filter (fun p => negb (includesPid registered p)) live).

(** [`${x || 'unknown'}`] for an optional string *)
Definition orUnknown (e : option string) : string :=
  match e with
  | Some EmptyString => "unknown"
  | Some m => m
  | None => "unknown"
  end.

Definition probeResponseTime (probe : ProbeResult) : option Z :=
  match data probe with
  | Some (ServiceData d) => responseTime d
  | _ => None
  end.

Definition probeError (probe : ProbeResult) : option string :=
  match data probe with
  | Some (ServiceData d) => error d
  | _ => None
  end.

Definition notChecked : ServiceCheckStatus :=
  {| port := None; responsive := false; svc_responseTime := None; svc_error := None |}.

(** One "check HTTP service" block of step 4, for a service that is
    running on [p]: the status it fills in and the issues it pushes. *)
Definition checkService (label : string) (p : Z) (probe : result ProbeResult)
  : ServiceCheckStatus * list string :=
  match probe with
  | Ok pr =>
      ({| port := Some p; responsive := probe_healthy pr;
          svc_responseTime := probeResponseTime pr; svc_error := probeError pr |},
       if probe_healthy pr then []
       else [label ++ " not responding: " ++ orUnknown (probeError pr)])
  | Throw e =>
      ({| port := Some p; responsive := false;
          svc_responseTime := None; svc_error := Some (message e) |},
       [label ++ " check failed: " ++ message e])
  end.

(** [heapUsedMB.toFixed(0)] where [heapUsedMB = heapUsed / (1024 * 1024)]:
    the nearest integer, halves rounded up. *)
Definition heapMB_toFixed0 (heapUsed : Z) : string :=
  show_Z ((heapUsed + 524288) / 1048576).

(** [heapUsedMB > MEMORY_WARNING_THRESHOLD_MB] *)
Definition memoryHigh (heapUsed : Z) : bool :=
  (MEMORY_WARNING_THRESHOLD_MB * 1048576 <? heapUsed)%Z.

Section Check.
Context {World : Type} (env : Env World).

(** The body of [doImmediateCheck] between [try] and [finally]; [timestamp]
    is the [Date.now()] taken on entry. *)
Definition doImmediateCheck (timestamp : Z) (st : Registry.State) (w : World)
  : ImmediateCheckResult * Registry.State * World :=
  (* Step 1: PPID scan *)
  let (scan, w1) := findChildProcesses (platformOps env) (mainPid env) w in
  let claudeProcesses :=
    match scan with
    | Ok children => pidsNamed "claude" "claude.exe" children
    | Throw _ => []
    end in
  let cloudflaredProcesses :=
    match scan with
    | Ok children => pidsNamed "cloudflared" "cloudflared.exe" children
    | Throw _ => []
    end in
  let issues0 := match scan with Ok _ => [] | Throw _ => ["PPID scan failed"] end in
  (* Step 2: read registry *)
  let registeredProcesses := getCurrentProcesses st in
  let registeredClaude := ofType v2_session registeredProcesses in
  let registeredCloudflared := ofType tunnel registeredProcesses in
  (* Step 3: reconcile *)
  let acc1 := fold_left (reapDead v2_session claudeProcesses) registeredClaude (st, 0) in
  let (st', registryRemoved) :=
    fold_left (reapDead tunnel cloudflaredProcesses) registeredCloudflared acc1 in
  let orphansFound :=
    countOrphans claudeProcesses (truthyPids registeredClaude)
    + countOrphans cloudflaredProcesses (truthyPids registeredCloudflared) in
  let issues1 :=
    if (0 <? registryRemoved)%nat
    then ["Cleaned " ++ show_nat registryRemoved ++ " dead process entries"] else [] in
  let issues2 :=
    if (0 <? orphansFound)%nat
    then [show_nat orphansFound ++ " orphan processes detected"] else [] in
  (* Step 4: check HTTP services *)
  let (routerStatus, issues3) :=
    match getRouterInfo env with
    | Some p => checkService "OpenAI Router" p (checkOpenAIRouter env p)
    | None => (notChecked, [])
    end in
  let (httpServerStatus, issues4) :=
    if serverRunning env
    then checkService "HTTP Server" (serverPort env) (checkHttpServer env (serverPort env))
    else (notChecked, []) in
  (* Step 6: memory check *)
  let issues5 :=
    if memoryHigh (heapUsed env)
    then ["High memory usage: " ++ heapMB_toFixed0 (heapUsed env) ++ "MB"] else [] in
  let issues := (issues0 ++ issues1 ++ issues2 ++ issues3 ++ issues4 ++ issues5)%list in
  (* Step 7: build result *)
  let updatedRegistered := getCurrentProcesses st' in
  let updatedClaudeCount := length (ofType v2_session updatedRegistered) in
  let updatedCloudflaredCount := length (ofType tunnel updatedRegistered) in
  let hasServiceIssues :=
    (match getRouterInfo env with Some _ => true | None => false end
     && negb (responsive routerStatus))
    || (serverRunning env && negb (responsive httpServerStatus)) in
  let healthy :=
    (length issues =? 0)%nat
    || ((0 <? registryRemoved)%nat && (length issues =? 1)%nat && negb hasServiceIssues) in
  ({| timestamp := timestamp;
      claude := {| expected := updatedClaudeCount;
                   actual := length claudeProcesses;
                   pids := claudeProcesses;
                   pcs_healthy := (updatedClaudeCount =? length claudeProcesses)%nat |};
      cloudflared := {| expected := updatedCloudflaredCount;
                        actual := length cloudflaredProcesses;
                        pids := cloudflaredProcesses;
                        pcs_healthy :=
                          (updatedCloudflaredCount =? length cloudflaredProcesses)%nat |};
      openaiRouter := routerStatus;
      httpServer := httpServerStatus;
      issues := issues;
      healthy := healthy;
      registryCleanup := {| removed := registryRemoved; orphans := orphansFound |} |},
   st', w1).

(** What the scan saw for a process type; nothing when the scan failed. *)
Definition scanned (scan : result (list ChildProcessInfo)) (t : ProcessType) : list Z :=
  match scan, t with
  | Ok children, v2_session => pidsNamed "claude" "claude.exe" children
  | Ok children, tunnel => pidsNamed "cloudflared" "cloudflared.exe" children
  | Throw _, _ => []
  end.

(** A registry entry is dead when it has a pid and the scan did not see a
    process of its kind with that pid. *)
Definition deadIn (live : list Z) (entry : ProcessEntry) : bool :=
  match pid entry with
  | Some p => pidTruthy (Some p) && negb (includesPid live p)
  | None => false
  end.

Definition isDead (scan : result (list ChildProcessInfo)) (entry : ProcessEntry) : bool :=
  deadIn (scanned scan (type entry)) entry.

(** The scan saw no process that the registry does not know. *)
Definition noOrphans (scan : result (list ChildProcessInfo)) (st : Registry.State) : bool :=
  forallb
    (fun t =>
       (countOrphans (scanned scan t) (truthyPids (ofType t (getCurrentProcesses st)))
        =? 0)%nat)
    [v2_session; tunnel].

(** [hasServiceIssues], read back from the snapshot: a service that is
    running and did not respond. *)
Definition serviceFailure (r : ImmediateCheckResult) : bool :=
  (match getRouterInfo env with Some _ => true | None => false end
   && negb (responsive (openaiRouter r)))
  || (serverRunning env && negb (responsive (httpServer r))).

(** Both services are either not running or answer their probe, and the
    heap is below the warning threshold. *)
Definition servicesQuiet : bool :=
  match getRouterInfo env with
  | Some p => match checkOpenAIRouter env p with
              | Ok pr => probe_healthy pr
              | Throw _ => false
              end
  | None => true
  end
  && (if serverRunning env
      then match checkHttpServer env (serverPort env) with
           | Ok pr => probe_healthy pr
           | Throw _ => false
           end
      else true)
  && negb (memoryHigh (heapUsed env)).

End Check.

(** *** The fallback poller's timer

    [pollIntervalId] is the timer handle, [null] while no poller runs. *)
Definition startFallbackPolling (timer : nat) (pollIntervalId : option nat) : option nat :=
  match pollIntervalId with
  | Some t => Some t                 (* already running *)
  | None => Some timer
  end.

Definition stopFallbackPolling (pollIntervalId : option nat) : option nat := None.

Definition isPollingActive (pollIntervalId : option nat) : bool :=
  match pollIntervalId with Some _ => true | None => false end.

(** A small concrete system for examples: the scan reports [children], the
    router answers on port 3456, the HTTP server is off and the heap holds
    200 MB. *)
Definition demoOps (children : list ChildProcessInfo) : PlatformProcessOps unit :=
  {| findByArgs := fun _ w => (Ok [], w);
     killProcess := fun _ _ w => (Ok tt, w);
     isProcessAlive := fun p _ => existsb (fun c => (cp_pid c =? p)%Z) children;
     findChildProcesses := fun _ w => (Ok children, w) |}.

Definition demoEnv (children : list ChildProcessInfo) : Env unit :=
  {| platformOps := demoOps children;
     mainPid := 4000%Z;
     getRouterInfo := Some 3456%Z;
     checkOpenAIRouter := fun _ =>
       Ok (mkProbeResult "openai-router" true info "Router is responding" 5000%Z
             (Some (ServiceData (mkServiceProbeData (Some 12%Z) None))));
     serverRunning := false;
     serverPort := 0%Z;
     checkHttpServer := fun _ => Throw (mkError "not running");
     heapUsed := (200 * 1048576)%Z |}.

(** The same system when the scan itself fails. *)
Definition brokenScanEnv : Env unit :=
  {| platformOps :=
       {| findByArgs := fun _ w => (Ok [], w);
          killProcess := fun _ _ w => (Ok tt, w);
          isProcessAlive := fun _ _ => false;
          findChildProcesses := fun _ w => (Throw (mkError "spawn ps ENOENT"), w) |};
     mainPid := 4000%Z;
     getRouterInfo := None;
     checkOpenAIRouter := fun _ => Throw (mkError "not running");
     serverRunning := false;
     serverPort := 0%Z;
     checkHttpServer := fun _ => Throw (mkError "not running");
     heapUsed := (200 * 1048576)%Z |}.

Definition c1 : ProcessEntry := mkProcessEntry "c1" (Some 1234%Z) v2_session "run-2" 10%Z.

Definition demoRegistry : Registry.State :=
  {| currentInstanceId := Some "run-2"; processes := [c1] |}.

(** *** The single-flight guard of [runImmediateCheck] *)

(** The module-level variables. The promise of a [doImmediateCheck]
    execution is known by the number of that execution; [scansStarted]
    counts the executions. [callsMade] counts the calls of
    [runImmediateCheck], each of which makes a promise of its own. *)
Record CheckerState : Type := mkCheckerState {
  isCheckRunning : bool;
  lastCheckTime : option Z;
  lastCheckPromise : option nat;
  scansStarted : nat;
  callsMade : nat
}.

Definition initial : CheckerState :=
  {| isCheckRunning := false; lastCheckTime := None;
     lastCheckPromise := None; scansStarted := 0; callsMade := 0 |}.

(** What a call of the [async function runImmediateCheck] hands to its
    caller: a new promise ([promiseOf]: the number of the call), which
    settles as the promise that the body returns, that is with the result
    object of one execution of [doImmediateCheck] ([resultOf]: the number
    of that execution). *)
Record Returned : Type := mkReturned {
  promiseOf : nat;
  resultOf : nat
}.

(** The part of [doImmediateCheck] that runs before its first [await]. *)
Definition doImmediateCheck_begin (timestamp : Z) (s : CheckerState)
  : nat * CheckerState :=
  (scansStarted s,
   {| isCheckRunning := true;
      lastCheckTime := Some timestamp;
      lastCheckPromise := lastCheckPromise s;
      scansStarted := S (scansStarted s);
      callsMade := callsMade s |}).

(** The [finally] block, run when the check completes. *)
Definition doImmediateCheck_end (s : CheckerState) : CheckerState :=
  {| isCheckRunning := false;
     lastCheckTime := lastCheckTime s;
     lastCheckPromise := lastCheckPromise s;
     scansStarted := scansStarted s;
     callsMade := callsMade s |}.

(** The two guards: the promise that is handed out again, if any. *)
Definition shared (now : Z) (s : CheckerState) : option nat :=
  match lastCheckPromise s with
  | Some p =>
      if pidTruthy (lastCheckTime s)
         && match lastCheckTime s with
            | Some t => (now - t <? MIN_CHECK_INTERVAL_MS)%Z
            | None => false
            end
      then Some p                                   (* debounced *)
      else if isCheckRunning s then Some p          (* already running *)
      else None
  | None => None
  end.

(** The call is counted: its promise is made. *)
Definition called (s : CheckerState) : CheckerState :=
  {| isCheckRunning := isCheckRunning s;
     lastCheckTime := lastCheckTime s;
     lastCheckPromise := lastCheckPromise s;
     scansStarted := scansStarted s;
     callsMade := S (callsMade s) |}.

(** [runImmediateCheck()]: [now] is its own [Date.now()], [timestamp] the
    one [doImmediateCheck] takes if it is started. What the caller gets,
    and the new module state. *)
Definition runImmediateCheck (now timestamp : Z) (s : CheckerState)
  : Returned * CheckerState :=
  match shared now s with
  | Some p => ({| promiseOf := callsMade s; resultOf := p |}, called s)
  | None =>
      let (p, s') := doImmediateCheck_begin timestamp s in
      ({| promiseOf := callsMade s; resultOf := p |},
       called {| isCheckRunning := isCheckRunning s';
                 lastCheckTime := lastCheckTime s';
                 lastCheckPromise := Some p;
                 scansStarted := scansStarted s';
                 callsMade := callsMade s' |})
  end.

(** The entries of the current instance that carry a pid. *)
Definition withPid (st : Registry.State) : list ProcessEntry :=
  filter (fun e => pidTruthy (pid e)) (getCurrentProcesses st).

(** *** The event-driven scan: [runPpidScanAndCleanup] *)

Section Scan.
Context {World : Type} (env : Env World).

(** [runPpidScanAndCleanup()]: the whole body is one [try]; when the scan
    throws nothing has been counted or removed yet. *)
Definition runPpidScanAndCleanup (st : Registry.State) (w : World)
  : RegistryCleanup * Registry.State * World :=
  let (scan, w1) := findChildProcesses (platformOps env) (mainPid env) w in
  match scan with
  | Throw _ => ({| removed := 0; orphans := 0 |}, st, w1)
  | Ok childProcesses =>
      let claudeProcesses := pidsNamed "claude" "claude.exe" childProcesses in
      let cloudflaredProcesses :=
        pidsNamed "cloudflared" "cloudflared.exe" childProcesses in
      (* Read registry and reconcile *)
      let registeredProcesses := getCurrentProcesses st in
      let registeredClaude := ofType v2_session registeredProcesses in
      let registeredCloudflared := ofType tunnel registeredProcesses in
      (* Clean dead processes from registry *)
      let acc1 :=
        fold_left (reapDead v2_session claudeProcesses) registeredClaude (st, 0) in
      let (st', removed) :=
        fold_left (reapDead tunnel cloudflaredProcesses) registeredCloudflared acc1 in
      (* Count orphans *)
      let orphans :=
        countOrphans claudeProcesses (truthyPids registeredClaude)
        + countOrphans cloudflaredProcesses (truthyPids registeredCloudflared) in
      ({| removed := removed; orphans := orphans |}, st', w1)
  end.

End Scan.

End RuntimeChecker.

(* ------------------------------------------------------------------ *)
(** ** [services/health/orchestrator.ts] *)

Module Orchestrator.
Import Js Types.

(** [HealthEvent], with [type] and [category] the strings the shared type
    declaration gives them. *)
Record HealthEvent : Type := mkHealthEvent {
  ev_type : string;                 (* field [type] *)
  category : string;
  ev_timestamp : Z;                 (* field [timestamp] *)
  source : string;
  ev_message : string               (* field [message] *)
}.

Record HealthSystemState : Type := mkHealthSystemState {
  status : HealthStatus;
  instanceId : string;
  startedAt : Z;
  consecutiveFailures : nat;
  recoveryAttempts : nat;
  isPollingActive : bool;
  isEnabled : bool;
  recentEvents : list HealthEvent
}.

Inductive Strategy : Type := S1 | S2 | S3 | S4.

(** What the orchestrator does to the world outside its own variables: the
    calls into the recovery manager, the renderer and the process guardian.
    [MarkInstanceStart] and [MarkCleanExit] are the only ones that write a
    file (the instance marker). *)
Inductive Effect : Type :=
| UpdateErrorCount (n : nat)
| SelectRecoveryStrategy (n : nat) (source : string)
| CanRecover
| ExecuteRecovery (strategyId : Strategy) (userConsented : bool)
| ExecuteRecoveryWithUI (strategyId : Strategy) (errorMessage : string)
| SendToRenderer (status previousStatus : HealthStatus) (reason : string)
| StopFallbackPolling
| MarkInstanceStart
| MarkCleanExit.

Definition writesFile (e : Effect) : bool :=
  match e with
  | MarkInstanceStart | MarkCleanExit => true
  | _ => false
  end.

(** The module-level variables of the orchestrator, the poller's timer
    handle it controls through [stopFallbackPolling], and the calls made so
    far (most recent first). *)
Record State : Type := mkState {
  systemState : HealthSystemState;
  selfFailures : nat;
  pollIntervalId : option nat;
  effects : list Effect
}.

Definition MAX_SELF_FAILURES : nat := 5.

(** The collaborators that are imported from other modules, as they answer
    during one step: each call may throw. *)
Record Collaborators : Type := mkCollaborators {
  updateErrorCount : nat -> attempt unit;
  selectRecoveryStrategy : nat -> string -> attempt (option Strategy);
  canRecover : attempt bool;
  sendToRenderer : HealthStatus -> HealthStatus -> string -> attempt unit
}.

(** *** State and exceptions: a computation may change the state and then
    throw; the changes made before the throw stay. *)
Definition M (A : Type) : Type := State -> attempt A * State.

Definition ret {A : Type} (a : A) : M A := fun s => (Ok a, s).

Definition bindM {A B : Type} (m : M A) (k : A -> M B) : M B :=
  fun s => match m s with
           | (Ok a, s') => k a s'
           | (Throw e, s') => (Throw e, s')
           end.

Definition gets {A : Type} (f : HealthSystemState -> A) : M A :=
  fun s => (Ok (f (systemState s)), s).

Definition update (f : HealthSystemState -> HealthSystemState) : M unit :=
  fun s => (Ok tt, {| systemState := f (systemState s);
                      selfFailures := selfFailures s;
                      pollIntervalId := pollIntervalId s;
                      effects := effects s |}).

(** A call to a collaborator: it is recorded, and its answer (or throw) is
    what the collaborator gives. *)
Definition call {A : Type} (e : Effect) (answer : attempt A) : M A :=
  fun s => (answer, {| systemState := systemState s;
                       selfFailures := selfFailures s;
                       pollIntervalId := pollIntervalId s;
                       effects := e :: effects s |}).

Definition when (b : bool) (m : M unit) : M unit := if b then m else ret tt.

Notation "x <- m ;; k" := (bindM m (fun x => k))
  (at level 61, m at next level, right associativity).
Notation "m ;; k" := (bindM m (fun _ => k))
  (at level 61, right associativity).

(** Field updates of [systemState]. *)
Definition set_status (v : HealthStatus) (st : HealthSystemState) : HealthSystemState :=
  {| status := v; instanceId := instanceId st; startedAt := startedAt st;
     consecutiveFailures := consecutiveFailures st;
     recoveryAttempts := recoveryAttempts st; isPollingActive := isPollingActive st;
     isEnabled := isEnabled st; recentEvents := recentEvents st |}.

Definition set_consecutiveFailures (v : nat) (st : HealthSystemState) : HealthSystemState :=
  {| status := status st; instanceId := instanceId st; startedAt := startedAt st;
     consecutiveFailures := v;
     recoveryAttempts := recoveryAttempts st; isPollingActive := isPollingActive st;
     isEnabled := isEnabled st; recentEvents := recentEvents st |}.

Definition set_recoveryAttempts (v : nat) (st : HealthSystemState) : HealthSystemState :=
  {| status := status st; instanceId := instanceId st; startedAt := startedAt st;
     consecutiveFailures := consecutiveFailures st;
     recoveryAttempts := v; isPollingActive := isPollingActive st;
     isEnabled := isEnabled st; recentEvents := recentEvents st |}.

Definition set_isEnabled (v : bool) (st : HealthSystemState) : HealthSystemState :=
  {| status := status st; instanceId := instanceId st; startedAt := startedAt st;
     consecutiveFailures := consecutiveFailures st;
     recoveryAttempts := recoveryAttempts st; isPollingActive := isPollingActive st;
     isEnabled := v; recentEvents := recentEvents st |}.

Definition set_recentEvents (v : list HealthEvent) (st : HealthSystemState)
  : HealthSystemState :=
  {| status := status st; instanceId := instanceId st; startedAt := startedAt st;
     consecutiveFailures := consecutiveFailures st;
     recoveryAttempts := recoveryAttempts st; isPollingActive := isPollingActive st;
     isEnabled := isEnabled st; recentEvents := v |}.

(** [recentEvents.unshift(event); if (recentEvents.length > 50) recentEvents.pop()] *)
Definition pushRecent (event : HealthEvent) (events : list HealthEvent)
  : list HealthEvent :=
  let events' := event :: events in
  if (50 <? length events')%nat then removelast events' else events'.

(** [disableHealthSystem()] *)
Definition disableHealthSystem (s : State) : State :=
  {| systemState := set_isEnabled false (systemState s);
     selfFailures := selfFailures s;
     pollIntervalId := RuntimeChecker.stopFallbackPolling (pollIntervalId s);
     effects := StopFallbackPolling :: effects s |}.

(** [handleSelfError(error)]: the failure is counted, then [error.message]
    is read for the log, a [TypeError] when what was thrown is [null] or
    [undefined], and only after that is the threshold tested. *)
Definition handleSelfError (error : Thrown) : M unit :=
  fun s =>
    let s' := {| systemState := systemState s;
                 selfFailures := S (selfFailures s);
                 pollIntervalId := pollIntervalId s;
                 effects := effects s |} in
    match messageOf error with
    | Throw typeError => (Throw (AnError typeError), s')
    | Ok _ =>
        (Ok tt,
         if (MAX_SELF_FAILURES <=? selfFailures s')%nat
         then disableHealthSystem s' else s')
    end.

Section WithCollaborators.
Context (c : Collaborators).

(** [handleStatusChange(status, message)] *)
Definition handleStatusChange (newStatus : HealthStatus) (message : string) : M unit :=
  previousStatus <- gets status ;;
  when (negb (HealthStatus_eqb newStatus previousStatus))
    (update (set_status newStatus) ;;
     call (SendToRenderer newStatus previousStatus message)
          (sendToRenderer c newStatus previousStatus message)).

(** [updateStatus(event)] *)
Definition updateStatus (event : HealthEvent) : M unit :=
  current <- gets status ;;
  let newStatus :=
    if String.eqb (category event) "critical" then unhealthy
    else if String.eqb (category event) "warning" && HealthStatus_eqb current healthy
         then degraded
         else current in
  when (negb (HealthStatus_eqb newStatus current))
    (handleStatusChange newStatus (ev_message event)).

(** The part of [attemptRecovery] / [attemptRecoveryWithUI] that runs
    before the [await]: the attempt is counted and the recovery manager is
    called. Both functions catch everything themselves. *)
Definition attemptRecovery (strategyId : Strategy) : M unit :=
  n <- gets recoveryAttempts ;;
  update (set_recoveryAttempts (S n)) ;;
  call (ExecuteRecovery strategyId false) (Ok tt).

Definition attemptRecoveryWithUI (strategyId : Strategy) (errorMessage : string) : M unit :=
  n <- gets recoveryAttempts ;;
  update (set_recoveryAttempts (S n)) ;;
  call (ExecuteRecoveryWithUI strategyId errorMessage) (Ok tt).

(** The [try] block of [handleHealthEvent]. *)
Definition handleHealthEvent_try (event : HealthEvent) : M unit :=
  (* Update recent events *)
  events <- gets recentEvents ;;
  update (set_recentEvents (pushRecent event events)) ;;
  (* Handle info events - reset consecutive failures on success *)
  when (String.eqb (category event) "info")
    (when (String.eqb (ev_type event) "recovery_success"
           || String.eqb (ev_type event) "startup_check")
       (update (set_consecutiveFailures 0) ;;
        call (UpdateErrorCount 0) (updateErrorCount c 0) ;;
        update (set_status healthy))) ;;
  (* Handle critical events *)
  when (String.eqb (category event) "critical")
    (n <- gets consecutiveFailures ;;
     update (set_consecutiveFailures (S n)) ;;
     call (UpdateErrorCount (S n)) (updateErrorCount c (S n)) ;;
     strategyId <- call (SelectRecoveryStrategy (S n) (source event))
                        (selectRecoveryStrategy c (S n) (source event)) ;;
     match strategyId with
     | None => ret tt
     | Some strategy =>
         can <- call CanRecover (canRecover c) ;;
         when can
           match strategy with
           | S1 | S2 => attemptRecovery strategy
           | S3 | S4 => attemptRecoveryWithUI strategy (ev_message event)
           end
     end) ;;
  (* Update status *)
  updateStatus event.

(** [handleHealthEvent(event)]: the state it leaves. What [handleSelfError]
    throws leaves the function with it, to the caller (see [leaks]). *)
Definition handleHealthEvent (event : HealthEvent) (s : State) : State :=
  if negb (isEnabled (systemState s)) then s    (* self-protection *)
  else
    match handleHealthEvent_try event s with
    | (Ok _, s') => s'
    | (Throw error, s') => snd (handleSelfError error s')
    end.

(** Handling [event] in state [s] raises an exception inside the
    orchestrator (and so reaches [handleSelfError]). *)
Definition raises (event : HealthEvent) (s : State) : bool :=
  isEnabled (systemState s) && is_throw (fst (handleHealthEvent_try event s)).

(** The value of that exception. *)
Definition thrown (event : HealthEvent) (s : State) : option Thrown :=
  if isEnabled (systemState s)
  then match fst (handleHealthEvent_try event s) with
       | Throw error => Some error
       | Ok _ => None
       end
  else None.

(** An exception leaves [handleHealthEvent]: the one [handleSelfError]
    raises itself. *)
Definition leaks (event : HealthEvent) (s : State) : bool :=
  match thrown event s with
  | Some error => is_throw (fst (handleSelfError error s))
  | None => false
  end.

(** The rest of [attemptRecovery] / [attemptRecoveryWithUI], run when the
    recovery promise settles with [outcome] ([Ok success] or a rejection);
    an exception in it is caught and logged. *)
Definition recoveryCompleted (outcome : attempt bool) (s : State) : State :=
  match outcome with
  | Ok true =>
      snd ((update (set_consecutiveFailures 0) ;;
            call (UpdateErrorCount 0) (updateErrorCount c 0) ;;
            update (set_status healthy)) s)
  | _ => s
  end.

(** The fallback poller reports a status: [handleStatusChange] is its
    callback, and the poller catches what the callback throws. Without a
    timer there is no report. *)
Definition pollReport (newStatus : HealthStatus) (message : string) (s : State) : State :=
  match pollIntervalId s with
  | Some _ => snd (handleStatusChange newStatus message s)
  | None => s
  end.

End WithCollaborators.

(** [triggerRecovery] and [triggerRecoveryWithUI]: the attempt is counted
    and handed to the recovery manager. *)
Definition triggerRecovery (strategyId : Strategy) (userConsented : bool) (s : State)
  : State :=
  snd ((n <- gets recoveryAttempts ;;
        update (set_recoveryAttempts (S n)) ;;
        call (ExecuteRecovery strategyId userConsented) (Ok tt)) s).

(** [shutdownHealthSystem()] *)
Definition shutdownHealthSystem (s : State) : State :=
  {| systemState := systemState s;
     selfFailures := selfFailures s;
     pollIntervalId := RuntimeChecker.stopFallbackPolling (pollIntervalId s);
     effects := MarkCleanExit :: StopFallbackPolling :: effects s |}.

(** [getHealthState().isPollingActive] *)
Definition pollingActive (s : State) : bool :=
  RuntimeChecker.isPollingActive (pollIntervalId s).

(** What can happen to an initialised orchestrator. *)
Inductive Input : Type :=
| Event (c : Collaborators) (event : HealthEvent)
| RecoveryCompleted (c : Collaborators) (outcome : attempt bool)
| PollReport (c : Collaborators) (newStatus : HealthStatus) (message : string)
| TriggerRecovery (strategyId : Strategy) (userConsented : bool)
| Shutdown.

Definition step (s : State) (i : Input) : State :=
  match i with
  | Event c event => handleHealthEvent c event s
  | RecoveryCompleted c outcome => recoveryCompleted c outcome s
  | PollReport c newStatus message => pollReport c newStatus message s
  | TriggerRecovery strategyId userConsented => triggerRecovery strategyId userConsented s
  | Shutdown => shutdownHealthSystem s
  end.

Definition run (inputs : list Input) (s : State) : State := fold_left step inputs s.

(** The exceptions raised inside the event-handling path during a run. *)
Fixpoint exceptions (inputs : list Input) (s : State) : nat :=
  match inputs with
  | [] => 0
  | i :: rest =>
      (match i with
       | Event c event => if raises c event s then 1 else 0
       | _ => 0
       end) + exceptions rest (step s i)
  end.

(** The values of these exceptions, in the order in which they were
    raised. *)
Fixpoint thrownValues (inputs : list Input) (s : State) : list Thrown :=
  match inputs with
  | [] => []
  | i :: rest =>
      (match i with
       | Event c event =>
           match thrown c event s with Some error => [error] | None => [] end
       | _ => []
       end) ++ thrownValues rest (step s i)
  end.

(** The events that were delivered while the orchestrator was enabled, in
    the order of their arrival. *)
Fixpoint recorded (inputs : list Input) (s : State) : list HealthEvent :=
  match inputs with
  | [] => []
  | i :: rest =>
      (match i with
       | Event c event => if isEnabled (systemState s) then [event] else []
       | _ => []
       end) ++ recorded rest (step s i)
  end.

(** The orchestrator after [initInstanceId] and [initializeHealthSystem]:
    the handler is registered and the poller runs on [timer]. *)
Definition initialized (instance : string) (now : Z) (timer : nat) : State :=
  {| systemState :=
       {| status := healthy; instanceId := instance; startedAt := now;
          consecutiveFailures := 0; recoveryAttempts := 0;
          isPollingActive := true; isEnabled := true; recentEvents := [] |};
     selfFailures := 0;
     pollIntervalId := RuntimeChecker.startFallbackPolling timer None;
     effects := [MarkInstanceStart] |}.

(** *** Views of the state used in the proofs *)

(** [keeps proj m]: running [m] does not change [proj] of the state,
    whether [m] returns or throws. *)
Definition keeps {B A : Type} (proj : State -> B) (m : M A) : Prop :=
  forall s, proj (snd (m s)) = proj s.

(** The part of the state that only [handleSelfError], [disableHealthSystem]
    and [shutdownHealthSystem] touch. *)
Definition guard (s : State) : bool * nat * option nat :=
  (isEnabled (systemState s), selfFailures s, pollIntervalId s).

Definition ring (s : State) : list HealthEvent := recentEvents (systemState s).

(** The self-protection invariant: disabled means that the poller is
    stopped. *)
Definition protected (s : State) : Prop :=
  isEnabled (systemState s) = false -> pollIntervalId s = None.

(** [getHealthState()]: a copy of [systemState] in which [isPollingActive]
    is what the poller says. The copy holds the [recentEvents] array
    itself. *)
Definition getHealthState (s : State) : HealthSystemState :=
  {| status := status (systemState s);
     instanceId := instanceId (systemState s);
     startedAt := startedAt (systemState s);
     consecutiveFailures := consecutiveFailures (systemState s);
     recoveryAttempts := recoveryAttempts (systemState s);
     isPollingActive := pollingActive s;
     isEnabled := isEnabled (systemState s);
     recentEvents := recentEvents (systemState s) |}.

(** The file-writing calls made so far. *)
Definition fileWrites (s : State) : list Effect := filter writesFile (effects s).

(** The calls that start a recovery. *)
Definition startsRecovery (e : Effect) : bool :=
  match e with
  | ExecuteRecovery _ _ | ExecuteRecoveryWithUI _ _ => true
  | _ => false
  end.

(** A recovery started without asking is S1 or S2, and S3 and S4 go through
    the dialog. *)
Definition consentRespected (e : Effect) : bool :=
  match e with
  | ExecuteRecovery (S1 | S2) false => true
  | ExecuteRecovery _ _ => false
  | ExecuteRecoveryWithUI (S3 | S4) _ => true
  | ExecuteRecoveryWithUI _ _ => false
  | _ => true
  end.

(** Every input but the manual [triggerRecovery]. *)
Definition automatic (i : Input) : bool :=
  match i with
  | TriggerRecovery _ _ => false
  | _ => true
  end.

Definition isCritical (i : Input) : bool :=
  match i with
  | Event _ event => String.eqb (category event) "critical"
  | _ => false
  end.

(** The inputs that can change the status seen by the renderer: a critical
    or warning event and a report of the poller. *)
Definition mayNotify (i : Input) : bool :=
  match i with
  | Event _ event =>
      String.eqb (category event) "critical" || String.eqb (category event) "warning"
  | PollReport _ _ _ => true
  | _ => false
  end.

(** The [health:status-change] messages sent to the renderer so far. *)
Definition notifies (e : Effect) : bool :=
  match e with
  | SendToRenderer _ _ _ => true
  | _ => false
  end.

Definition notifications (s : State) : list Effect := filter notifies (effects s).

(** A message to the renderer that reports a change. *)
Definition reportsChange (e : Effect) : bool :=
  match e with
  | SendToRenderer st previousStatus _ => negb (HealthStatus_eqb st previousStatus)
  | _ => true
  end.

(** What one input adds to the calls: [calls] were made (most recent
    first), each started recovery was counted, each message to the renderer
    reports a change, an input other than a manual trigger starts at most
    one recovery, only for a critical event and never past the dialog, and
    at most one message goes to the renderer. *)
Definition calls_ok (i : Input) (s s' : State) (calls : list Effect) : Prop :=
  effects s' = (calls ++ effects s)%list
  /\ recoveryAttempts (systemState s')
     = recoveryAttempts (systemState s) + length (filter startsRecovery calls)
  /\ forallb reportsChange calls = true
  /\ (automatic i = true ->
      forallb consentRespected calls = true
      /\ length (filter startsRecovery calls) <= (if isCritical i then 1 else 0))
  /\ length (filter notifies calls) <= (if mayNotify i then 1 else 0).

(** Collaborators for examples: all of them answer, or all of them throw. *)
Definition quiet : Collaborators :=
  {| updateErrorCount := fun _ => Ok tt;
     selectRecoveryStrategy := fun n _ =>
       Ok (match n with 1 => Some S1 | 2 => Some S2 | 3 => Some S3 | _ => Some S4 end);
     canRecover := Ok true;
     sendToRenderer := fun _ _ _ => Ok tt |}.

Definition broken : Collaborators :=
  {| updateErrorCount := fun _ => Throw (AnError (mkError "recovery manager unavailable"));
     selectRecoveryStrategy :=
       fun _ _ => Throw (AnError (mkError "recovery manager unavailable"));
     canRecover := Throw (AnError (mkError "recovery manager unavailable"));
     sendToRenderer := fun _ _ _ => Throw (AnError (mkError "window destroyed")) |}.

(** Collaborators that throw [undefined]. *)
Definition hollow : Collaborators :=
  {| updateErrorCount := fun _ => Throw Nullish;
     selectRecoveryStrategy := fun _ _ => Throw Nullish;
     canRecover := Throw Nullish;
     sendToRenderer := fun _ _ _ => Throw Nullish |}.

Definition exitEvent (n : Z) : HealthEvent :=
  mkHealthEvent "process_exit" "critical" n "c1" "Process exited with code 1".

Definition demoState : State := initialized "run-2" 1000 7.

(** Sixty process exits in a row, handled without a fault. *)
Definition sixtyExits : list Input :=
  map (fun n => Event quiet (exitEvent (Z.of_nat n))) (seq 0 60).

(** Five events whose handling throws, then one more. *)
Definition sixFaults : list Input :=
  map (fun n => Event broken (exitEvent (Z.of_nat n))) (seq 0 6).

(** Sixty events whose handling throws [undefined]. *)
Definition sixtyHollow : list Input :=
  map (fun n => Event hollow (exitEvent (Z.of_nat n))) (seq 0 60).

(** A state after three failures. *)
Definition troubled : State :=
  run [Event quiet (exitEvent 1); Event quiet (exitEvent 2); Event quiet (exitEvent 3)]
      demoState.

End Orchestrator.

(* ------------------------------------------------------------------ *)
(** ** [diagnostics/collector.ts]: the diagnostic report *)

Module Diagnostics.
Import Js JsNotations Types Orchestrator.

(** The [config] section of the report. [currentSource] and [provider] are
    the [provider] of the current source as the configuration has it, or
    ['unknown']. *)
Record ConfigSection : Type := mkConfigSection {
  currentSource : ConfigProbe.json;
  provider : ConfigProbe.json;
  hasApiKey : bool;
  apiUrlHost : string;
  mcpServerCount : nat
}.

(** What [getRegistryStats()] returns, as far as the report reads it. *)
Record RegistryStats : Type := mkRegistryStats {
  totalProcesses : Z;
  orphanProcesses : Z
}.

Record ProcessesSection : Type := mkProcessesSection {
  registered : Z;
  orphansFound : Z;
  orphansCleaned : Z
}.

Record HealthSection : Type := mkHealthSection {
  lastCheckTime : string;
  h_consecutiveFailures : nat;     (* field [consecutiveFailures] *)
  h_recoveryAttempts : nat         (* field [recoveryAttempts] *)
}.

Record RecentError : Type := mkRecentError {
  time : string;
  err_source : string;             (* field [source] *)
  err_message : string             (* field [message] *)
}.

Record SystemSection : Type := mkSystemSection {
  memoryTotal : string;            (* field [memory.total] *)
  memoryFree : string;             (* field [memory.free] *)
  uptime : Z
}.

Record DiagnosticReport : Type := mkDiagnosticReport {
  r_timestamp : string;            (* field [timestamp] *)
  version : string;
  platform : string;
  arch : string;
  config : ConfigSection;
  processes : ProcessesSection;
  health : HealthSection;
  recentErrors : list RecentError;
  system : SystemSection
}.

(** Everything [collectDiagnosticReport] reads from outside the
    orchestrator. [configSection] is what the report says of the
    configuration: the function computes it from [getConfig()] alone, and
    an exception there ([find] on a source that is [null], [new URL])
    interrupts the collection. [getRecentEvents] is the list that the
    health checker keeps of the events it has emitted. *)
Record Env : Type := mkEnv {
  getConfig : attempt ConfigProbe.json;
  configSection : ConfigProbe.json -> attempt ConfigSection;
  getRegistryStats : attempt RegistryStats;
  getRecentEvents : attempt (list HealthEvent);
  isoNow : string;                        (* [new Date().toISOString()] *)
  toISOString : Z -> attempt string;      (* [new Date(t).toISOString()] *)
  appVersion : string;
  processPlatform : string;
  processArch : string;
  totalmem : Z;
  freemem : Z;
  processUptime : Z;                      (* [Math.floor(process.uptime())] *)
  toFixed1 : QArith_base.Q -> string;     (* [value.toFixed(1)] *)
  sanitizeReport : DiagnosticReport -> attempt DiagnosticReport
}.

Definition units : list string := ["B"; "KB"; "MB"; "GB"; "TB"].

(** The loop of [formatBytes]: the unit index stops at 4, so the loop body
    runs at most four times. *)
Fixpoint scale (turns : nat) (value : QArith_base.Q) (unitIndex : nat)
  : QArith_base.Q * nat :=
  match turns with
  | 0 => (value, unitIndex)
  | S turns' =>
      if QArith_base.Qle_bool (QArith_base.inject_Z 1024) value
         && (unitIndex <? length units - 1)%nat
      then scale turns' (QArith_base.Qdiv value (QArith_base.inject_Z 1024)) (S unitIndex)
      else (value, unitIndex)
  end.

(** [formatBytes(bytes)] *)
Definition formatBytes (env : Env) (bytes : Z) : string :=
  let (value, unitIndex) := scale 4 (QArith_base.inject_Z bytes) 0 in
  toFixed1 env value ++ " " ++ nth unitIndex units "".

(** [.map(e => ({ time: new Date(e.timestamp).toISOString(), ... }))] *)
Fixpoint describe (env : Env) (events : list HealthEvent) : attempt (list RecentError) :=
  match events with
  | [] => Ok []
  | e :: rest =>
      do t <- toISOString env (ev_timestamp e);
      do more <- describe env rest;
      Ok ({| time := t; err_source := source e; err_message := ev_message e |} :: more)
  end.

(** [collectDiagnosticReport()], the orchestrator being in state [s]. *)
Definition collectDiagnosticReport (env : Env) (s : State) : attempt DiagnosticReport :=
  do config <- getConfig env;
  let healthState := getHealthState s in
  do registryStats <- getRegistryStats env;
  do recentEvents <- getRecentEvents env;
  (* Get AI source info (sanitized) *)
  do configInfo <- configSection env config;
  (* Build raw report *)
  do recentErrors <-
    describe env
      (firstn 10
         (filter (fun e => String.eqb (category e) "critical"
                           || String.eqb (category e) "warning") recentEvents));
  let rawReport :=
    {| r_timestamp := isoNow env;
       version := appVersion env;
       platform := processPlatform env;
       arch := processArch env;
       config := configInfo;
       processes :=
         {| registered := totalProcesses registryStats;
            orphansFound := orphanProcesses registryStats;
            orphansCleaned := 0 |};
       health :=
         {| lastCheckTime := "disabled";
            h_consecutiveFailures := consecutiveFailures healthState;
            h_recoveryAttempts := recoveryAttempts healthState |};
       recentErrors := recentErrors;
       system :=
         {| memoryTotal := formatBytes env (totalmem env);
            memoryFree := formatBytes env (freemem env);
            uptime := processUptime env |} |} in
  (* Sanitize sensitive data *)
  sanitizeReport env rawReport.

(** Modelled from the spec: [exportReport(path?)] writes the collected
    report to a file, formatted by [formatReportAsText]; this is the text
    it writes. *)
Definition exportReport (env : Env) (formatReportAsText : DiagnosticReport -> string)
    (s : State) : attempt string :=
  do report <- collectDiagnosticReport env s;
  Ok (formatReportAsText report).

(** An environment for examples. *)
Definition demoReport : Env :=
  {| getConfig := Ok ConfigProbe.JNull;
     configSection := fun _ =>
       Ok (mkConfigSection (ConfigProbe.JStr "none") (ConfigProbe.JStr "unknown")
             false "" 0);
     getRegistryStats := Ok (mkRegistryStats 1 0);
     getRecentEvents := Ok [exitEvent 3; exitEvent 2; exitEvent 1];
     isoNow := "2026-01-01T00:00:00.000Z";
     toISOString := fun _ => Ok "2026-01-01T00:00:00.000Z";
     appVersion := "1.2.10";
     processPlatform := "win32";
     processArch := "x64";
     totalmem := 17179869184;
     freemem := 1536;
     processUptime := 12;
     toFixed1 := fun _ => "1.5";
     sanitizeReport := fun report => Ok report |}.

(** The orchestrator with other events in its ring. *)
Definition withRecentEvents (events : list HealthEvent) (s : State) : State :=
  {| systemState := set_recentEvents events (systemState s);
     selfFailures := selfFailures s;
     pollIntervalId := pollIntervalId s;
     effects := effects s |}.

End Diagnostics.

(* ------------------------------------------------------------------ *)
(** ** [runtime-checker.ts]: the passive fallback check *)

Module FallbackCheck.
Import Js Types.

Definition MEMORY_CRITICAL_THRESHOLD_MB : Z := 1024.

(** What the passive check reads: nothing here runs a command or opens a
    socket. *)
Record Readings : Type := mkReadings {
  orphanProcesses : nat;                       (* [getRegistryStats().orphanProcesses] *)
  recentEvents : list Orchestrator.HealthEvent;  (* [getRecentEvents()] *)
  totalErrors : nat;                           (* [getTotalErrorCount()] *)
  heapUsed : Z;                                (* bytes *)
  now : Z                                      (* [Date.now()] *)
}.

(** [recentEvents.filter(e => e.category === 'critical' && Date.now() - e.timestamp < 60_000)] *)
Definition recentCritical (r : Readings) : list Orchestrator.HealthEvent :=
  filter (fun e => String.eqb (Orchestrator.category e) "critical"
                   && (now r - Orchestrator.ev_timestamp e <? 60000)%Z)
         (recentEvents r).

Definition memoryCritical (r : Readings) : bool :=
  (MEMORY_CRITICAL_THRESHOLD_MB * 1048576 <? heapUsed r)%Z.

(** Steps 1 to 4: the issues, in the order they are pushed. *)
Definition issuesOf (r : Readings) : list string :=
  (if (0 <? orphanProcesses r)%nat
   then [show_nat (orphanProcesses r) ++ " orphan processes in registry"] else [])
  ++ (if (0 <? length (recentCritical r))%nat
      then [show_nat (length (recentCritical r)) ++ " critical events in last minute"]
      else [])
  ++ (if (0 <? totalErrors r)%nat
      then [show_nat (totalErrors r) ++ " consecutive errors"] else [])
  ++ (if memoryCritical r
      then ["Critical memory usage: " ++ RuntimeChecker.heapMB_toFixed0 (heapUsed r) ++ "MB"]
      else if RuntimeChecker.memoryHigh (heapUsed r)
      then ["High memory usage: " ++ RuntimeChecker.heapMB_toFixed0 (heapUsed r) ++ "MB"]
      else []).

(** Step 5: the status. *)
Definition statusOf (r : Readings) : HealthStatus :=
  if (0 <? length (recentCritical r))%nat || (3 <=? totalErrors r)%nat || memoryCritical r
  then unhealthy
  else if (0 <? length (issuesOf r))%nat then degraded
  else healthy.

(** [issues.length > 0 ? issues.join('; ') : 'All checks passed'] *)
Definition messageOf (r : Readings) : string :=
  match issuesOf r with
  | [] => "All checks passed"
  | issues => String.concat "; " issues
  end.

(** [performFallbackCheck()]: what the callback was called with, if it was
    called, and the new [lastKnownStatus]. An exception of the callback is
    caught by the surrounding [try] before [lastKnownStatus] is assigned. *)
Definition performFallbackCheck
    (healthChangeCallback : option (HealthStatus -> string -> result unit))
    (r : Readings) (lastKnownStatus : HealthStatus)
  : option (HealthStatus * string) * HealthStatus :=
  let newStatus := statusOf r in
  if negb (HealthStatus_eqb newStatus lastKnownStatus) then
    match healthChangeCallback with
    | Some callback =>
        match callback newStatus (messageOf r) with
        | Ok _ => (Some (newStatus, messageOf r), newStatus)
        | Throw _ => (Some (newStatus, messageOf r), lastKnownStatus)
        end
    | None => (None, newStatus)
    end
  else (None, lastKnownStatus).

(** The readings without the events that are older than a minute or not
    critical. *)
Definition withoutStale (r : Readings) : Readings :=
  {| orphanProcesses := orphanProcesses r; recentEvents := recentCritical r;
     totalErrors := totalErrors r; heapUsed := heapUsed r; now := now r |}.

Definition calm : Readings :=
  {| orphanProcesses := 0;
     recentEvents := [Orchestrator.mkHealthEvent "process_exit" "critical" 1000 "c1" "old"];
     totalErrors := 0; heapUsed := (300 * 1048576)%Z; now := 100000%Z |}.

Definition strained : Readings :=
  {| orphanProcesses := 2; recentEvents := [];
     totalErrors := 1; heapUsed := (600 * 1048576)%Z; now := 100000%Z |}.

End FallbackCheck.

(* ------------------------------------------------------------------ *)
(** ** Platform process operations, Windows: the two scans *)

Module Win32Platform.
Import Js Types Platform Win32ProcessOps.

(** One object of the PowerShell output, at the types [Win32_Process]
    gives its properties; [CommandLine] is [null] for a process whose
    command line cannot be read. *)
Record Win32_Process : Type := mkWin32_Process {
  ProcessId : Z;
  ParentProcessId : Z;
  Name : string;
  CommandLine : option string
}.

(** What [JSON.parse(stdout)] returns: PowerShell prints one object for a
    single result and an array otherwise. [None] is [null], or any other
    value without a [ProcessId]. *)
Inductive Parsed : Type :=
| One (proc : option Win32_Process)
| Many (procs : list (option Win32_Process)).

(** [!stdout.trim()] *)
Fixpoint blank (stdout : string) : bool :=
  match stdout with
  | EmptyString => true
  | String c rest => isWhiteSpace c && blank rest
  end.

Definition dq : string := String (ascii_of_nat 34) EmptyString.

Definition findByArgsCommand (pattern : string) : string :=
  "powershell -NoProfile -Command " ++ dq
  ++ "Get-WmiObject Win32_Process | Where-Object { $_.CommandLine -like '*"
  ++ pattern
  ++ "*' } | Select-Object ProcessId, Name, CommandLine | ConvertTo-Json -Compress"
  ++ dq.

Definition findChildProcessesCommand (ppid : Z) : string :=
  "powershell -NoProfile -Command " ++ dq
  ++ "Get-WmiObject Win32_Process | Where-Object { $_.ParentProcessId -eq "
  ++ show_Z ppid
  ++ " } | Select-Object ProcessId, ParentProcessId, Name | ConvertTo-Json -Compress"
  ++ dq.

(** [Array.isArray(parsed) ? parsed : [parsed]] *)
Definition asArray (parsed : Parsed) : list (option Win32_Process) :=
  match parsed with
  | One proc => [proc]
  | Many procs => procs
  end.

(** [if (proc && proc.ProcessId) results.push(...)] over the array *)
Fixpoint collect {A : Type} (entry : Win32_Process -> A)
    (processes : list (option Win32_Process)) : list A :=
  match processes with
  | [] => []
  | Some proc :: rest =>
      if negb (ProcessId proc =? 0)%Z then entry proc :: collect entry rest
      else collect entry rest
  | None :: rest => collect entry rest
  end.

Section Scans.
Context {World : Type} (os : OS World) (JSON_parse : string -> result Parsed).

(** The body shared by the two scans. Whatever is thrown inside the [try]
    is caught; [results] is still empty then, and it is what both exits of
    the [catch] return. *)
Definition scan {A : Type} (psCommand : string) (entry : Win32_Process -> A) (w : World)
  : result (list A) * World :=
  let (r, w') := execAsync os psCommand 10000 w in
  match r with
  | Ok stdout =>
      if blank stdout then (Ok [], w')
      else
        match JSON_parse stdout with
        | Ok parsed => (Ok (collect entry (asArray parsed)), w')
        | Throw _ => (Ok [], w')
        end
  | Throw _ => (Ok [], w')
  end.

Definition findByArgs (pattern : string) (w : World)
  : result (list ProcessInfo) * World :=
  scan (findByArgsCommand pattern)
       (fun proc =>
          {| pi_pid := ProcessId proc;
             commandLine := match CommandLine proc with
                            | Some c => c       (* [proc.CommandLine || ''] *)
                            | None => EmptyString
                            end;
             pi_name := Name proc |}) w.

Definition findChildProcesses (ppid : Z) (w : World)
  : result (list ChildProcessInfo) * World :=
  scan (findChildProcessesCommand ppid)
       (fun proc =>
          {| cp_pid := ProcessId proc;
             Types.ppid := ParentProcessId proc;
             cp_name := Name proc |}) w.

(** [new Win32ProcessOps()] *)
Definition ops : PlatformProcessOps World :=
  {| Platform.findByArgs := findByArgs;
     Platform.killProcess := Win32ProcessOps.killProcess os;
     Platform.isProcessAlive := Win32ProcessOps.isProcessAlive os;
     Platform.findChildProcesses := findChildProcesses |}.

(** The scan command did not give a list: it failed or ran into its
    timeout, or its output is not JSON. *)
Definition scanLost (psCommand : string) (w : World) : bool :=
  match fst (execAsync os psCommand 10000 w) with
  | Ok stdout => negb (blank stdout) && is_throw (JSON_parse stdout)
  | Throw _ => true
  end.

End Scans.

(** A Windows machine whose PowerShell does not start. *)
Definition noPowerShell : OS unit :=
  {| execAsync := fun _ _ w => (Throw (mkError "spawn powershell ENOENT"), w);
     process_kill0 := fun _ _ => Ok tt |}.

Definition noPowerShellEnv : RuntimeChecker.Env unit :=
  {| RuntimeChecker.platformOps := ops noPowerShell (fun _ => Throw (mkError "unused"));
     RuntimeChecker.mainPid := 4000;
     RuntimeChecker.getRouterInfo := None;
     RuntimeChecker.checkOpenAIRouter := fun _ => Throw (mkError "not running");
     RuntimeChecker.serverRunning := false;
     RuntimeChecker.serverPort := 0;
     RuntimeChecker.checkHttpServer := fun _ => Throw (mkError "not running");
     RuntimeChecker.heapUsed := (200 * 1048576)%Z |}.

End Win32Platform.

(* ------------------------------------------------------------------ *)
(** ** [openai-compat-router/interceptors] *)

Module Interceptors.
Import Js.

(** A block of an array [content]; [text] may be missing. *)
Record ContentBlock : Type := mkContentBlock {
  block_type : string;              (* field [type] *)
  block_text : option string        (* field [text] *)
}.

(** [content]: a string, an array of blocks, or anything else. *)
Inductive Content : Type :=
| Text (s : string)
| Blocks (blocks : list ContentBlock)
| NoContent.

Record Message : Type := mkMessage {
  role : string;
  content : Content
}.

(** An OpenAI-format request; [messages] is [None] when the property is
    missing. *)
Record OpenAIRequest : Type := mkOpenAIRequest {
  model : string;
  messages : option (list Message);
  stream : option bool
}.

(** What is done to the Express response. An event of the stream is the
    text [event: <name>], a line [data:] with the JSON rendering of
    [data], and an empty line. *)
Inductive ResOp : Type :=
| SetHeader (name value : string)
| WriteEvent (event : string) (data : ConfigProbe.json)
| End.

Record InterceptorContext : Type := mkInterceptorContext {
  originalModel : string;
  now : Z                            (* [Date.now()] *)
}.

(** The response so far, oldest operation first. *)
Definition Res : Type := list ResOp.

Inductive InterceptorResult : Type :=
| NotHandled                                  (* [{ handled: false }] *)
| Handled (modified : option OpenAIRequest)   (* [{ handled: true, modified? }] *)
| Responded.                                  (* [{ handled: true, responded: true }] *)

Record RequestInterceptor : Type := mkRequestInterceptor {
  name : string;
  shouldIntercept : OpenAIRequest -> InterceptorContext -> bool;
  intercept : OpenAIRequest -> InterceptorContext -> Res -> InterceptorResult * Res
}.

(** [getUserMessageText(message)] *)
Definition getUserMessageText (message : Message) : option string :=
  match content message with
  | Text s => Some s
  | Blocks blocks =>
      match find (fun b => String.eqb (block_type b) "text") blocks with
      | Some textBlock => block_text textBlock
      | None => None
      end
  | NoContent => None
  end.

(** [text?.trim() === 'Warmup'] *)
Definition saysWarmup (message : Message) : bool :=
  match getUserMessageText message with
  | Some text => String.eqb (trim text) "Warmup"
  | None => false
  end.

(** [isWarmupRequest(request)] *)
Definition isWarmupRequest (request : OpenAIRequest) : bool :=
  match messages request with
  | None | Some [] => false
  | Some msgs =>
      match find (fun m => String.eqb (role m) "user") (rev msgs) with
      | Some lastUserMsg => saysWarmup lastUserMsg
      | None => false
      end
  end.

Definition JInt (n : Z) : ConfigProbe.json := ConfigProbe.JNum (QArith_base.Qmake n 1).

(** [sendMockResponse(context)] *)
Definition sendMockResponse (context : InterceptorContext) (res : Res) : Res :=
  let msgId := "msg_warmup_" ++ show_Z (now context) in
  let responseText := "Ready." in
  (res ++
   [ SetHeader "Content-Type" "text/event-stream";
     SetHeader "Cache-Control" "no-cache";
     SetHeader "Connection" "keep-alive";
     WriteEvent "message_start"
       (ConfigProbe.JObj
          [("type", ConfigProbe.JStr "message_start");
           ("message",
            ConfigProbe.JObj
              [("id", ConfigProbe.JStr msgId);
               ("type", ConfigProbe.JStr "message");
               ("role", ConfigProbe.JStr "assistant");
               ("content", ConfigProbe.JArr []);
               ("model", ConfigProbe.JStr (originalModel context));
               ("stop_reason", ConfigProbe.JNull);
               ("stop_sequence", ConfigProbe.JNull);
               ("usage", ConfigProbe.JObj [("input_tokens", JInt 10);
                                           ("output_tokens", JInt 0)])])]);
     WriteEvent "content_block_start"
       (ConfigProbe.JObj
          [("type", ConfigProbe.JStr "content_block_start");
           ("index", JInt 0);
           ("content_block", ConfigProbe.JObj [("type", ConfigProbe.JStr "text");
                                               ("text", ConfigProbe.JStr "")])]);
     WriteEvent "content_block_delta"
       (ConfigProbe.JObj
          [("type", ConfigProbe.JStr "content_block_delta");
           ("index", JInt 0);
           ("delta", ConfigProbe.JObj [("type", ConfigProbe.JStr "text_delta");
                                       ("text", ConfigProbe.JStr responseText)])]);
     WriteEvent "content_block_stop"
       (ConfigProbe.JObj [("type", ConfigProbe.JStr "content_block_stop");
                          ("index", JInt 0)]);
     WriteEvent "message_delta"
       (ConfigProbe.JObj
          [("type", ConfigProbe.JStr "message_delta");
           ("delta", ConfigProbe.JObj [("stop_reason", ConfigProbe.JStr "end_turn");
                                       ("stop_sequence", ConfigProbe.JNull)]);
           ("usage", ConfigProbe.JObj [("output_tokens", JInt 2)])]);
     WriteEvent "message_stop"
       (ConfigProbe.JObj [("type", ConfigProbe.JStr "message_stop")]);
     End ])%list.

Definition warmupInterceptor : RequestInterceptor :=
  {| name := "warmup";
     shouldIntercept := fun request _ => isWarmupRequest request;
     intercept := fun _ context res => (Responded, sendMockResponse context res) |}.

Definition defaultInterceptors : list RequestInterceptor := [warmupInterceptor].

(** What [runInterceptors] returns. *)
Inductive Outcome : Type :=
| NotIntercepted (request : OpenAIRequest)    (* [{ intercepted: false, request }] *)
| Modified (request : OpenAIRequest)          (* [{ intercepted: true, request }] *)
| ResponseSent.                               (* [{ intercepted: true, responded: true }] *)

(** [runInterceptors(request, context, interceptors)]. [currentRequest] is
    assigned only on the way out, so every interceptor sees [request]. *)
Fixpoint runInterceptors (interceptors : list RequestInterceptor)
    (request : OpenAIRequest) (context : InterceptorContext) (res : Res)
  : Outcome * Res :=
  match interceptors with
  | [] => (NotIntercepted request, res)
  | interceptor :: rest =>
      if negb (shouldIntercept interceptor request context)
      then runInterceptors rest request context res
      else
        let (result, res') := intercept interceptor request context res in
        match result with
        | NotHandled => runInterceptors rest request context res'
        | Responded => (ResponseSent, res')
        | Handled (Some modified) => (Modified modified, res')
        | Handled None => runInterceptors rest request context res'
        end
  end.

Definition intercepted (o : Outcome) : bool :=
  match o with
  | NotIntercepted _ => false
  | _ => true
  end.

End Interceptors.

(* ------------------------------------------------------------------ *)
(** ** [openai-compat-router/server/request-handler.ts]: errors and headers *)

Module RequestHandler.
Import Js.

(** An object literal with string values or number values: its own
    properties, in insertion order. *)
Fixpoint own {V : Type} (k : string) (fields : list (string * V)) : option V :=
  match fields with
  | [] => None
  | (k', v) :: rest => if String.eqb k k' then Some v else own k rest
  end.

(** [obj[k] = v]: an existing property keeps its place. *)
Fixpoint assign {V : Type} (k : string) (v : V) (fields : list (string * V))
  : list (string * V) :=
  match fields with
  | [] => [(k, v)]
  | (k', v') :: rest =>
      if String.eqb k k' then (k, v) :: rest else (k', v') :: assign k v rest
  end.

(** [Object.assign(target, source)], also the spread of [source] into a
    literal that starts as [target]. *)
Definition assignAll {V : Type} (target source : list (string * V)) : list (string * V) :=
  fold_left (fun acc kv => assign (fst kv) (snd kv) acc) source target.

Definition ERROR_STATUS_MAP : list (string * Z) :=
  [ ("invalid_request_error", 400%Z); ("authentication_error", 401%Z);
    ("permission_error", 403%Z); ("not_found_error", 404%Z);
    ("request_too_large", 413%Z); ("rate_limit_error", 429%Z);
    ("api_error", 500%Z); ("overloaded_error", 529%Z); ("timeout_error", 504%Z) ].

Definition STATUS_ERROR_MAP : list (Z * string) :=
  [ (400%Z, "invalid_request_error"); (401%Z, "authentication_error");
    (403%Z, "permission_error"); (404%Z, "not_found_error");
    (413%Z, "request_too_large"); (429%Z, "rate_limit_error");
    (500%Z, "api_error"); (529%Z, "overloaded_error") ].

(** The properties every object literal inherits from [Object.prototype];
    all of them are truthy. *)
Definition objectPrototypeMembers : list string :=
  [ "constructor"; "__defineGetter__"; "__defineSetter__"; "hasOwnProperty";
    "__lookupGetter__"; "__lookupSetter__"; "isPrototypeOf"; "propertyIsEnumerable";
    "toString"; "valueOf"; "__proto__"; "toLocaleString" ].

Fixpoint ownByStatus (status : Z) (fields : list (Z * string)) : option string :=
  match fields with
  | [] => None
  | (k, v) :: rest => if (status =? k)%Z then Some v else ownByStatus status rest
  end.

(** [getErrorTypeFromStatus(status)]: [STATUS_ERROR_MAP[status] || 'api_error'].
    The key of a number is its decimal rendering, which names no inherited
    property. *)
Definition getErrorTypeFromStatus (status : Z) : string :=
  match ownByStatus status STATUS_ERROR_MAP with
  | Some EmptyString => "api_error"
  | Some t => t
  | None => "api_error"
  end.

(** What [res.status] is called with: a number, or an inherited member of
    the map when the error type happens to name one. *)
Inductive StatusArg : Type :=
| Code (n : Z)
| Member (name : string).

(** [ERROR_STATUS_MAP[errorType] || 500] *)
Definition statusFor (errorType : string) : StatusArg :=
  match own errorType ERROR_STATUS_MAP with
  | Some n => if (n =? 0)%Z then Code 500 else Code n
  | None =>
      if existsb (String.eqb errorType) objectPrototypeMembers then Member errorType
      else Code 500
  end.

Inductive ResOp : Type :=
| Status (arg : StatusArg)
| SetHeader (name value : string)
| Json (body : ConfigProbe.json).

(** The property key an error type is used as. [toPropertyKey] is
    JavaScript's conversion of a value that is not a string. *)
Definition keyOf (toPropertyKey : ConfigProbe.json -> string) (errorType : ConfigProbe.json)
  : string :=
  match errorType with
  | ConfigProbe.JStr t => t
  | v => toPropertyKey v
  end.

(** [message.slice] is a function: strings and arrays have one. *)
Definition hasSlice (message : ConfigProbe.json) : bool :=
  match message with
  | ConfigProbe.JStr _ | ConfigProbe.JArr _ => true
  | _ => false
  end.

(** [sendError(res, errorType, message)]: what is done to the response.
    The arguments are strings by their declared type; the error exit of
    [handleMessagesRequest] passes what [getUpstreamError] found in the
    upstream body. The log line that slices the message comes first. *)
Definition sendError (toPropertyKey : ConfigProbe.json -> string) (now : Z)
    (errorType message : ConfigProbe.json) : result (list ResOp) :=
  let status := statusFor (keyOf toPropertyKey errorType) in
  if hasSlice message then
    Ok [ Status status;
         SetHeader "Content-Type" "application/json";
         SetHeader "request-id" ("req_" ++ show_Z now);
         SetHeader "retry-after" "1";
         Json (ConfigProbe.JObj
                 [("type", ConfigProbe.JStr "error");
                  ("error", ConfigProbe.JObj [("type", errorType);
                                              ("message", message)])]) ]
  else Throw (mkError "message.slice is not a function").

(** [getUpstreamError(status, errorText)]. The type and the message of an
    OpenAI-format body are whatever JSON values the upstream sent. *)
Definition getUpstreamError (JSON_parse : string -> result ConfigProbe.json)
    (status : Z) (errorText : string) : ConfigProbe.json * ConfigProbe.json :=
  let fromStatus :=
    (ConfigProbe.JStr (getErrorTypeFromStatus status),
     ConfigProbe.JStr (if String.eqb errorText "" then "HTTP " ++ show_Z status
                       else errorText)) in
  match JSON_parse errorText with
  | Ok json =>
      let error := ConfigProbe.getOpt (Some json) "error" in
      match ConfigProbe.getOpt error "type" with
      | Some t =>
          if ConfigProbe.truthy (Some t) then
            (t, match ConfigProbe.getOpt error "message" with
                | Some m => if ConfigProbe.truthy (Some m) then m else ConfigProbe.JStr ""
                | None => ConfigProbe.JStr ""
                end)
          else fromStatus
      | None => fromStatus
      end
  | Throw _ => fromStatus          (* not JSON, ignore *)
  end.

(** The body carries an error type of its own. *)
Definition typedBody (JSON_parse : string -> result ConfigProbe.json) (errorText : string)
  : bool :=
  match JSON_parse errorText with
  | Ok json =>
      ConfigProbe.truthy
        (ConfigProbe.getOpt (ConfigProbe.getOpt (Some json) "error") "type")
  | Throw _ => false
  end.

(** The error exit of [handleMessagesRequest] for an upstream response
    that is not [ok] and is not retried: [getUpstreamError], then
    [sendError]; what [sendError] throws is not an [AbortError] and is
    answered by the [catch] with [sendError(res, 'api_error', ...)]. *)
Definition relayUpstreamError (JSON_parse : string -> result ConfigProbe.json)
    (toPropertyKey : ConfigProbe.json -> string) (now : Z)
    (status : Z) (errorText : string) : result (list ResOp) :=
  let (errorType, errorMessage) := getUpstreamError JSON_parse status errorText in
  match sendError toPropertyKey now errorType errorMessage with
  | Ok ops => Ok ops
  | Throw error =>
      sendError toPropertyKey now (ConfigProbe.JStr "api_error")
        (ConfigProbe.JStr (if String.eqb (message error) "" then "Internal error"
                           else message error))
  end.

(** The headers [fetchUpstream] sends. *)
Definition upstreamHeaders (apiKey : string) (customHeaders : option (list (string * string)))
  : list (string * string) :=
  let headers :=
    assignAll [("Content-Type", "application/json")]
              (match customHeaders with Some h => h | None => [] end) in
  match own "Authorization" headers with
  | Some EmptyString | None => assign "Authorization" ("Bearer " ++ apiKey) headers
  | Some _ => headers
  end.

Definition official (status : Z) : bool :=
  existsb (Z.eqb status) [400; 401; 403; 404; 413; 429; 500; 529]%Z.

End RequestHandler.

(* ------------------------------------------------------------------ *)
(** ** Provider adapters *)

Module ProviderAdapters.
Import Js RequestHandler.

Definition Body : Type := list (string * ConfigProbe.json).
Definition Headers : Type := list (string * string).

Record ProviderAdapter : Type := mkProviderAdapter {
  id : string;
  name : string;
  matches : string -> bool;                       (* method [match] *)
  transformRequest : option (Body -> Body);
  getExtraHeaders : option Headers
}.

Definition hundredth : ConfigProbe.json := ConfigProbe.JNum (QArith_base.Qmake 1 100).
Definition zero : ConfigProbe.json := ConfigProbe.JNum (QArith_base.Qmake 0 1).

Definition groqAdapter : ProviderAdapter :=
  {| id := "groq"; name := "Groq";
     matches := fun url => includes url "api.groq.com";
     transformRequest :=
       Some (fun body =>
               if ConfigProbe.strictEq (own "temperature" body) (Some zero)
               then assign "temperature" hundredth body
               else body);
     getExtraHeaders := None |}.

Definition openRouterAdapter : ProviderAdapter :=
  {| id := "openrouter"; name := "OpenRouter";
     matches := fun url => includes url "openrouter.ai";
     transformRequest := None;
     getExtraHeaders := Some [("HTTP-Referer", "https://hello-halo.cc/");
                              ("X-Title", "Halo")] |}.

Definition deepSeekAdapter : ProviderAdapter :=
  {| id := "deepseek"; name := "DeepSeek";
     matches := fun url => includes url "api.deepseek.com";
     transformRequest := None;
     getExtraHeaders := None |}.

Definition adapters : list ProviderAdapter :=
  [groqAdapter; openRouterAdapter; deepSeekAdapter].

(** [findAdapter(url)] *)
Definition findAdapter (url : string) : option ProviderAdapter :=
  find (fun adapter => matches adapter url) adapters.

(** [applyProviderAdapter(url, body, headers)]: the adapter returned, and
    [body] and [headers] as the call leaves them. *)
Definition applyProviderAdapter (url : string) (body : Body) (headers : Headers)
  : option ProviderAdapter * Body * Headers :=
  match findAdapter url with
  | None => (None, body, headers)
  | Some adapter =>
      let body' :=
        match transformRequest adapter with
        | Some transform => transform body
        | None => body
        end in
      let headers' :=
        match getExtraHeaders adapter with
        | Some extraHeaders => assignAll headers extraHeaders
        | None => headers
        end in
      (Some adapter, body', headers')
  end.

End ProviderAdapters.

(* ------------------------------------------------------------------ *)
(** ** The agent's session manager *)

Module SessionManager.
Import Js Types Registry.

Record SessionConfig : Type := mkSessionConfig { aiBrowserEnabled : bool }.

(** A V2 session is known by its identity. *)
Record V2SessionInfo : Type := mkV2SessionInfo {
  session : nat;
  spaceId : string;
  conversationId : string;
  createdAt : Z;
  lastUsedAt : Z;
  config : SessionConfig
}.

(** [Map<string, V>], in insertion order. *)
Fixpoint mapGet {V : Type} (k : string) (m : list (string * V)) : option V :=
  match m with
  | [] => None
  | (k', v) :: rest => if String.eqb k k' then Some v else mapGet k rest
  end.

(** [map.set(k, v)]: a key that is there keeps its place. *)
Fixpoint mapSet {V : Type} (k : string) (v : V) (m : list (string * V))
  : list (string * V) :=
  match m with
  | [] => [(k, v)]
  | (k', v') :: rest =>
      if String.eqb k k' then (k, v) :: rest else (k', v') :: mapSet k v rest
  end.

Definition mapDelete {V : Type} (k : string) (m : list (string * V)) : list (string * V) :=
  filter (fun kv => negb (String.eqb k (fst kv))) m.

(** [Set<string>], and the keys of a map whose values are not looked at. *)
Definition setHas (k : string) (s : list string) : bool := existsb (String.eqb k) s.

Definition setAdd (k : string) (s : list string) : list string :=
  if setHas k s then s else (s ++ [k])%list.

Definition setDelete (k : string) (s : list string) : list string :=
  filter (fun x => negb (String.eqb k x)) s.

(** The module-level variables, the health registry the module writes to,
    and the sessions whose [close()] was called (most recent first). *)
Record State : Type := mkState {
  activeSessions : list string;                    (* keys of the map *)
  v2Sessions : list (string * V2SessionInfo);
  pendingInvalidations : list string;
  cleanupIntervalId : option nat;
  registry : Registry.State;
  closed : list nat
}.

Definition SESSION_IDLE_TIMEOUT_MS : Z := 30 * 60 * 1000.

Definition set_v2Sessions (v : list (string * V2SessionInfo)) (s : State) : State :=
  {| activeSessions := activeSessions s; v2Sessions := v;
     pendingInvalidations := pendingInvalidations s;
     cleanupIntervalId := cleanupIntervalId s; registry := registry s;
     closed := closed s |}.

Definition set_activeSessions (v : list string) (s : State) : State :=
  {| activeSessions := v; v2Sessions := v2Sessions s;
     pendingInvalidations := pendingInvalidations s;
     cleanupIntervalId := cleanupIntervalId s; registry := registry s;
     closed := closed s |}.

Definition set_pendingInvalidations (v : list string) (s : State) : State :=
  {| activeSessions := activeSessions s; v2Sessions := v2Sessions s;
     pendingInvalidations := v;
     cleanupIntervalId := cleanupIntervalId s; registry := registry s;
     closed := closed s |}.

Definition set_cleanupIntervalId (v : option nat) (s : State) : State :=
  {| activeSessions := activeSessions s; v2Sessions := v2Sessions s;
     pendingInvalidations := pendingInvalidations s;
     cleanupIntervalId := v; registry := registry s;
     closed := closed s |}.

Definition set_registry (v : Registry.State) (s : State) : State :=
  {| activeSessions := activeSessions s; v2Sessions := v2Sessions s;
     pendingInvalidations := pendingInvalidations s;
     cleanupIntervalId := cleanupIntervalId s; registry := v;
     closed := closed s |}.

(** [try { info.session.close() } catch ...] followed by
    [unregisterProcess(convId, 'v2-session')]. *)
Definition closeAndUnregister (convId : string) (v2 : V2SessionInfo) (s : State)
  : State :=
  {| activeSessions := activeSessions s; v2Sessions := v2Sessions s;
     pendingInvalidations := pendingInvalidations s;
     cleanupIntervalId := cleanupIntervalId s;
     registry := unregisterProcess convId v2_session (registry s);
     closed := session v2 :: closed s |}.

(** The callback of the cleanup interval, run at [now]. *)
Definition cleanupTick (now : Z) (s : State) : State :=
  fold_left
    (fun acc kv =>
       if (SESSION_IDLE_TIMEOUT_MS <? now - lastUsedAt (snd kv))%Z
       then
         let acc' := closeAndUnregister (fst kv) (snd kv) acc in
         set_v2Sessions (mapDelete (fst kv) (v2Sessions acc')) acc'
       else acc)
    (v2Sessions s) s.

(** [startSessionCleanup()]; [timer] is the handle [setInterval] returns. *)
Definition startSessionCleanup (timer : nat) (s : State) : State :=
  match cleanupIntervalId s with
  | Some _ => s
  | None => set_cleanupIntervalId (Some timer) s
  end.

(** [stopSessionCleanup()] *)
Definition stopSessionCleanup (s : State) : State :=
  match cleanupIntervalId s with
  | Some _ => set_cleanupIntervalId None s
  | None => s
  end.

(** [needsSessionRebuild(existing, newConfig)] *)
Definition needsSessionRebuild (existing : V2SessionInfo) (newConfig : SessionConfig)
  : bool :=
  negb (Bool.eqb (aiBrowserEnabled (config existing)) (aiBrowserEnabled newConfig)).

(** [closeV2SessionForRebuild(conversationId)] *)
Definition closeV2SessionForRebuild (conversationId : string) (s : State) : State :=
  match mapGet conversationId (v2Sessions s) with
  | Some existing =>
      let s' := closeAndUnregister conversationId existing s in
      set_v2Sessions (mapDelete conversationId (v2Sessions s')) s'
  | None => s
  end.

(** [closeV2Session(conversationId)] *)
Definition closeV2Session (conversationId : string) (s : State) : State :=
  match mapGet conversationId (v2Sessions s) with
  | Some found =>
      let s' := closeAndUnregister conversationId found s in
      set_v2Sessions (mapDelete conversationId (v2Sessions s')) s'
  | None => s
  end.

(** [closeAllV2Sessions()] *)
Definition closeAllV2Sessions (s : State) : State :=
  let s' := fold_left (fun acc kv => closeAndUnregister (fst kv) (snd kv) acc)
                      (v2Sessions s) s in
  stopSessionCleanup (set_v2Sessions [] s').

(** [invalidateAllSessions()] *)
Definition invalidateAllSessions (s : State) : State :=
  if (length (v2Sessions s) =? 0)%nat then s
  else
    let s1 :=
      fold_left
        (fun acc kv =>
           (* If a request is in flight, defer closing until it finishes *)
           if setHas (fst kv) (activeSessions acc)
           then set_pendingInvalidations (setAdd (fst kv) (pendingInvalidations acc)) acc
           else closeAndUnregister (fst kv) (snd kv) acc)
        (v2Sessions s) s in
    (* Remove only sessions that were closed immediately *)
    fold_left
      (fun acc convId =>
         if negb (setHas convId (activeSessions acc))
         then set_v2Sessions (mapDelete convId (v2Sessions acc)) acc
         else acc)
      (map fst (v2Sessions s1)) s1.

(** [registerActiveSession(conversationId, state)] *)
Definition registerActiveSession (conversationId : string) (s : State) : State :=
  set_activeSessions (setAdd conversationId (activeSessions s)) s.

(** [unregisterActiveSession(conversationId)] *)
Definition unregisterActiveSession (conversationId : string) (s : State) : State :=
  let s1 := set_activeSessions (setDelete conversationId (activeSessions s)) s in
  if setHas conversationId (pendingInvalidations s1)
  then
    closeV2Session conversationId
      (set_pendingInvalidations (setDelete conversationId (pendingInvalidations s1)) s1)
  else s1.

(** Truthiness of an optional string. *)
Definition given (o : option string) : bool :=
  match o with
  | Some EmptyString | None => false
  | Some _ => true
  end.

(** What [getOrCreateV2Session] has decided when it reaches its [await]:
    to hand back the session it holds, or to create one, resuming
    [resume] if there is one. *)
Inductive Begun : Type :=
| Reuse (existing : nat)
| Create (resume : option string).

Definition touch (now : Z) (v2 : V2SessionInfo) : V2SessionInfo :=
  {| session := session v2; spaceId := spaceId v2;
     conversationId := conversationId v2; createdAt := createdAt v2;
     lastUsedAt := now; config := config v2 |}.

(** [getOrCreateV2Session], up to the call of the SDK. [migration] is what
    [migrateSessionIfNeeded(workDir, sessionId)] answers, or throws. *)
Definition getOrCreateV2Session_begin (conversationId : string)
    (sessionId : option string) (newConfig : option SessionConfig)
    (workDir : option string) (migration : result bool) (now : Z) (s : State)
  : result Begun * State :=
  let create (s' : State) : result Begun * State :=
    if given sessionId && given workDir then
      match migration with
      | Ok true => (Ok (Create sessionId), s')
      | Ok false => (Ok (Create None), s')   (* start a fresh conversation *)
      | Throw e => (Throw e, s')
      end
    else (Ok (Create (if given sessionId then sessionId else None)), s') in
  match mapGet conversationId (v2Sessions s) with
  | Some existing =>
      if match newConfig with
         | Some c => needsSessionRebuild existing c
         | None => false
         end
      then create (closeV2SessionForRebuild conversationId s)
      else
        (Ok (Reuse (session existing)),
         set_v2Sessions (mapSet conversationId (touch now existing) (v2Sessions s)) s)
  | None => create s
  end.

(** [getOrCreateV2Session], from the answer of the SDK on: [created] is the
    new session and the pid it reports, or the rejection. *)
Definition getOrCreateV2Session_end (space conversation : string)
    (newConfig : option SessionConfig) (created : result (nat * option Z))
    (now : Z) (timer : nat) (s : State) : result nat * State :=
  match created with
  | Throw e => (Throw e, s)
  | Ok (newSession, newPid) =>
      (* Register with health system for orphan detection *)
      let s1 :=
        match getCurrentInstanceId (registry s) with
        | Some instance =>
            if String.eqb instance "" then s
            else
              set_registry
                (registerProcess
                   {| id := conversation; pid := newPid; type := v2_session;
                      instanceId := instance; startedAt := now |}
                   (registry s)) s
        | None => s
        end in
      (* Store session with config *)
      let stored :=
        {| session := newSession; spaceId := space; conversationId := conversation;
           createdAt := now; lastUsedAt := now;
           config := match newConfig with
                     | Some c => c
                     | None => {| aiBrowserEnabled := false |}
                     end |} in
      let s2 := set_v2Sessions (mapSet conversation stored (v2Sessions s1)) s1 in
      (Ok newSession, startSessionCleanup timer s2)
  end.

(** What can happen to the session manager and to the registry it shares
    with the health system. The two halves of [getOrCreateV2Session] are
    separate inputs: anything can run between them. *)
Inductive Input : Type :=
| Begin (conversation : string) (sessionId : option string)
        (newConfig : option SessionConfig) (workDir : option string)
        (migration : result bool) (now : Z)
| Finish (space conversation : string) (newConfig : option SessionConfig)
         (created : result (nat * option Z)) (now : Z) (timer : nat)
| CloseSession (conversation : string)
| CloseAll
| InvalidateAll
| RegisterActive (conversation : string)
| UnregisterActive (conversation : string)
| CleanupTick (now : Z)
| HealthUnregisters (entryId : string) (t : ProcessType)
| TunnelRegistered (entryId : string) (tunnelPid : option Z) (instance : string) (now : Z).

Definition step (s : State) (i : Input) : State :=
  match i with
  | Begin conversation sessionId newConfig workDir migration now =>
      snd (getOrCreateV2Session_begin conversation sessionId newConfig workDir
             migration now s)
  | Finish space conversation newConfig created now timer =>
      snd (getOrCreateV2Session_end space conversation newConfig created now timer s)
  | CloseSession conversation => closeV2Session conversation s
  | CloseAll => closeAllV2Sessions s
  | InvalidateAll => invalidateAllSessions s
  | RegisterActive conversation => registerActiveSession conversation s
  | UnregisterActive conversation => unregisterActiveSession conversation s
  | CleanupTick now => cleanupTick now s
  | HealthUnregisters entryId t =>
      set_registry (unregisterProcess entryId t (registry s)) s
  | TunnelRegistered entryId tunnelPid instance now =>
      set_registry
        (registerProcess
           {| id := entryId; pid := tunnelPid; type := tunnel;
              instanceId := instance; startedAt := now |} (registry s)) s
  end.

Definition run (inputs : list Input) (s : State) : State := fold_left step inputs s.

Definition mapHas {V : Type} (k : string) (m : list (string * V)) : bool :=
  match mapGet k m with Some _ => true | None => false end.

(** Every session entry of the registry has its session in the map. *)
Definition tracked (s : State) : Prop :=
  forall e, In e (processes (registry s)) -> type e = v2_session ->
            mapHas (id e) (v2Sessions s) = true.

Definition fresh (instance : string) : State :=
  {| activeSessions := []; v2Sessions := []; pendingInvalidations := [];
     cleanupIntervalId := None;
     registry := {| currentInstanceId := Some instance; processes := [] |};
     closed := [] |}.

(** Two conversations are opened; the first has a request in flight when
    the API configuration changes. *)
Definition twoSessions : State :=
  run [ Finish "space" "conv-a" None (Ok (1, Some 501%Z)) 100 7;
        Finish "space" "conv-b" None (Ok (2, Some 502%Z)) 200 7;
        RegisterActive "conv-a" ]
      (fresh "run-2").

End SessionManager.

(* ------------------------------------------------------------------ *)
(** ** The config service: credential migration and the API signature *)

Module ConfigService.
Import Js ConfigProbe.

Definition ENCRYPTED_PREFIX : string := "enc:".

(** [isEncryptedValue(value)] *)
Definition isEncryptedValue (v : value) : bool :=
  match v with
  | Some (JStr s) => prefix ENCRYPTED_PREFIX s
  | _ => false
  end.

(** [tryDecrypt(value)]: [Some] for [{ success: true, value }]. *)
Definition tryDecrypt (decryptString : string -> string) (v : string) : option string :=
  let decrypted := decryptString v in
  if negb (String.eqb decrypted "") && negb (prefix ENCRYPTED_PREFIX decrypted)
  then Some decrypted
  else None.

Record MigrationResult : Type := mkMigrationResult {
  migrated : bool;
  fields : list string;
  failures : list string
}.

Definition nothingMigrated : MigrationResult :=
  {| migrated := false; fields := []; failures := [] |}.

(** [o[k] = v] on an object of the parsed document. *)
Definition setProp (k : string) (v : json) (o : json) : json :=
  match o with
  | JObj fs => JObj (RequestHandler.assign k v fs)
  | other => other
  end.

(** One "if encrypted, decrypt or clear" block, for property [k] of [o];
    [label] is the name that is logged. *)
Definition migrateField (decryptString : string -> string) (label k : string)
    (acc : json * MigrationResult) : json * MigrationResult :=
  let (o, result) := acc in
  match prop o k with
  | Some (JStr s) =>
      if prefix ENCRYPTED_PREFIX s then
        match tryDecrypt decryptString s with
        | Some decrypted =>
            (setProp k (JStr decrypted) o,
             {| migrated := true; fields := fields result ++ [label];
                failures := failures result |})
        | None =>
            (setProp k (JStr "") o,
             {| migrated := true; fields := fields result;
                failures := failures result ++ [label] |})
        end
      else acc
  | _ => acc
  end.

(** The body of the loop over [Object.entries(parsed.aiSources)]. *)
Definition migrateProvider (decryptString : string -> string) (key : string)
    (acc : json * MigrationResult) : json * MigrationResult :=
  let (v, result) := acc in
  if String.eqb key "current" || String.eqb key "custom"
     || negb (truthy (Some v)) || negb (isObject (Some v))
  then acc
  else
    migrateField decryptString ("aiSources." ++ key ++ ".refreshToken") "refreshToken"
      (migrateField decryptString ("aiSources." ++ key ++ ".accessToken") "accessToken"
         acc).

Fixpoint migrateEntries (decryptString : string -> string)
    (entries : list (string * json)) (result : MigrationResult)
  : list (string * json) * MigrationResult :=
  match entries with
  | [] => ([], result)
  | (key, v) :: rest =>
      let (v', result1) := migrateProvider decryptString key (v, result) in
      let (rest', result2) := migrateEntries decryptString rest result1 in
      ((key, v') :: rest', result2)
  end.

(** The entries of an array are its items under their indices. *)
Fixpoint migrateItems (decryptString : string -> string) (index : nat)
    (items : list json) (result : MigrationResult) : list json * MigrationResult :=
  match items with
  | [] => ([], result)
  | v :: rest =>
      let (v', result1) := migrateProvider decryptString (show_nat index) (v, result) in
      let (rest', result2) := migrateItems decryptString (S index) rest result1 in
      (v' :: rest', result2)
  end.

(** Step 1: migrate legacy [api.apiKey]. *)
Definition migrateApi (decryptString : string -> string)
    (acc : json * MigrationResult) : json * MigrationResult :=
  let (parsed, result) := acc in
  match prop parsed "api" with
  | Some api =>
      if truthy (Some api) then
        let (api', result') :=
          migrateField decryptString "api.apiKey" "apiKey" (api, result) in
        (setProp "api" api' parsed, result')
      else acc
  | None => acc
  end.

(** Step 2: migrate [aiSources.custom.apiKey]. *)
Definition migrateCustom (decryptString : string -> string)
    (acc : json * MigrationResult) : json * MigrationResult :=
  let (parsed, result) := acc in
  match prop parsed "aiSources" with
  | Some aiSources =>
      match getOpt (Some aiSources) "custom" with
      | Some custom =>
          if truthy (Some custom) then
            let (custom', result') :=
              migrateField decryptString "aiSources.custom.apiKey" "apiKey"
                (custom, result) in
            (setProp "aiSources" (setProp "custom" custom' aiSources) parsed, result')
          else acc
      | None => acc
      end
  | None => acc
  end.

(** Step 3: migrate the tokens of the OAuth providers. The list of an
    object holds its properties in the order [Object.entries] gives
    them. *)
Definition migrateProviders (decryptString : string -> string)
    (acc : json * MigrationResult) : json * MigrationResult :=
  let (parsed, result) := acc in
  match prop parsed "aiSources" with
  | Some (JObj entries) =>
      let (entries', result') := migrateEntries decryptString entries result in
      (setProp "aiSources" (JObj entries') parsed, result')
  | Some (JArr items) =>
      let (items', result') := migrateItems decryptString 0 items result in
      (setProp "aiSources" (JArr items') parsed, result')
  | _ => acc
  end.

(** [migrateEncryptedCredentials()], from the parsed document on: the
    document as it is written back when [migrated] is set, and the result.
    Reading a property of [null] throws, outside of any [try]. *)
Definition migrate (decryptString : string -> string) (parsed : json)
  : result (json * MigrationResult) :=
  match parsed with
  | JNull => Throw (typeError "api")
  | _ =>
      Ok (migrateProviders decryptString
            (migrateCustom decryptString
               (migrateApi decryptString (parsed, nothingMigrated))))
  end.

(** [x || ''] *)
Definition orEmpty (v : value) : json :=
  match v with
  | Some x => if truthy (Some x) then x else JStr ""
  | None => JStr ""
  end.

(** [aiSources.current || 'custom'] *)
Definition currentOf (aiSources : value) : json :=
  match getOpt aiSources "current" with
  | Some current => if truthy (Some current) then current else JStr "custom"
  | None => JStr "custom"
  end.

Section Signature.
(** JavaScript's conversion to a string of a value that is not one. *)
Context (toString : json -> string).

Definition str (v : json) : string :=
  match v with
  | JStr x => x
  | other => toString other
  end.

(** [parts.join('|')] *)
Definition joinBar (parts : list json) : string := String.concat "|" (map str parts).

(** [getAiSourcesSignature(aiSources)]. Of the members an object inherits
    only [__proto__] is an object; it has none of the properties read. *)
Definition getAiSourcesSignature (aiSources : value) : json :=
  if negb (truthy aiSources) then JStr ""
  else
    let current := currentOf aiSources in
    if strictEq (Some current) (Some (JStr "custom")) then
      let custom := getOpt aiSources "custom" in
      JStr (joinBar [JStr "custom"; orEmpty (getOpt custom "provider");
                     orEmpty (getOpt custom "apiUrl"); orEmpty (getOpt custom "apiKey")])
    else
      let currentConfig :=
        if String.eqb (str current) "__proto__" then Some (JObj [])
        else getOpt aiSources (str current) in
      if truthy currentConfig && isObject currentConfig then
        JStr (joinBar [JStr "oauth"; current;
                       orEmpty (getOpt currentConfig "accessToken");
                       orEmpty (getOpt currentConfig "refreshToken");
                       orEmpty (getOpt currentConfig "tokenExpires")])
      else current.

End Signature.

(** [migrated] is set exactly when something was logged. *)
Definition consistent (r : MigrationResult) : Prop :=
  migrated r = true <-> (fields r ++ failures r)%list <> [].

(** No encrypted [api.apiKey]. *)
Definition apiClean (parsed : json) : Prop :=
  match prop parsed "api" with
  | Some api => truthy (Some api) = true -> isEncryptedValue (prop api "apiKey") = false
  | None => True
  end.

(** No encrypted [aiSources.custom.apiKey]. *)
Definition customClean (parsed : json) : Prop :=
  match getOpt (prop parsed "aiSources") "custom" with
  | Some custom =>
      truthy (Some custom) = true -> isEncryptedValue (prop custom "apiKey") = false
  | None => True
  end.

(** The sources with the [model] of the source under [key] set to [m]. *)
Definition withModel (key : string) (m : json) (aiSources : json) : json :=
  match prop aiSources key with
  | Some source => setProp key (setProp "model" m source) aiSources
  | None => aiSources
  end.

(** The sources with the [apiKey] of the custom source set to [k]. *)
Definition withApiKey (k : string) (aiSources : json) : json :=
  match prop aiSources "custom" with
  | Some custom => setProp "custom" (setProp "apiKey" (JStr k) custom) aiSources
  | None => aiSources
  end.

(** A configuration written by version 1.2.10: the key of the custom
    source and the tokens of one provider are encrypted. *)
Definition legacyConfig : json :=
  JObj [("api", JObj [("provider", JStr "anthropic"); ("apiKey", JStr "enc:AAAA")]);
        ("aiSources",
         JObj [("current", JStr "custom");
               ("custom", JObj [("provider", JStr "openai"); ("apiKey", JStr "enc:BBBB")]);
               ("github", JObj [("accessToken", JStr "enc:CCCC");
                                ("refreshToken", JStr "plain")])])].

(** A keychain that only knows the first key. *)
Definition demoDecrypt (v : string) : string :=
  if String.eqb v "enc:AAAA" then "sk-ant-1" else "".

End ConfigService.

(* ================================================================== *)
(** * Part II: properties                                              *)
(* ================================================================== *)

(** ** URL normalisation *)

Section UrlFacts.
Import Js Url.

Example normalizeApiUrl_base :
  normalizeApiUrl "https://api.openai.com/" OpenAI
  = "https://api.openai.com/v1/chat/completions".
Proof. reflexivity. Qed.

Example normalizeApiUrl_partial :
  normalizeApiUrl "https://host/api/v1/chat" OpenAI
  = "https://host/api/v1/chat/completions".
Proof. reflexivity. Qed.

Example normalizeApiUrl_responses :
  normalizeApiUrl "https://host/v1/responses//" OpenAI = "https://host/v1/responses".
Proof. reflexivity. Qed.

Example normalizeApiUrl_anthropic :
  normalizeApiUrl "https://api.anthropic.com///" Anthropic = "https://api.anthropic.com".
Proof. reflexivity. Qed.

Lemma trimSlash_idempotent (s : string) : trimSlash (trimSlash s) = trimSlash s.
Proof.
  induction s as [|c rest IH]; simpl; [reflexivity|].
  destruct (trimSlash rest) as [|c' rest'] eqn:E.
  - destruct (Ascii.eqb c "/"%char) eqn:Ec; simpl; [reflexivity|].
    now rewrite Ec.
  - change (trimSlash (String c (String c' rest'))) with
      (match trimSlash (String c' rest') with
       | EmptyString => if Ascii.eqb c "/"%char then EmptyString else String c EmptyString
       | String a b => String c (String a b)
       end).
    now rewrite IH.
Qed.

(** A string that ends in a non-empty, slash-free ending is left alone. *)
Lemma trimSlash_append_fixed (x y : string) :
  y <> EmptyString -> trimSlash y = y -> trimSlash (x ++ y) = x ++ y.
Proof.
  intros Hy Hfix. induction x as [|c x IH]; simpl; [exact Hfix|].
  rewrite IH. destruct (x ++ y) eqn:E; [|reflexivity].
  destruct x; simpl in E; [contradiction|discriminate].
Qed.

Lemma substring_append_tail (x y : string) :
  substring (String.length x) (String.length y) (x ++ y) = y.
Proof.
  induction x as [|c x IH]; simpl; [|exact IH].
  induction y as [|d y IHy]; simpl; [reflexivity|now rewrite IHy].
Qed.

Lemma length_append (x y : string) :
  String.length (x ++ y) = String.length x + String.length y.
Proof. induction x as [|c x IH]; simpl; [reflexivity|now rewrite IH]. Qed.

Lemma endsWith_append (x suffix : string) : endsWith (x ++ suffix) suffix = true.
Proof.
  unfold endsWith. rewrite length_append.
  replace (String.length x + String.length suffix - String.length suffix)
    with (String.length x) by lia.
  rewrite substring_append_tail. apply String.eqb_refl.
Qed.

Lemma normalizeApiUrl_openai_shape (u : string) :
  (endsWith (trimSlash u) "/chat/completions" || endsWith (trimSlash u) "/responses" = true
   /\ normalizeApiUrl u OpenAI = trimSlash u)
  \/ exists x, normalizeApiUrl u OpenAI = x ++ "/chat/completions".
Proof.
  unfold normalizeApiUrl.
  destruct (endsWith (trimSlash u) "/chat/completions" || endsWith (trimSlash u) "/responses")
    eqn:E.
  - left. split; reflexivity.
  - right. eexists. reflexivity.
Qed.

(** C10. [normalizeApiUrl] is idempotent for both providers, and for the
    OpenAI-compatible provider its result always ends with
    ["/chat/completions"] or ["/responses"]. *)
Theorem normalizeApiUrl_idempotent (u : string) :
  (forall p : provider, normalizeApiUrl (normalizeApiUrl u p) p = normalizeApiUrl u p)
  /\ (endsWith (normalizeApiUrl u OpenAI) "/chat/completions"
      || endsWith (normalizeApiUrl u OpenAI) "/responses") = true.
Proof.
  split.
  - intros [|].
    + apply trimSlash_idempotent.
    + destruct (normalizeApiUrl_openai_shape u) as [[Hend Heq]|[x Heq]]; rewrite Heq.
      * unfold normalizeApiUrl. rewrite trimSlash_idempotent, Hend. reflexivity.
      * unfold normalizeApiUrl.
        rewrite (trimSlash_append_fixed x "/chat/completions");
          [|discriminate|reflexivity].
        rewrite endsWith_append. reflexivity.
  - destruct (normalizeApiUrl_openai_shape u) as [[Hend Heq]|[x Heq]]; rewrite Heq.
    + exact Hend.
    + rewrite endsWith_append. reflexivity.
Qed.

End UrlFacts.

(** ** The config probe *)

Section ConfigProbeFacts.
Import Js Types ConfigProbe.

Example probe_missing_file :
  severity (runConfigProbe (mkEnv false (Throw (mkError "ENOENT")) (fun _ => Ok JNull)
                              (fun _ => "") 0)) = info.
Proof. reflexivity. Qed.

Example probe_null_document : severity (runConfigProbe (asFile JNull)) = critical.
Proof. reflexivity. Qed.

Example probe_no_permissions :
  severity (runConfigProbe
              (asFile (JObj [("aiSources", JObj [("current", JStr "custom")])])))
  = critical.
Proof. reflexivity. Qed.

Example probe_v1_no_key : severity (runConfigProbe (asFile (v1Config "custom" ""))) = warning.
Proof. reflexivity. Qed.

Example probe_v1_with_key :
  severity (runConfigProbe (asFile (v1Config "custom" "sk-live"))) = info.
Proof. reflexivity. Qed.

Example probe_v2_no_current :
  severity (runConfigProbe (asFile (v2Config JNull (JArr [source "a" "api-key" "k"]))))
  = warning.
Proof. reflexivity. Qed.

Example probe_v2_with_key :
  severity (runConfigProbe
              (asFile (v2Config (JStr "a") (JArr [source "a" "api-key" "k"])))) = info.
Proof. reflexivity. Qed.

(** A [sources] that is not an array interrupts the probe: the outer
    [catch] reports the failure as critical. *)
Example probe_v2_sources_not_an_array :
  severity (runConfigProbe (asFile (v2Config (JStr "a") (JStr "oops")))) = critical.
Proof. reflexivity. Qed.

Lemma inspect_not_null (env : Env) (config : json) :
  criticalFieldsOf config = true ->
  get (Some config) "aiSources" = Ok (prop config "aiSources").
Proof. destruct config; try reflexivity. discriminate. Qed.

Lemma inspect_critical (env : Env) (config : json) :
  criticalFieldsOf config = false -> severity (inspect env config) = critical.
Proof.
  unfold inspect, criticalFieldsOf. intros H.
  destruct config; try reflexivity;
    cbn [get]; rewrite H;
    match goal with
    | |- context [checkApiKey ?e ?a] => destruct (checkApiKey e a)
    end; reflexivity.
Qed.

Lemma inspect_warning (env : Env) (config : json) :
  criticalFieldsOf config = true ->
  checkApiKey env (prop config "aiSources") = Ok false ->
  severity (inspect env config) = warning /\ probe_healthy (inspect env config) = true.
Proof.
  intros Hc Hk. unfold inspect. rewrite (inspect_not_null env config Hc), Hk.
  unfold criticalFieldsOf in Hc. rewrite Hc. split; reflexivity.
Qed.

Lemma findById_objects (currentId : value) (items : list json) :
  forallb (fun s => match s with JObj _ => true | _ => false end) items = true ->
  is_ok (findById currentId items) = true.
Proof.
  induction items as [|s items IH]; [reflexivity|].
  cbn [forallb findById]. intros H. apply andb_true_iff in H. destruct H as [Hs Hrest].
  destruct s; try discriminate. cbn [get bind].
  destruct (strictEq _ _); [reflexivity|]. apply IH. exact Hrest.
Qed.

Lemma checkApiKey_well_typed (env : Env) (config : json) :
  sourcesWellTyped config = true ->
  is_ok (checkApiKey env (prop config "aiSources")) = true.
Proof.
  unfold sourcesWellTyped, checkApiKey. intros H.
  destruct (isV2 (prop config "aiSources")).
  - assert (Hfind : is_ok (findSource (getOpt (prop config "aiSources") "sources")
                             (getOpt (prop config "aiSources") "currentId")) = true).
    { unfold findSource.
      destruct (getOpt (prop config "aiSources") "sources") as [[| | | |items|]|];
        try reflexivity; try discriminate.
      apply findById_objects. exact H. }
    destruct (findSource _ _) as [cur|e]; [|discriminate]. cbn [bind].
    destruct (truthy cur); [|reflexivity].
    destruct cur as [src|]; [|reflexivity].
    destruct (strictEq _ _); [reflexivity|]. destruct (strictEq _ _); reflexivity.
  - destruct (strictEq _ _); [reflexivity|].
    destruct (truthy _); [|reflexivity].
    destruct (getOpt (prop config "aiSources") "current") as [[]|]; reflexivity.
Qed.

Lemma hasCriticalFields_code (config : json) :
  criticalFieldsOf config = hasCriticalFields config.
Proof.
  unfold criticalFieldsOf, hasCriticalFields, hasAiSourcesCurrent, activeSourceField,
    version2, isV2.
  destruct (prop config "permissions") as [[| | | |items|fs]|]; cbn [isObject];
    rewrite ?andb_false_r, ?andb_true_r; try reflexivity;
    (destruct (strictEq (getOpt (prop config "aiSources") "version") (Some two));
     [ destruct (getOpt (prop config "aiSources") "currentId") as [[]|]; reflexivity
     | destruct (prop config "aiSources") as [[| | | |l|l]|]; cbn [getOpt prop truthy];
       rewrite ?andb_false_r; try reflexivity;
       match goal with
       | |- context [lookup "current" ?fields] =>
           destruct (lookup "current" fields) as [[]|]
       end; reflexivity ]).
Qed.

Lemma missing_not_valid (config : json) :
  missingCriticalField config = true -> hasCriticalFields config = false.
Proof.
  unfold missingCriticalField, hasCriticalFields.
  destruct (prop config "permissions") as [[| | | |items|fs]|]; try reflexivity;
    destruct (getOpt (prop config "aiSources") (activeSourceField config)) as [[]|];
    try reflexivity; discriminate.
Qed.

Lemma findById_firstWithId (currentId : value) (items : list json) :
  forallb (fun s => match s with JObj _ => true | _ => false end) items = true ->
  findById currentId items = Ok (firstWithId currentId items).
Proof.
  induction items as [|s items IH]; [reflexivity|].
  cbn [forallb findById firstWithId]. intros H. apply andb_true_iff in H as [Hs Hrest].
  destruct s; try discriminate. cbn [get bind prop].
  destruct (strictEq _ _); [reflexivity|]. apply IH. exact Hrest.
Qed.

Lemma firstWithId_object (currentId : value) (items : list json) (found : json) :
  forallb (fun s => match s with JObj _ => true | _ => false end) items = true ->
  firstWithId currentId items = Some found -> exists fs, found = JObj fs.
Proof.
  induction items as [|s items IH]; [discriminate|].
  cbn [forallb firstWithId]. intros H. apply andb_true_iff in H as [Hs Hrest].
  destruct (strictEq _ _).
  - intros E. injection E as <-. destruct s; try discriminate. eauto.
  - apply IH. exact Hrest.
Qed.

(** The credential check of the probe finds what the specification calls
    the credentials of the active source. *)
Lemma checkApiKey_credentials (env : Env) (config : json) :
  hasCriticalFields config = true -> sourcesWellTyped config = true ->
  checkApiKey env (prop config "aiSources") = Ok (negb (noCredentials config)).
Proof.
  unfold hasCriticalFields, sourcesWellTyped, checkApiKey, noCredentials,
    activeCredential, activeSourceField, version2, isV2.
  intros Hc Hs.
  destruct (strictEq (getOpt (prop config "aiSources") "version") (Some two)).
  - unfold findSource.
    destruct (getOpt (prop config "aiSources") "sources") as [[| | | |items|]|];
      try discriminate; try reflexivity.
    rewrite (findById_firstWithId _ items Hs). cbn [bind].
    destruct (firstWithId _ items) as [found|] eqn:Ef; [|reflexivity].
    destruct (firstWithId_object _ _ _ Hs Ef) as [fs ->]. cbn [truthy prop].
    destruct (lookup "authType" fs) as [[| | |t| |]|]; try reflexivity.
    cbn [strictEq].
    destruct (String.eqb t "api-key").
    + unfold nonEmptyString. destruct (lookup "apiKey" fs) as [[]|]; reflexivity.
    + destruct (String.eqb t "oauth"); [|reflexivity].
      unfold nonEmptyString. destruct (lookup "accessToken" fs) as [[]|]; reflexivity.
  - destruct (prop config "permissions") as [[| | | |items|fs]|]; try discriminate;
      (destruct (getOpt (prop config "aiSources") "current") as [[| | |name| |]|];
       try discriminate; cbn [strictEq truthy];
       destruct (String.eqb name "custom");
       [ unfold nonEmptyString;
         destruct (getOpt (getOpt (prop config "aiSources") "custom") "apiKey") as [[]|];
         reflexivity
       | destruct (String.eqb name ""); cbn [negb]; [reflexivity|];
         unfold nonEmptyString;
         destruct (getOpt (getOpt (prop config "aiSources") name) "accessToken") as [[]|];
         reflexivity ]).
Qed.

Lemma inspect_classified (env : Env) (config : json) (configured : bool) :
  criticalFieldsOf config = true ->
  checkApiKey env (prop config "aiSources") = Ok configured ->
  severity (inspect env config) = (if configured then info else warning)
  /\ probe_healthy (inspect env config) = true.
Proof.
  intros Hc Hk. unfold inspect. rewrite (inspect_not_null env config Hc), Hk.
  unfold criticalFieldsOf in Hc. rewrite Hc. destruct configured; split; reflexivity.
Qed.

(** C9. The config probe classifies the configuration. No file: severity
    [info]. A file that cannot be read and parsed as JSON: [critical]. A
    parsed document without its schema-critical fields, in particular one
    in which [permissions] or the field of [aiSources] that names the
    active source is missing: [critical]. A document that has them, its
    [sources] being absent or an array of objects: [warning] (and
    [healthy]) when no credentials are configured for the active source,
    and [info] when there are. The classes are read off the document, not
    taken from the probe. *)
Theorem runConfigProbe_classification (env : Env) (config : json) :
  (existsSync env = false -> severity (runConfigProbe env) = info)
  /\ (existsSync env = true -> is_throw (readConfig env) = true ->
      severity (runConfigProbe env) = critical)
  /\ (existsSync env = true -> readConfig env = Ok config ->
      (missingCriticalField config = true -> severity (runConfigProbe env) = critical)
      /\ (hasCriticalFields config = false -> severity (runConfigProbe env) = critical)
      /\ (hasCriticalFields config = true -> sourcesWellTyped config = true ->
          probe_healthy (runConfigProbe env) = true
          /\ (noCredentials config = true -> severity (runConfigProbe env) = warning)
          /\ (noCredentials config = false -> severity (runConfigProbe env) = info))).
Proof.
  unfold runConfigProbe. split; [|split].
  - intros ->. reflexivity.
  - intros -> H. cbn [negb]. destruct (readConfig env); [discriminate|reflexivity].
  - intros -> ->. cbn [negb]. split; [|split].
    + intros H. apply inspect_critical. rewrite hasCriticalFields_code.
      apply missing_not_valid. exact H.
    + intros H. apply inspect_critical. rewrite hasCriticalFields_code. exact H.
    + intros Hc Hs.
      assert (Hcode : criticalFieldsOf config = true)
        by (rewrite hasCriticalFields_code; exact Hc).
      destruct (inspect_classified env config _ Hcode
                  (checkApiKey_credentials env config Hc Hs)) as [Hsev Hh].
      split; [exact Hh|]. rewrite Hsev.
      split; intros ->; reflexivity.
Qed.

(** The classes on concrete files: no file; a file that is not JSON; a
    document with [permissions] and without [aiSources.currentId]; a
    document with [aiSources.current] and without [permissions]; and a
    well-formed document whose active source has an empty API key. *)
Lemma runConfigProbe_witness :
  severity (runConfigProbe (mkEnv false (Throw (mkError "ENOENT")) (fun _ => Ok JNull)
                              (fun _ => "") 0)) = info
  /\ severity (runConfigProbe
                 (mkEnv true (Ok "{oops") (fun _ => Throw (mkError "Unexpected token o"))
                    (fun _ => "") 0)) = critical
  /\ severity (runConfigProbe
                 (asFile (JObj [("aiSources", JObj [("version", two)]);
                                ("permissions", JObj [])])))
     = critical
  /\ severity (runConfigProbe
                 (asFile (JObj [("aiSources", JObj [("current", JStr "custom")])])))
     = critical
  /\ severity (runConfigProbe
                 (asFile (v2Config (JStr "a") (JArr [source "a" "api-key" ""]))))
     = warning.
Proof.
  split; [|split; [|split; [|split]]].
  - destruct (runConfigProbe_classification
                (mkEnv false (Throw (mkError "ENOENT")) (fun _ => Ok JNull)
                   (fun _ => "") 0) JNull) as [H _].
    exact (H eq_refl).
  - destruct (runConfigProbe_classification
                (mkEnv true (Ok "{oops") (fun _ => Throw (mkError "Unexpected token o"))
                   (fun _ => "") 0) JNull) as [_ [H _]].
    exact (H eq_refl eq_refl).
  - destruct (runConfigProbe_classification
                (asFile (JObj [("aiSources", JObj [("version", two)]);
                               ("permissions", JObj [])]))
                (JObj [("aiSources", JObj [("version", two)]);
                       ("permissions", JObj [])])) as [_ [_ H]].
    destruct (H eq_refl eq_refl) as [H1 _]. exact (H1 eq_refl).
  - destruct (runConfigProbe_classification
                (asFile (JObj [("aiSources", JObj [("current", JStr "custom")])]))
                (JObj [("aiSources", JObj [("current", JStr "custom")])])) as [_ [_ H]].
    destruct (H eq_refl eq_refl) as [H1 _]. exact (H1 eq_refl).
  - destruct (runConfigProbe_classification
                (asFile (v2Config (JStr "a") (JArr [source "a" "api-key" ""])))
                (v2Config (JStr "a") (JArr [source "a" "api-key" ""]))) as [_ [_ H]].
    destruct (H eq_refl eq_refl) as [_ [_ H3]].
    destruct (H3 eq_refl eq_refl) as [_ [Hw _]]. exact (Hw eq_refl).
Defined.

End ConfigProbeFacts.

(** ** The startup checker *)

Section StartupCheckerFacts.
Import Js Types StartupChecker.

(** [safeProbe], by what reaches its [catch]. *)
Lemma safeProbe_caught (name : string)
    (probeFn : unit -> attempt (Promise ProbeResult)) (now : Z) :
  match caughtIn probeFn with
  | Some (AnError e) =>
      safeProbe name probeFn now
      = Ok (mkProbeResult name true warning ("Probe failed: " ++ message e) now None)
  | Some Nullish => is_throw (safeProbe name probeFn now) = true
  | None =>
      exists promise r,
        probeFn tt = Ok promise /\ outcome promise = Ok r
        /\ safeProbe name probeFn now = Ok r
  end.
Proof.
  unfold caughtIn, safeProbe, try_catch, bind, withTimeout.
  destruct (probeFn tt) as [[[t|] out]|[e|]]; cbn [settledAfter outcome];
    try reflexivity.
  destruct (Z.ltb_spec 10000 t) as [Hlt|Hge].
  - assert (Hle : (t <=? 10000)%Z = false) by (apply Z.leb_gt; exact Hlt).
    rewrite Hle. reflexivity.
  - assert (Hle : (t <=? 10000)%Z = true) by (apply Z.leb_le; exact Hge).
    rewrite Hle. destruct out as [r|[e|]]; try reflexivity.
    exists (mkPromise (Some t) (Ok r)), r. auto.
Qed.

Lemma faults_caught (probeFn : unit -> attempt (Promise ProbeResult)) :
  faults probeFn = match caughtIn probeFn with Some _ => true | None => false end.
Proof.
  unfold faults, caughtIn.
  destruct (probeFn tt) as [[[t|] out]|e]; cbn [settledAfter outcome]; try reflexivity.
  destruct (10000 <? t)%Z; cbn [orb]; [reflexivity|]. destruct out; reflexivity.
Qed.

Lemma safeProbe_escapes (name : string)
    (probeFn : unit -> attempt (Promise ProbeResult)) (now : Z) :
  is_throw (safeProbe name probeFn now) = escapes probeFn.
Proof.
  pose proof (safeProbe_caught name probeFn now) as H. unfold escapes.
  destruct (caughtIn probeFn) as [[e|]|].
  - rewrite H. reflexivity.
  - exact H.
  - destruct H as [promise [r [_ [_ ->]]]]. reflexivity.
Qed.

Lemma safeProbe_fault (name : string)
    (probeFn : unit -> attempt (Promise ProbeResult)) (now : Z) :
  faults probeFn = true -> escapes probeFn = false ->
  exists failure,
    safeProbe name probeFn now
    = Ok (mkProbeResult name true warning ("Probe failed: " ++ failure) now None).
Proof.
  rewrite faults_caught. unfold escapes.
  pose proof (safeProbe_caught name probeFn now) as H.
  destruct (caughtIn probeFn) as [[e|]|]; try discriminate.
  intros _ _. eauto.
Qed.

Lemma safeProbe_no_fault (name : string)
    (probeFn : unit -> attempt (Promise ProbeResult)) (now : Z) :
  faults probeFn = false ->
  exists r, safeProbe name probeFn now = Ok r /\ answer probeFn = [r].
Proof.
  intros F. unfold answer. rewrite F. rewrite faults_caught in F.
  pose proof (safeProbe_caught name probeFn now) as H.
  destruct (caughtIn probeFn) as [x|]; [discriminate|].
  destruct H as [promise [r [Hp [Ho Hs]]]]. exists r. rewrite Hp, Ho. auto.
Qed.

Lemma allProbes_throws (env : Env) :
  is_throw (allProbes env)
  = escapes (runConfigProbe env) || escapes (runPortProbe env)
    || escapes (runDiskProbe env) || escapes (runProcessProbe env).
Proof.
  unfold allProbes.
  rewrite <- (safeProbe_escapes "config" _ (catchTime env "config")),
    <- (safeProbe_escapes "port" _ (catchTime env "port")),
    <- (safeProbe_escapes "disk" _ (catchTime env "disk")),
    <- (safeProbe_escapes "process" _ (catchTime env "process")).
  destruct (safeProbe "config" _ _); [|reflexivity].
  destruct (safeProbe "port" _ _); [|reflexivity].
  destruct (safeProbe "disk" _ _); [|reflexivity].
  destruct (safeProbe "process" _ _); reflexivity.
Qed.

Lemma allProbes_results (env : Env) :
  escapes (runConfigProbe env) || escapes (runPortProbe env)
  || escapes (runDiskProbe env) || escapes (runProcessProbe env) = false ->
  exists c p d q,
    safeProbe "config" (runConfigProbe env) (catchTime env "config") = Ok c
    /\ safeProbe "port" (runPortProbe env) (catchTime env "port") = Ok p
    /\ safeProbe "disk" (runDiskProbe env) (catchTime env "disk") = Ok d
    /\ safeProbe "process" (runProcessProbe env) (catchTime env "process") = Ok q
    /\ allProbes env = Ok [c; p; d; q].
Proof.
  rewrite <- allProbes_throws. unfold allProbes.
  destruct (safeProbe "config" _ _) as [c|]; [|discriminate].
  destruct (safeProbe "port" _ _) as [p|]; [|discriminate].
  destruct (safeProbe "disk" _ _) as [d|]; [|discriminate].
  destruct (safeProbe "process" _ _) as [q|]; [|discriminate].
  intros _. exists c, p, d, q. cbn [bind]. auto.
Qed.

Lemma interrupted_split (env : Env) :
  interrupted env
  = is_throw (wasLastExitClean env)
    || (escapes (runConfigProbe env) || escapes (runPortProbe env)
        || escapes (runDiskProbe env) || escapes (runProcessProbe env)).
Proof. unfold interrupted. now rewrite !orb_assoc. Qed.

Lemma runStartupChecks_interrupted (env : Env) :
  interrupted env = true ->
  probes (runStartupChecks env) = [] /\ status (runStartupChecks env) = healthy.
Proof.
  rewrite interrupted_split, <- allProbes_throws. unfold runStartupChecks.
  destruct (wasLastExitClean env); cbn [is_throw orb]; [|split; reflexivity].
  destruct (allProbes env); [discriminate|]. split; reflexivity.
Qed.

Lemma runStartupChecks_probes (env : Env) :
  interrupted env = false ->
  exists c p d q,
    safeProbe "config" (runConfigProbe env) (catchTime env "config") = Ok c
    /\ safeProbe "port" (runPortProbe env) (catchTime env "port") = Ok p
    /\ safeProbe "disk" (runDiskProbe env) (catchTime env "disk") = Ok d
    /\ safeProbe "process" (runProcessProbe env) (catchTime env "process") = Ok q
    /\ probes (runStartupChecks env) = [c; p; d; q]
    /\ status (runStartupChecks env)
       = if is_throw (logResults [c; p; d; q]) then healthy
         else determineOverallStatus [c; p; d; q].
Proof.
  rewrite interrupted_split. intros H. apply orb_false_iff in H as [Hclean Hesc].
  destruct (allProbes_results env Hesc) as [c [p [d [q [Hc [Hp [Hd [Hq Hall]]]]]]]].
  exists c, p, d, q. repeat (split; [assumption|]).
  unfold runStartupChecks. destruct (wasLastExitClean env); [|discriminate].
  rewrite Hall. destruct (logResults [c; p; d; q]); split; reflexivity.
Qed.




End StartupCheckerFacts.

(** ** Platform operations on Windows *)

Section Win32Facts.
Import Js Types Win32ProcessOps.

Lemma killProcess_outcome {World : Type} (os : OS World) (pid : Z) (signal : string)
    (w : World) :
  killProcess os pid signal w
  = (if is_throw (fst (execAsync os (taskkill pid signal) 5000 w))
        && isProcessAlive os pid (snd (execAsync os (taskkill pid signal) 5000 w))
     then Throw (mkError ("Failed to terminate process " ++ show_Z pid))
     else Ok tt,
     snd (execAsync os (taskkill pid signal) 5000 w)).
Proof.
  unfold killProcess.
  destruct (execAsync os (taskkill pid signal) 5000 w) as [[out|e] w']; simpl.
  - reflexivity.
  - destruct (isProcessAlive os pid w'); reflexivity.
Qed.

(** C6, as the code has it. [killProcess] looks at [isProcessAlive] only
    when the kill command itself reported an error: it fails exactly when
    the command errored and the process is then found alive, whatever the
    text of the command's error; when the command errored and the process
    is gone it succeeds; and when the command reported success it succeeds
    without looking. *)
Theorem killProcess_goal_based {World : Type} (os : OS World) (pid : Z)
    (signal : string) (w : World) :
  let tool := fst (execAsync os (taskkill pid signal) 5000 w) in
  let w' := snd (execAsync os (taskkill pid signal) 5000 w) in
  let r := fst (killProcess os pid signal w) in
  (is_throw r = true <-> is_throw tool = true /\ isProcessAlive os pid w' = true)
  /\ (forall e, r = Throw e ->
        e = mkError ("Failed to terminate process " ++ show_Z pid))
  /\ (is_throw tool = true /\ isProcessAlive os pid w' = false -> r = Ok tt)
  /\ (is_throw tool = false -> r = Ok tt).
Proof.
  cbv zeta. rewrite killProcess_outcome. simpl.
  destruct (is_throw (fst (execAsync os (taskkill pid signal) 5000 w)));
    destruct (isProcessAlive os pid (snd (execAsync os (taskkill pid signal) 5000 w)));
    simpl; repeat split; try tauto; try discriminate; try congruence.
  all: intros; intuition congruence.
Qed.

(** The kill command reports success while the process stays alive:
    [killProcess] succeeds, and nothing has been verified. *)
Lemma killProcess_unverified_success :
  let os := demoOS (Ok "SUCCESS: Sent termination signal to the process with PID 4242.")
                   false in
  fst (killProcess os 4242 "SIGTERM" [4242%Z]) = Ok tt
  /\ isProcessAlive os 4242 (snd (killProcess os 4242 "SIGTERM" [4242%Z])) = true.
Proof. split; reflexivity. Qed.

Example killProcess_error_but_gone :
  fst (killProcess (demoOS (Throw (mkError "ERROR: The process 4242 not found.")) true)
         4242 "SIGTERM" [4242%Z]) = Ok tt.
Proof. reflexivity. Qed.

Example killProcess_error_still_alive :
  fst (killProcess (demoOS (Throw (mkError "Zugriff verweigert")) false)
         4242 "SIGKILL" [4242%Z])
  = Throw (mkError "Failed to terminate process 4242").
Proof. reflexivity. Qed.

End Win32Facts.

(** ** The process cleaner *)

Section CleanerFacts.
Import Js Types Platform Registry Cleaner.

Lemma filter_complement {A : Type} (f : A -> bool) (l : list A) :
  filter (fun x => negb (f x)) (filter f l) = [].
Proof.
  induction l as [|x l IH]; simpl; [reflexivity|].
  destruct (f x) eqn:E; simpl; [rewrite E; simpl|]; exact IH.
Qed.

Lemma filter_twice {A : Type} (f : A -> bool) (l : list A) :
  filter f (filter f l) = filter f l.
Proof.
  induction l as [|x l IH]; simpl; [reflexivity|].
  destruct (f x) eqn:E; simpl; [rewrite E, IH|]; auto.
Qed.

Lemma orphans_cleared (st : Registry.State) :
  getOrphanProcesses (clearOrphanEntries st) = [].
Proof. unfold getOrphanProcesses, clearOrphanEntries. simpl. apply filter_complement. Qed.

Lemma current_kept (st : Registry.State) :
  getCurrentProcesses (clearOrphanEntries st) = getCurrentProcesses st.
Proof. unfold getCurrentProcesses, clearOrphanEntries. simpl. apply filter_twice. Qed.

Lemma clearOrphanEntries_idempotent (st : Registry.State) :
  clearOrphanEntries (clearOrphanEntries st) = clearOrphanEntries st.
Proof. unfold clearOrphanEntries. simpl. now rewrite filter_twice. Qed.

Context {World : Type} (platformOps : PlatformProcessOps World).

(** With an instance identifier set, the registry after the pass is the old
    one without its orphan entries, whatever the kills did. *)
Lemma cleanupOrphans_registry (st : Registry.State) (w : World) (cur : string) :
  getCurrentInstanceId st = Some cur -> cur <> EmptyString ->
  snd (fst (cleanupOrphans platformOps st w)) = clearOrphanEntries st.
Proof.
  intros Hcur Hne. unfold cleanupOrphans. rewrite Hcur.
  destruct cur as [|c cur]; [contradiction|].
  destruct (fold_left (killByPid platformOps) (getOrphanProcesses st) (emptyResult, w))
    as [result1 w1].
  destruct (findByArgs platformOps HALO_MANAGED_FLAG w1) as [scan w2].
  destruct scan as [procs|e].
  - destruct (fold_left (killByArgs platformOps (String c cur)) procs (result1, w2)).
    reflexivity.
  - reflexivity.
Qed.

(** Processes that are skipped leave the accumulator alone. *)
Lemma killByArgs_skips (cur : string) (procs : list ProcessInfo) (result : CleanupResult)
    (w : World) :
  forallb (fun proc =>
             includes (commandLine proc) (HALO_INSTANCE_PREFIX ++ cur)
             || negb (isProcessAlive platformOps (pi_pid proc) w)) procs = true ->
  fold_left (killByArgs platformOps cur) procs (result, w) = (result, w).
Proof.
  induction procs as [|proc procs IH]; cbn [fold_left forallb]; intros H; [reflexivity|].
  apply andb_true_iff in H. destruct H as [Hskip Hrest].
  assert (Hstep : killByArgs platformOps cur (result, w) proc = (result, w)).
  { unfold killByArgs.
    apply orb_true_iff in Hskip. destruct Hskip as [Hmine|Hdead].
    - rewrite Hmine. reflexivity.
    - destruct (includes (commandLine proc) (HALO_INSTANCE_PREFIX ++ cur)); [reflexivity|].
      destruct (existsb (fun d => (cd_pid d =? pi_pid proc)%Z) (details result));
        [reflexivity|].
      rewrite Hdead. reflexivity. }
  rewrite Hstep. apply IH. exact Hrest.
Qed.

Lemma cleanupOrphans_nothing_left (st : Registry.State) (w : World) (cur : string) :
  getCurrentInstanceId st = Some cur -> cur <> EmptyString ->
  getOrphanProcesses st = [] ->
  nothingToScan platformOps cur w = true ->
  fst (fst (cleanupOrphans platformOps st w)) = emptyResult.
Proof.
  intros Hcur Hne Horph Hscan. unfold cleanupOrphans. rewrite Hcur.
  destruct cur as [|c cur]; [contradiction|].
  rewrite Horph. simpl.
  unfold nothingToScan in Hscan.
  destruct (findByArgs platformOps HALO_MANAGED_FLAG w) as [scan w2].
  destruct scan as [procs|e]; [|reflexivity].
  rewrite (killByArgs_skips _ _ _ _ Hscan). reflexivity.
Qed.

(** C5. Once the instance identifier is set, [cleanupOrphans] leaves no
    orphan entry in the registry, whatever the outcome of the kills (the
    entries of the current instance stay), and a second call that finds
    nothing left to clean returns [{cleaned: 0, failed: 0}] and leaves the
    registry as it is. *)
Theorem cleanupOrphans_clears_and_idempotent (st : Registry.State) (w : World)
    (cur : string) :
  getCurrentInstanceId st = Some cur -> cur <> EmptyString ->
  let st1 := snd (fst (cleanupOrphans platformOps st w)) in
  let w1 := snd (cleanupOrphans platformOps st w) in
  getOrphanProcesses st1 = []
  /\ getCurrentProcesses st1 = getCurrentProcesses st
  /\ (nothingToScan platformOps cur w1 = true ->
      cleaned (fst (fst (cleanupOrphans platformOps st1 w1))) = 0
      /\ failed (fst (fst (cleanupOrphans platformOps st1 w1))) = 0
      /\ snd (fst (cleanupOrphans platformOps st1 w1)) = st1).
Proof.
  intros Hcur Hne. cbv zeta.
  rewrite (cleanupOrphans_registry st w cur Hcur Hne).
  split; [apply orphans_cleared|].
  split; [apply current_kept|].
  intros Hscan.
  assert (Hcur1 : getCurrentInstanceId (clearOrphanEntries st) = Some cur) by exact Hcur.
  rewrite (cleanupOrphans_nothing_left _ _ cur Hcur1 Hne (orphans_cleared st) Hscan).
  rewrite (cleanupOrphans_registry _ _ cur Hcur1 Hne).
  repeat split. apply clearOrphanEntries_idempotent.
Qed.

End CleanerFacts.

Section CleanerExamples.
Import Js Types Platform Registry Cleaner.

Example cleanupOrphans_demo_first :
  fst (fst (cleanupOrphans demoOps demoRegistry demoWorld))
  = {| cleaned := 1; failed := 1;
       details := [mkCleanupDetail 1235 tunnel by_pid] |}.
Proof. reflexivity. Qed.

(** The theorem at the demo system: pid 1234 could not be killed, and still
    the registry holds no orphan and the second pass reports nothing. *)
Lemma cleanupOrphans_witness :
  let st1 := snd (fst (cleanupOrphans demoOps demoRegistry demoWorld)) in
  let w1 := snd (cleanupOrphans demoOps demoRegistry demoWorld) in
  getOrphanProcesses st1 = []
  /\ cleaned (fst (fst (cleanupOrphans demoOps st1 w1))) = 0
  /\ failed (fst (fst (cleanupOrphans demoOps st1 w1))) = 0.
Proof.
  destruct (cleanupOrphans_clears_and_idempotent demoOps demoRegistry demoWorld "run-2"
              eq_refl ltac:(discriminate)) as [H1 [_ H3]].
  destruct (H3 eq_refl) as [Hc [Hf _]].
  cbv zeta. split; [exact H1|]. split; [exact Hc|exact Hf].
Defined.

End CleanerExamples.

(** ** The runtime checker: the immediate check *)

Section RuntimeCheckerFacts.
Import Js Types Platform Registry RuntimeChecker.

Lemma reapDead_fold (t : ProcessType) (live : list Z) (l : list ProcessEntry)
    (st : Registry.State) (n : nat) :
  fold_left (reapDead t live) l (st, n)
  = (fold_left (fun s e => if deadIn live e then unregisterProcess (id e) t s else s) l st,
     n + length (filter (deadIn live) l)).
Proof.
  revert st n. induction l as [|e l IH]; intros st n; cbn [fold_left filter].
  - f_equal. simpl. lia.
  - assert (Hstep : reapDead t live (st, n) e
                    = (if deadIn live e then unregisterProcess (id e) t st else st,
                       if deadIn live e then S n else n)).
    { unfold reapDead, deadIn. destruct (pid e) as [p|]; [|reflexivity].
      destruct (pidTruthy (Some p) && negb (includesPid live p)); reflexivity. }
    rewrite Hstep, IH. destruct (deadIn live e); simpl; f_equal; lia.
Qed.

(** Unregistering only ever removes entries. *)
Lemma reap_subset (t : ProcessType) (live : list Z) (l : list ProcessEntry)
    (st : Registry.State) (x : ProcessEntry) :
  In x (processes
          (fold_left (fun s e => if deadIn live e then unregisterProcess (id e) t s else s)
             l st)) ->
  In x (processes st).
Proof.
  revert st. induction l as [|e l IH]; intros st H; simpl in H; [exact H|].
  apply IH in H. destruct (deadIn live e); [|exact H].
  unfold unregisterProcess in H. simpl in H. apply filter_In in H. tauto.
Qed.

Lemma reap_instance (t : ProcessType) (live : list Z) (l : list ProcessEntry)
    (st : Registry.State) :
  currentInstanceId
    (fold_left (fun s e => if deadIn live e then unregisterProcess (id e) t s else s) l st)
  = currentInstanceId st.
Proof.
  revert st. induction l as [|e l IH]; intros st; simpl; [reflexivity|].
  rewrite IH. destruct (deadIn live e); reflexivity.
Qed.

(** A dead entry of the list that is walked is gone afterwards. *)
Lemma reap_removes (t : ProcessType) (live : list Z) (l : list ProcessEntry)
    (st : Registry.State) (entry : ProcessEntry) :
  In entry l -> deadIn live entry = true -> type entry = t ->
  ~ In entry
      (processes
         (fold_left (fun s e => if deadIn live e then unregisterProcess (id e) t s else s)
            l st)).
Proof.
  revert st. induction l as [|e l IH]; intros st Hin Hdead Ht; [contradiction|].
  simpl. destruct Hin as [->|Hin]; [|now apply IH].
  rewrite Hdead. intros H. apply reap_subset in H.
  unfold unregisterProcess in H. simpl in H. apply filter_In in H.
  destruct H as [_ H]. unfold sameKey in H.
  rewrite String.eqb_refl, Ht in H. destruct t; discriminate.
Qed.

Lemma dead_by_type (scan : result (list ChildProcessInfo)) (l : list ProcessEntry) :
  length (filter (deadIn (scanned scan v2_session)) (ofType v2_session l))
  + length (filter (deadIn (scanned scan tunnel)) (ofType tunnel l))
  = length (filter (isDead scan) l).
Proof.
  induction l as [|e l IH]; [reflexivity|].
  unfold ofType in *. cbn [filter]. unfold isDead at 1.
  destruct (type e); cbn [ProcessType_eqb filter].
  - destruct (deadIn (scanned scan v2_session) e); cbn [length]; lia.
  - destruct (deadIn (scanned scan tunnel) e); cbn [length]; lia.
Qed.

Lemma length_eqb_0 {A : Type} (l : list A) : (length l =? 0)%nat = true <-> l = [].
Proof. destruct l; simpl; split; intros; try reflexivity; discriminate. Qed.

Lemma singleton_of_length {A : Type} (x : A) (l : list A) :
  length (x :: l) = 1 -> x :: l = [x].
Proof. destruct l; simpl; intros H; [reflexivity|discriminate]. Qed.

Context {World : Type} (env : Env World).

(** The snapshot's flag is the formula of the last step, whatever the
    environment. *)
Lemma healthy_formula (ts : Z) (st : Registry.State) (w : World) :
  let r := fst (fst (doImmediateCheck env ts st w)) in
  healthy r
  = (length (issues r) =? 0)%nat
    || ((0 <? removed (registryCleanup r))%nat && (length (issues r) =? 1)%nat
        && negb (serviceFailure env r)).
Proof.
  cbv zeta. unfold doImmediateCheck, serviceFailure.
  destruct (findChildProcesses (platformOps env) (mainPid env) w) as [scan w1].
  destruct (fold_left _ _ (fold_left _ _ _)) as [st' registryRemoved].
  destruct (match getRouterInfo env with Some _ => _ | None => _ end)
    as [routerStatus issues3].
  destruct (if serverRunning env then _ else _) as [httpServerStatus issues4].
  reflexivity.
Qed.

(** When the flag is set although something was reported, the report is
    the cleanup line alone. *)
Lemma healthy_only_cleanup (ts : Z) (st : Registry.State) (w : World) :
  let r := fst (fst (doImmediateCheck env ts st w)) in
  healthy r = true -> issues r <> [] ->
  issues r
  = ["Cleaned " ++ show_nat (removed (registryCleanup r)) ++ " dead process entries"].
Proof.
  cbv zeta. unfold doImmediateCheck.
  destruct (findChildProcesses (platformOps env) (mainPid env) w) as [scan w1].
  destruct (fold_left _ _ (fold_left _ _ _)) as [st' registryRemoved].
  destruct (match getRouterInfo env with Some _ => _ | None => _ end)
    as [routerStatus issues3].
  destruct (if serverRunning env then _ else _) as [httpServerStatus issues4].
  cbn [fst snd healthy issues registryCleanup removed].
  intros H Hne. apply orb_true_iff in H. destruct H as [H|H].
  - apply length_eqb_0 in H. contradiction.
  - apply andb_true_iff in H. destruct H as [H _].
    apply andb_true_iff in H. destruct H as [Hrem Hlen].
    rewrite Hrem in *. apply Nat.eqb_eq in Hlen.
    destruct scan as [children|e]; cbn [app] in *.
    + apply singleton_of_length. exact Hlen.
    + cbn [length] in Hlen. lia.
Qed.

Lemma countOrphans_0 (scan : result (list ChildProcessInfo)) (st : Registry.State) :
  noOrphans scan st = true ->
  countOrphans (scanned scan v2_session)
    (truthyPids (ofType v2_session (getCurrentProcesses st)))
  + countOrphans (scanned scan tunnel)
      (truthyPids (ofType tunnel (getCurrentProcesses st))) = 0.
Proof.
  unfold noOrphans. cbn [forallb]. rewrite andb_true_r. intros H.
  apply andb_true_iff in H. destruct H as [H1 H2].
  apply Nat.eqb_eq in H1, H2. rewrite H1, H2. reflexivity.
Qed.

Lemma checkService_quiet (label : string) (p : Z) (probe : result ProbeResult) :
  match probe with Ok pr => probe_healthy pr | Throw _ => false end = true ->
  snd (checkService label p probe) = []
  /\ responsive (fst (checkService label p probe)) = true.
Proof.
  destruct probe as [pr|e]; simpl; [|discriminate].
  intros H. rewrite H. split; reflexivity.
Qed.

Lemma dead_entry_scenario (ts : Z) (st : Registry.State) (w : World)
    (entry : ProcessEntry) :
  let scan := fst (findChildProcesses (platformOps env) (mainPid env) w) in
  is_ok scan = true ->
  filter (isDead scan) (getCurrentProcesses st) = [entry] ->
  noOrphans scan st = true ->
  servicesQuiet env = true ->
  let r := fst (fst (doImmediateCheck env ts st w)) in
  let st' := snd (fst (doImmediateCheck env ts st w)) in
  removed (registryCleanup r) = 1
  /\ issues r = ["Cleaned 1 dead process entries"]
  /\ healthy r = true
  /\ ~ In entry (processes st').
Proof.
  cbv zeta. intros Hok Hdead Horph Hquiet.
  unfold doImmediateCheck.
  destruct (findChildProcesses (platformOps env) (mainPid env) w) as [scan w1].
  cbn [fst] in Hok, Hdead, Horph.
  destruct scan as [children|e]; [|discriminate].
  rewrite !reapDead_fold.
  change (pidsNamed "claude" "claude.exe" children) with (scanned (Ok children) v2_session).
  change (pidsNamed "cloudflared" "cloudflared.exe" children)
    with (scanned (Ok children) tunnel).
  rewrite (countOrphans_0 _ _ Horph).
  rewrite <- Nat.add_assoc, dead_by_type, Hdead.
  unfold servicesQuiet in Hquiet.
  apply andb_true_iff in Hquiet. destruct Hquiet as [Hquiet Hmem].
  apply andb_true_iff in Hquiet. destruct Hquiet as [Hrouter Hserver].
  apply negb_true_iff in Hmem. rewrite Hmem.
  assert (Hr : exists rs,
             match getRouterInfo env with
             | Some p => checkService "OpenAI Router" p (checkOpenAIRouter env p)
             | None => (notChecked, [])
             end = (rs, [])
             /\ (match getRouterInfo env with Some _ => true | None => false end
                 && negb (responsive rs)) = false).
  { destruct (getRouterInfo env) as [p|].
    - destruct (checkService_quiet "OpenAI Router" p _ Hrouter) as [Hi Hresp].
      destruct (checkService "OpenAI Router" p (checkOpenAIRouter env p)) as [rs i3].
      simpl in Hi, Hresp. subst i3. exists rs. rewrite Hresp. split; reflexivity.
    - exists notChecked. split; reflexivity. }
  assert (Hs : exists hs,
             (if serverRunning env
              then checkService "HTTP Server" (serverPort env)
                     (checkHttpServer env (serverPort env))
              else (notChecked, [])) = (hs, [])
             /\ (serverRunning env && negb (responsive hs)) = false).
  { destruct (serverRunning env).
    - destruct (checkService_quiet "HTTP Server" (serverPort env) _ Hserver) as [Hi Hresp].
      destruct (checkService "HTTP Server" (serverPort env)
                  (checkHttpServer env (serverPort env))) as [hs i4].
      simpl in Hi, Hresp. subst i4. exists hs. rewrite Hresp. split; reflexivity.
    - exists notChecked. split; reflexivity. }
  destruct Hr as [rs [-> Hrs]]. destruct Hs as [hs [-> Hhs]].
  cbn [fst snd removed registryCleanup issues healthy length Nat.add Nat.ltb Nat.leb app].
  rewrite Hrs, Hhs.
  split; [reflexivity|]. split; [reflexivity|]. split; [reflexivity|].
  assert (Hin : In entry (filter (isDead (Ok children)) (getCurrentProcesses st)))
    by (rewrite Hdead; left; reflexivity).
  apply filter_In in Hin. destruct Hin as [Hin Hd]. unfold isDead in Hd.
  destruct (type entry) eqn:Ht.
  - intros H. apply reap_subset in H. revert H.
    apply reap_removes; [|exact Hd|exact Ht].
    unfold ofType. apply filter_In. split; [exact Hin|]. rewrite Ht. reflexivity.
  - apply reap_removes; [|exact Hd|exact Ht].
    unfold ofType. apply filter_In. split; [exact Hin|]. rewrite Ht. reflexivity.
Qed.


Lemma checkService_silent (label : string) (p : Z) (probe : result ProbeResult) :
  snd (checkService label p probe) = [] ->
  responsive (fst (checkService label p probe)) = true.
Proof.
  destruct probe as [pr|e]; simpl; [|discriminate].
  destruct (probe_healthy pr); [reflexivity|discriminate].
Qed.

Lemma healthy_formula_short (ts : Z) (st : Registry.State) (w : World) :
  let r := fst (fst (doImmediateCheck env ts st w)) in
  healthy r
  = (length (issues r) =? 0)%nat
    || ((0 <? removed (registryCleanup r))%nat && (length (issues r) =? 1)%nat).
Proof.
  cbv zeta. unfold doImmediateCheck.
  destruct (findChildProcesses (platformOps env) (mainPid env) w) as [scan w1].
  destruct (fold_left _ _ (fold_left _ _ _)) as [st' registryRemoved].
  assert (Hr : forall rs i3,
             match getRouterInfo env with
             | Some p => checkService "OpenAI Router" p (checkOpenAIRouter env p)
             | None => (notChecked, [])
             end = (rs, i3) -> i3 = [] ->
             (match getRouterInfo env with Some _ => true | None => false end
              && negb (responsive rs)) = false).
  { intros rs i3 E Hi. destruct (getRouterInfo env) as [p|]; [|reflexivity].
    pose proof (checkService_silent "OpenAI Router" p (checkOpenAIRouter env p)) as H.
    rewrite E in H. cbn [fst snd] in H. rewrite (H Hi). reflexivity. }
  assert (Hs : forall hs i4,
             (if serverRunning env
              then checkService "HTTP Server" (serverPort env)
                     (checkHttpServer env (serverPort env))
              else (notChecked, [])) = (hs, i4) -> i4 = [] ->
             (serverRunning env && negb (responsive hs)) = false).
  { intros hs i4 E Hi. destruct (serverRunning env); [|reflexivity].
    pose proof (checkService_silent "HTTP Server" (serverPort env)
                  (checkHttpServer env (serverPort env))) as H.
    rewrite E in H. cbn [fst snd] in H. rewrite (H Hi). reflexivity. }
  destruct (match getRouterInfo env with Some _ => _ | None => _ end)
    as [routerStatus issues3].
  destruct (if serverRunning env then _ else _) as [httpServerStatus issues4].
  specialize (Hr routerStatus issues3 eq_refl). specialize (Hs httpServerStatus issues4 eq_refl).
  cbn [fst snd healthy issues registryCleanup removed].
  destruct (0 <? registryRemoved)%nat eqn:Hrem; [|reflexivity].
  cbn [andb].
  match goal with |- context [(length ?l =? 1)%nat] => destruct (length l =? 1)%nat eqn:Hlen end;
    [|reflexivity].
  apply Nat.eqb_eq in Hlen.
  assert (Hnil : issues3 = [] /\ issues4 = []).
  { rewrite !length_app in Hlen. cbn [length] in Hlen.
    destruct issues3, issues4; cbn [length] in Hlen; try lia. split; reflexivity. }
  destruct Hnil as [H3 H4]. rewrite (Hr H3), (Hs H4). reflexivity.
Qed.

(** A running service that does not respond always leaves an issue, so
    the last conjunct of the [healthy] formula never decides. *)
Theorem healthy_service_conjunct_redundant (ts : Z) (st : Registry.State) (w : World) :
  let r := fst (fst (doImmediateCheck env ts st w)) in
  healthy r
  = (length (issues r) =? 0)%nat
    || ((0 <? removed (registryCleanup r))%nat && (length (issues r) =? 1)%nat).
Proof. apply healthy_formula_short. Qed.

(** When the PPID scan throws, the snapshot is never healthy. *)
Theorem scan_failure_unhealthy (ts : Z) (st : Registry.State) (w : World) :
  is_throw (fst (findChildProcesses (platformOps env) (mainPid env) w)) = true ->
  healthy (fst (fst (doImmediateCheck env ts st w))) = false
  /\ hd_error (issues (fst (fst (doImmediateCheck env ts st w)))) = Some "PPID scan failed".
Proof.
  intros Hscan. rewrite healthy_formula_short. cbv zeta.
  unfold doImmediateCheck.
  destruct (findChildProcesses (platformOps env) (mainPid env) w) as [scan w1].
  cbn [fst] in Hscan. destruct scan as [children|e]; [discriminate|].
  destruct (fold_left _ _ (fold_left _ _ _)) as [st' registryRemoved].
  destruct (match getRouterInfo env with Some _ => _ | None => _ end)
    as [routerStatus issues3].
  destruct (if serverRunning env then _ else _) as [httpServerStatus issues4].
  cbn [fst snd healthy issues registryCleanup removed app hd_error length].
  split; [|reflexivity].
  destruct (0 <? registryRemoved)%nat; reflexivity.
Qed.

End RuntimeCheckerFacts.

Section RuntimeCheckerExamples.
Import Js Types Platform Registry RuntimeChecker.

Example immediate_check_all_well :
  let r := fst (fst (doImmediateCheck (demoEnv [mkChildProcessInfo 1234 4000 "claude"])
                       5000 demoRegistry tt)) in
  issues r = [] /\ healthy r = true /\ removed (registryCleanup r) = 0.
Proof. repeat split. Qed.

Example immediate_check_unknown_child :
  let r := fst (fst (doImmediateCheck (demoEnv [mkChildProcessInfo 77 4000 "claude.exe"])
                       5000 demoRegistry tt)) in
  issues r = ["Cleaned 1 dead process entries"; "1 orphan processes detected"]
  /\ healthy r = false.
Proof. split; reflexivity. Qed.


(** A failed scan: the entry is unregistered all the same, and the
    snapshot is unhealthy. *)
Lemma scan_failure_witness :
  healthy (fst (fst (doImmediateCheck brokenScanEnv 5000 demoRegistry tt))) = false
  /\ issues (fst (fst (doImmediateCheck brokenScanEnv 5000 demoRegistry tt)))
     = ["PPID scan failed"; "Cleaned 1 dead process entries"].
Proof.
  split; [|reflexivity].
  exact (proj1 (scan_failure_unhealthy brokenScanEnv 5000 demoRegistry tt eq_refl)).
Defined.

End RuntimeCheckerExamples.

(** ** The runtime checker: single flight *)

Section SingleFlightFacts.
Import Js Types RuntimeChecker.
Local Open Scope Z_scope.

Lemma runImmediateCheck_starts (s : CheckerState) (now ts : Z) :
  shared now s = None ->
  runImmediateCheck now ts s
  = ({| promiseOf := callsMade s; resultOf := scansStarted s |},
     {| isCheckRunning := true; lastCheckTime := Some ts;
        lastCheckPromise := Some (scansStarted s);
        scansStarted := S (scansStarted s);
        callsMade := S (callsMade s) |}).
Proof. intros H. unfold runImmediateCheck. rewrite H. reflexivity. Qed.

Lemma runImmediateCheck_shares (s : CheckerState) (now ts : Z) (p : nat) :
  shared now s = Some p ->
  runImmediateCheck now ts s = ({| promiseOf := callsMade s; resultOf := p |}, called s).
Proof. intros H. unfold runImmediateCheck. rewrite H. reflexivity. Qed.

(** The very first call starts a check. *)
Lemma first_call_starts (now : Z) : shared now initial = None.
Proof. reflexivity. Qed.

(** After a check was started at [ts], a call at [now] gets its result
    while the check runs, and after it as long as [now - ts < 2000]. *)
Lemma shared_after_start (p n calls : nat) (ts now : Z) (running : bool) :
  running = true \/ (ts <> 0 /\ now - ts < 2000) ->
  shared now {| isCheckRunning := running; lastCheckTime := Some ts;
                lastCheckPromise := Some p; scansStarted := n;
                callsMade := calls |} = Some p.
Proof.
  intros H. unfold shared, pidTruthy, MIN_CHECK_INTERVAL_MS. cbn [lastCheckPromise lastCheckTime isCheckRunning].
  destruct H as [->|[Hts Hwin]].
  - destruct (negb (ts =? 0) && (now - ts <? 2000)); reflexivity.
  - apply Z.eqb_neq in Hts. apply Z.ltb_lt in Hwin. rewrite Hts, Hwin. reflexivity.
Qed.

(** C2, as the code has it. The cool-down is counted from the start of the
    last scan. When a call starts a scan (as the first call does), a
    second call made while that scan is still running, or less than
    2000 ms after the scan's own timestamp (so in particular less than
    500 ms after the first call), gets the identical result, the one of
    that scan, and starts nothing: one scan serves both calls. What the
    two calls return are two promises, as every call of an [async]
    function makes its own. *)
Theorem single_flight (s : CheckerState) (t1 ts1 t2 ts2 : Z) (finished : bool) :
  shared t1 s = None ->
  finished = false
  \/ (ts1 <> 0 /\ (t2 - ts1 < 2000 \/ (t1 <= ts1 /\ t2 - t1 < 500))) ->
  let r1 := fst (runImmediateCheck t1 ts1 s) in
  let s1 := snd (runImmediateCheck t1 ts1 s) in
  let s1' := if finished then doImmediateCheck_end s1 else s1 in
  let r2 := fst (runImmediateCheck t2 ts2 s1') in
  resultOf r2 = resultOf r1
  /\ promiseOf r2 <> promiseOf r1
  /\ scansStarted s1 = S (scansStarted s)
  /\ scansStarted (snd (runImmediateCheck t2 ts2 s1')) = S (scansStarted s).
Proof.
  intros Hstart Hwin. cbv zeta. rewrite (runImmediateCheck_starts s t1 ts1 Hstart).
  cbn [fst snd].
  assert (Hshared :
            shared t2 (if finished
                       then doImmediateCheck_end
                              {| isCheckRunning := true; lastCheckTime := Some ts1;
                                 lastCheckPromise := Some (scansStarted s);
                                 scansStarted := S (scansStarted s);
                                 callsMade := S (callsMade s) |}
                       else {| isCheckRunning := true; lastCheckTime := Some ts1;
                               lastCheckPromise := Some (scansStarted s);
                               scansStarted := S (scansStarted s);
                               callsMade := S (callsMade s) |})
            = Some (scansStarted s)).
  { destruct finished.
    - unfold doImmediateCheck_end.
      cbn [isCheckRunning lastCheckTime lastCheckPromise scansStarted callsMade].
      apply shared_after_start. right.
      destruct Hwin as [H|[Hts H]]; [discriminate|]. split; [exact Hts|lia].
    - apply shared_after_start. left. reflexivity. }
  rewrite (runImmediateCheck_shares _ t2 ts2 _ Hshared). cbn [fst snd promiseOf resultOf].
  destruct finished; cbn; repeat split; try lia.
Qed.

(** Two calls within 500 ms of the first call of a fresh process: the
    second gets the result of the scan the first one started, whether or
    not the scan has finished in between. *)
Lemma single_flight_witness :
  resultOf (fst (runImmediateCheck 1400 1400
                   (doImmediateCheck_end (snd (runImmediateCheck 1000 1001 initial)))))
  = resultOf (fst (runImmediateCheck 1000 1001 initial))
  /\ scansStarted
       (snd (runImmediateCheck 1400 1400
               (doImmediateCheck_end (snd (runImmediateCheck 1000 1001 initial)))))
     = 1%nat.
Proof.
  assert (Hne : 1001 <> 0) by (intros H; discriminate H).
  assert (Hmono : 1000 <= 1001) by (intros H; discriminate H).
  assert (Hlt : 1400 - 1000 < 500) by reflexivity.
  destruct (single_flight initial 1000 1001 1400 1400 true eq_refl
              (or_intror (conj Hne (or_intror (conj Hmono Hlt))))) as [H1 [_ [_ H3]]].
  split; [exact H1|exact H3].
Defined.

(** Three calls at 1000, 2900 and 3300 ms, the scan of the first having
    finished: the second call is inside the cool-down of the first scan and
    gets its result; the third, 400 ms after the second, is outside of it,
    starts a second scan and gets the result of that one. *)
Lemma calls_400ms_apart_differ :
  let sA := doImmediateCheck_end (snd (runImmediateCheck 1000 1000 initial)) in
  let rB := fst (runImmediateCheck 2900 2900 sA) in
  let sB := snd (runImmediateCheck 2900 2900 sA) in
  let rC := fst (runImmediateCheck 3300 3300 sB) in
  let sC := snd (runImmediateCheck 3300 3300 sB) in
  3300 - 2900 < 500 /\ resultOf rB <> resultOf rC /\ scansStarted sC = 2%nat.
Proof. vm_compute. split; [reflexivity|]. split; [discriminate|reflexivity]. Qed.

End SingleFlightFacts.

(** ** The orchestrator *)

Section OrchestratorFacts.
Import Js Types Orchestrator.

(** *** What a computation leaves alone *)

Lemma keeps_ret {B A : Type} (proj : State -> B) (a : A) : keeps proj (ret a).
Proof. intros s. reflexivity. Qed.

Lemma keeps_bind {B A C : Type} (proj : State -> B) (m : M A) (k : A -> M C) :
  keeps proj m -> (forall a, keeps proj (k a)) -> keeps proj (bindM m k).
Proof.
  intros Hm Hk s. unfold bindM. specialize (Hm s).
  destruct (m s) as [[a|e] s']; simpl in *; [|exact Hm].
  rewrite Hk. exact Hm.
Qed.

Lemma keeps_gets {B A : Type} (proj : State -> B) (f : HealthSystemState -> A) :
  keeps proj (gets f).
Proof. intros s. reflexivity. Qed.

Lemma keeps_when {B : Type} (proj : State -> B) (b : bool) (m : M unit) :
  keeps proj m -> keeps proj (when b m).
Proof. intros H. destruct b; [exact H|apply keeps_ret]. Qed.

Lemma keeps_call_guard {A : Type} (e : Effect) (r : attempt A) : keeps guard (call e r).
Proof. intros s. reflexivity. Qed.

Lemma keeps_call_ring {A : Type} (e : Effect) (r : attempt A) : keeps ring (call e r).
Proof. intros s. reflexivity. Qed.

Lemma keeps_update_guard (f : HealthSystemState -> HealthSystemState) :
  (forall st, isEnabled (f st) = isEnabled st) -> keeps guard (update f).
Proof. intros H s. unfold guard. simpl. now rewrite H. Qed.

Lemma keeps_update_ring (f : HealthSystemState -> HealthSystemState) :
  (forall st, recentEvents (f st) = recentEvents st) -> keeps ring (update f).
Proof. intros H s. unfold ring. simpl. now rewrite H. Qed.

Create HintDb frame.
#[local] Hint Resolve keeps_ret keeps_gets keeps_when keeps_call_guard keeps_call_ring
  keeps_update_guard keeps_update_ring : frame.

Ltac frame :=
  repeat (first [ apply keeps_bind; [|intro]
                | apply keeps_when
                | apply keeps_update_guard; intro; reflexivity
                | apply keeps_update_ring; intro; reflexivity
                | match goal with
                  | |- keeps _ (match ?x with _ => _ end) => destruct x
                  end
                | solve [auto with frame] ]).

Section OneStep.
Context (c : Collaborators).

Lemma handleStatusChange_keeps_guard (st : HealthStatus) (msg : string) :
  keeps guard (handleStatusChange c st msg).
Proof. unfold handleStatusChange. frame. Qed.

Lemma handleStatusChange_keeps_ring (st : HealthStatus) (msg : string) :
  keeps ring (handleStatusChange c st msg).
Proof. unfold handleStatusChange. frame. Qed.

Lemma updateStatus_keeps_guard (event : HealthEvent) : keeps guard (updateStatus c event).
Proof. unfold updateStatus. frame. Qed.

Lemma updateStatus_keeps_ring (event : HealthEvent) : keeps ring (updateStatus c event).
Proof. unfold updateStatus. frame. Qed.

Lemma attempt_keeps_guard (strategy : Strategy) (msg : string) :
  keeps guard (match strategy with
               | S1 | S2 => attemptRecovery strategy
               | S3 | S4 => attemptRecoveryWithUI strategy msg
               end).
Proof. destruct strategy; unfold attemptRecovery, attemptRecoveryWithUI; frame. Qed.

Lemma attempt_keeps_ring (strategy : Strategy) (msg : string) :
  keeps ring (match strategy with
              | S1 | S2 => attemptRecovery strategy
              | S3 | S4 => attemptRecoveryWithUI strategy msg
              end).
Proof. destruct strategy; unfold attemptRecovery, attemptRecoveryWithUI; frame. Qed.

(** The [try] block does not touch the guard. *)
Lemma try_keeps_guard (event : HealthEvent) : keeps guard (handleHealthEvent_try c event).
Proof.
  unfold handleHealthEvent_try. frame.
Qed.

(** The [try] block records the event first, and nothing after that
    touches the ring. *)
Lemma try_ring (event : HealthEvent) (s : State) :
  ring (snd (handleHealthEvent_try c event s)) = pushRecent event (ring s).
Proof.
  unfold handleHealthEvent_try.
  unfold bindM at 1. cbn [gets]. unfold bindM at 1. cbn [update].
  match goal with
  | |- ring (snd (?m ?s1)) = _ =>
      assert (H : keeps ring m) by frame; rewrite (H s1)
  end.
  reflexivity.
Qed.

Lemma handleSelfError_ring (e : Thrown) (s : State) :
  ring (snd (handleSelfError e s)) = ring s.
Proof.
  unfold handleSelfError. destruct (messageOf e); [|reflexivity].
  cbn [snd]. destruct (MAX_SELF_FAILURES <=? _)%nat; reflexivity.
Qed.

(** One event, as seen on the ring. *)
Lemma handleHealthEvent_ring (event : HealthEvent) (s : State) :
  ring (handleHealthEvent c event s)
  = if isEnabled (systemState s) then pushRecent event (ring s) else ring s.
Proof.
  unfold handleHealthEvent.
  destruct (isEnabled (systemState s)); cbn [negb]; [|reflexivity].
  pose proof (try_ring event s) as H.
  destruct (handleHealthEvent_try c event s) as [[u|e] s']; cbn [snd] in H.
  - exact H.
  - rewrite handleSelfError_ring. exact H.
Qed.

Lemma raises_thrown (event : HealthEvent) (s : State) :
  raises c event s = match thrown c event s with Some _ => true | None => false end.
Proof.
  unfold raises, thrown. destruct (isEnabled (systemState s)); [|reflexivity].
  cbn [andb]. destruct (fst (handleHealthEvent_try c event s)); reflexivity.
Qed.

(** One event, as seen on the guard: every exception is counted, and the
    threshold is tested for those whose message can be read. *)
Lemma handleHealthEvent_guard (event : HealthEvent) (s : State) :
  guard (handleHealthEvent c event s)
  = match thrown c event s with
    | Some error =>
        if readable error && (MAX_SELF_FAILURES <=? S (selfFailures s))%nat
        then (false, S (selfFailures s), None)
        else (true, S (selfFailures s), pollIntervalId s)
    | None => guard s
    end.
Proof.
  unfold handleHealthEvent, thrown.
  destruct (isEnabled (systemState s)) eqn:En; cbn [negb andb]; [|reflexivity].
  pose proof (try_keeps_guard event s) as H.
  destruct (handleHealthEvent_try c event s) as [[u|e] s']; cbn [snd fst] in *.
  - exact H.
  - unfold guard in H. injection H as H1 H2 H3.
    unfold handleSelfError. destruct e as [e|]; cbn [messageOf readable andb snd].
    + cbn [selfFailures]. rewrite H2.
      destruct (MAX_SELF_FAILURES <=? S (selfFailures s))%nat.
      * reflexivity.
      * unfold guard. cbn. rewrite H1, H3, En. reflexivity.
    + unfold guard. cbn. rewrite H1, H2, H3, En. reflexivity.
Qed.

Lemma handleHealthEvent_disabled (event : HealthEvent) (s : State) :
  isEnabled (systemState s) = false -> handleHealthEvent c event s = s.
Proof. intros H. unfold handleHealthEvent. rewrite H. reflexivity. Qed.

Lemma recoveryCompleted_keeps (outcome : attempt bool) (s : State) :
  guard (recoveryCompleted c outcome s) = guard s
  /\ ring (recoveryCompleted c outcome s) = ring s.
Proof.
  unfold recoveryCompleted. destruct outcome as [[|]|e]; try (split; reflexivity).
  split.
  - match goal with
    | |- guard (snd (?m s)) = _ => assert (H : keeps guard m) by frame; apply H
    end.
  - match goal with
    | |- ring (snd (?m s)) = _ => assert (H : keeps ring m) by frame; apply H
    end.
Qed.

Lemma pollReport_keeps (st : HealthStatus) (msg : string) (s : State) :
  guard (pollReport c st msg s) = guard s /\ ring (pollReport c st msg s) = ring s.
Proof.
  unfold pollReport. destruct (pollIntervalId s); [|split; reflexivity].
  split; [apply handleStatusChange_keeps_guard|apply handleStatusChange_keeps_ring].
Qed.

End OneStep.

Lemma triggerRecovery_keeps (strategy : Strategy) (consented : bool) (s : State) :
  guard (triggerRecovery strategy consented s) = guard s
  /\ ring (triggerRecovery strategy consented s) = ring s.
Proof.
  unfold triggerRecovery. split.
  - match goal with
    | |- guard (snd (?m s)) = _ => assert (H : keeps guard m) by frame; apply H
    end.
  - match goal with
    | |- ring (snd (?m s)) = _ => assert (H : keeps ring m) by frame; apply H
    end.
Qed.

(** One step, as seen on the ring. *)
Lemma step_ring (s : State) (i : Input) :
  ring (step s i)
  = match i with
    | Event c event =>
        if isEnabled (systemState s) then pushRecent event (ring s) else ring s
    | _ => ring s
    end.
Proof.
  destruct i as [c event|c outcome|c st msg|strategy consented|]; cbn [step].
  - apply handleHealthEvent_ring.
  - apply recoveryCompleted_keeps.
  - apply pollReport_keeps.
  - apply triggerRecovery_keeps.
  - reflexivity.
Qed.

(** One step, as seen on the guard. *)
Lemma step_guard (s : State) (i : Input) :
  guard (step s i)
  = match i with
    | Event c event =>
        match thrown c event s with
        | Some error =>
            if readable error && (MAX_SELF_FAILURES <=? S (selfFailures s))%nat
            then (false, S (selfFailures s), None)
            else (true, S (selfFailures s), pollIntervalId s)
        | None => guard s
        end
    | Shutdown => (isEnabled (systemState s), selfFailures s, None)
    | _ => guard s
    end.
Proof.
  destruct i as [c event|c outcome|c st msg|strategy consented|]; cbn [step].
  - apply handleHealthEvent_guard.
  - apply recoveryCompleted_keeps.
  - apply pollReport_keeps.
  - apply triggerRecovery_keeps.
  - reflexivity.
Qed.

Lemma guard_fields (s : State) (en : bool) (n : nat) (p : option nat) :
  guard s = (en, n, p) ->
  isEnabled (systemState s) = en /\ selfFailures s = n /\ pollIntervalId s = p.
Proof. unfold guard. intros H. injection H as H1 H2 H3. auto. Qed.

Lemma thrown_enabled (c : Collaborators) (event : HealthEvent) (s : State)
    (error : Thrown) :
  thrown c event s = Some error -> isEnabled (systemState s) = true.
Proof. unfold thrown. destruct (isEnabled (systemState s)); [reflexivity|discriminate]. Qed.

Lemma step_protected (s : State) (i : Input) : protected s -> protected (step s i).
Proof.
  intros Hoff. unfold protected.
  pose proof (step_guard s i) as Hg.
  destruct i as [c event|c outcome|c st msg|strategy consented|];
    try (apply guard_fields in Hg; destruct Hg as [H1 [_ H3]]; rewrite H1, H3;
         auto; fail).
  destruct (thrown c event s) as [error|] eqn:Ht.
  - destruct (readable error && (MAX_SELF_FAILURES <=? S (selfFailures s))%nat);
      apply guard_fields in Hg; destruct Hg as [H1 [_ H3]]; rewrite H1, H3;
      [auto|discriminate].
  - apply guard_fields in Hg. destruct Hg as [H1 [_ H3]]. rewrite H1, H3. auto.
Qed.

Lemma run_protected (inputs : list Input) (s : State) :
  protected s -> protected (run inputs s).
Proof.
  revert s. induction inputs as [|i rest IH]; intros s H; [exact H|].
  apply IH. apply step_protected. exact H.
Qed.

Lemma thrownValues_exceptions (inputs : list Input) (s : State) :
  length (thrownValues inputs s) = exceptions inputs s.
Proof.
  revert s. induction inputs as [|i rest IH]; intros s; [reflexivity|].
  cbn [thrownValues exceptions]. rewrite length_app, IH. f_equal.
  destruct i as [c event| | | |]; try reflexivity.
  rewrite raises_thrown. destruct (thrown c event s); reflexivity.
Qed.

(** [selfFailures] counts the exceptions of the event-handling path. *)
Lemma run_selfFailures (inputs : list Input) (s : State) :
  selfFailures (run inputs s) = selfFailures s + exceptions inputs s.
Proof.
  revert s. induction inputs as [|i rest IH]; intros s; cbn [run fold_left exceptions].
  - lia.
  - change (fold_left step rest (step s i)) with (run rest (step s i)). rewrite IH.
    pose proof (step_guard s i) as Hg.
    destruct i as [c event|c outcome|c st msg|strategy consented|];
      try (apply guard_fields in Hg; destruct Hg as [_ [-> _]]; lia).
    rewrite raises_thrown.
    destruct (thrown c event s) as [error|].
    + destruct (readable error && (MAX_SELF_FAILURES <=? S (selfFailures s))%nat);
        apply guard_fields in Hg; destruct Hg as [_ [-> _]]; lia.
    + apply guard_fields in Hg. destruct Hg as [_ [-> _]]. lia.
Qed.

(** Disabled with the poller stopped is a state that no step leaves, and
    in which no step changes the guard or raises. *)
Lemma step_disabled (s : State) (i : Input) :
  isEnabled (systemState s) = false -> pollIntervalId s = None ->
  guard (step s i) = guard s.
Proof.
  intros Hen Hpoll. rewrite step_guard.
  destruct i as [c event|c outcome|c st msg|strategy consented|]; try reflexivity.
  - unfold thrown. rewrite Hen. reflexivity.
  - unfold guard. rewrite Hpoll. reflexivity.
Qed.

Lemma run_disabled (inputs : list Input) (s : State) :
  isEnabled (systemState s) = false -> pollIntervalId s = None ->
  guard (run inputs s) = guard s /\ exceptions inputs s = 0
  /\ thrownValues inputs s = [].
Proof.
  revert s. induction inputs as [|i rest IH]; intros s Hen Hpoll;
    [repeat split; reflexivity|].
  pose proof (step_disabled s i Hen Hpoll) as Hg.
  assert (Hg' := Hg). unfold guard in Hg'. injection Hg' as H1 H2 H3.
  rewrite Hen in H1. rewrite Hpoll in H3.
  destruct (IH (step s i) H1 H3) as [IHg [IHe IHt]].
  cbn [run fold_left exceptions thrownValues].
  change (fold_left step rest (step s i)) with (run rest (step s i)).
  rewrite IHg, IHe, IHt, Hg. split; [reflexivity|].
  destruct i; try (split; reflexivity).
  unfold raises, thrown. rewrite Hen. split; reflexivity.
Qed.

(** While the orchestrator is enabled, it stays so until an exception whose
    message can be read is raised with four or more counted before it. *)
Lemma run_enabled (inputs : list Input) (s : State) :
  isEnabled (systemState s) = true ->
  isEnabled (systemState (run inputs s))
  = negb (existsb readable (skipn (4 - selfFailures s) (thrownValues inputs s))).
Proof.
  revert s. induction inputs as [|i rest IH]; intros s Hen.
  - cbn [run fold_left thrownValues]. rewrite skipn_nil. exact Hen.
  - cbn [run fold_left thrownValues].
    change (fold_left step rest (step s i)) with (run rest (step s i)).
    pose proof (step_guard s i) as Hg.
    assert (Hsame : isEnabled (systemState (step s i)) = isEnabled (systemState s) ->
                    selfFailures (step s i) = selfFailures s ->
                    isEnabled (systemState (run rest (step s i)))
                    = negb (existsb readable
                              (skipn (4 - selfFailures s) (thrownValues rest (step s i))))).
    { intros H1 H2. rewrite Hen in H1. rewrite (IH _ H1), H2. reflexivity. }
    destruct i as [c event|c outcome|c st msg|strategy consented|];
      try (cbn [app]; apply guard_fields in Hg; destruct Hg as [H1 [H2 _]];
           apply Hsame; assumption).
    destruct (thrown c event s) as [error|] eqn:Ht.
    2:{ cbn [app]. apply guard_fields in Hg. destruct Hg as [H1 [H2 _]].
        apply Hsame; assumption. }
    + cbn [app]. unfold MAX_SELF_FAILURES in Hg.
      destruct (Nat.leb_spec 5 (S (selfFailures s))) as [Hge|Hlt].
      * replace (4 - selfFailures s) with 0 by lia. cbn [skipn existsb].
        destruct (readable error); cbn [andb orb negb] in *.
        -- apply guard_fields in Hg. destruct Hg as [H1 [_ H3]].
           destruct (run_disabled rest _ H1 H3) as [Hguard _].
           unfold guard in Hguard. injection Hguard as Hr _ _.
           exact (eq_trans Hr H1).
        -- apply guard_fields in Hg. destruct Hg as [H1 [H2 _]].
           rewrite (IH _ H1), H2. replace (4 - S (selfFailures s)) with 0 by lia.
           reflexivity.
      * rewrite andb_false_r in Hg.
        apply guard_fields in Hg. destruct Hg as [H1 [H2 _]].
        rewrite (IH _ H1), H2.
        replace (4 - selfFailures s) with (S (4 - S (selfFailures s))) by lia.
        reflexivity.
Qed.

(** The exceptions whose message can be read, before the orchestrator
    gives up. *)
Lemma readable_bound (inputs : list Input) (s : State) :
  protected s ->
  length (filter readable (thrownValues inputs s))
  <= if isEnabled (systemState s) then 5 - Nat.min 4 (selfFailures s) else 0.
Proof.
  revert s. induction inputs as [|i rest IH]; intros s Hp.
  - cbn. lia.
  - destruct (isEnabled (systemState s)) eqn:Hen.
    2:{ destruct (run_disabled (i :: rest) s Hen (Hp Hen)) as [_ [_ ->]]. cbn. lia. }
    cbn [thrownValues]. rewrite filter_app, length_app.
    pose proof (IH (step s i) (step_protected s i Hp)) as Hrest.
    pose proof (step_guard s i) as Hg.
    assert (Hsame : isEnabled (systemState (step s i)) = isEnabled (systemState s) ->
                    selfFailures (step s i) = selfFailures s ->
                    length (filter readable (thrownValues rest (step s i)))
                    <= 5 - Nat.min 4 (selfFailures s)).
    { intros H1 H2. rewrite Hen in H1. rewrite H1, H2 in Hrest. exact Hrest. }
    destruct i as [c event|c outcome|c st msg|strategy consented|];
      try (cbn [filter length Nat.add]; apply guard_fields in Hg;
           destruct Hg as [H1 [H2 _]]; apply Hsame; assumption).
    destruct (thrown c event s) as [error|] eqn:Ht.
    2:{ cbn [filter length Nat.add]. apply guard_fields in Hg.
        destruct Hg as [H1 [H2 _]]. apply Hsame; assumption. }
    + unfold MAX_SELF_FAILURES in Hg. cbn [filter].
      destruct (Nat.leb_spec 5 (S (selfFailures s))) as [Hge|Hlt].
      * destruct (readable error); cbn [andb length] in *;
          apply guard_fields in Hg; destruct Hg as [H1 [H2 _]];
          rewrite H1, ?H2 in Hrest; lia.
      * rewrite andb_false_r in Hg.
        apply guard_fields in Hg. destruct Hg as [H1 [H2 _]].
        rewrite H1, H2 in Hrest.
        destruct (readable error); cbn [length]; lia.
Qed.

Lemma initialized_protected (instance : string) (now : Z) (timer : nat) :
  protected (initialized instance now timer).
Proof. unfold protected. cbn. discriminate. Qed.

(** The orchestrator gives up after at most five exceptions whose message
    it can read: whatever is delivered to the initialised orchestrator, no
    more than five exceptions that carry a value other than [null] and
    [undefined] are raised inside its event-handling path. *)
Theorem at_most_five_readable_self_failures (instance : string) (now : Z) (timer : nat)
    (inputs : list Input) :
  length (filter readable (thrownValues inputs (initialized instance now timer))) <= 5.
Proof.
  pose proof (readable_bound inputs _ (initialized_protected instance now timer)) as H.
  cbn [initialized systemState isEnabled selfFailures] in H. cbn in H. lia.
Qed.


(** *** The ring of recent events *)

Lemma firstn_app_firstn {A : Type} (n : nat) (a b : list A) :
  firstn n (a ++ firstn n b) = firstn n (a ++ b).
Proof.
  rewrite !firstn_app, firstn_firstn.
  replace (Nat.min (n - length a) n) with (n - length a) by lia. reflexivity.
Qed.

Lemma pushRecent_firstn (event : HealthEvent) (events : list HealthEvent) :
  length events <= 50 -> pushRecent event events = firstn 50 (event :: events).
Proof.
  intros Hlen. unfold pushRecent.
  destruct (50 <? length (event :: events))%nat eqn:E.
  - apply Nat.ltb_lt in E. rewrite removelast_firstn_len.
    cbn [length] in *. replace (Nat.pred (S (length events))) with 50 by lia.
    reflexivity.
  - apply Nat.ltb_ge in E. symmetry. apply firstn_all2. exact E.
Qed.

Lemma run_ring (inputs : list Input) (s : State) :
  length (ring s) <= 50 ->
  ring (run inputs s) = firstn 50 (rev (recorded inputs s) ++ ring s).
Proof.
  revert s. induction inputs as [|i rest IH]; intros s Hlen.
  - cbn [run fold_left recorded rev app]. symmetry. apply firstn_all2. exact Hlen.
  - cbn [run fold_left recorded].
    change (fold_left step rest (step s i)) with (run rest (step s i)).
    pose proof (step_ring s i) as Hstep.
    assert (Hcase : ring (step s i)
                    = firstn 50 (match i with
                                 | Event c event =>
                                     if isEnabled (systemState s) then [event] else []
                                 | _ => []
                                 end ++ ring s)).
    { rewrite Hstep. destruct i as [c event| | | |];
        try (symmetry; apply firstn_all2; exact Hlen).
      destruct (isEnabled (systemState s)).
      - apply pushRecent_firstn. exact Hlen.
      - symmetry. apply firstn_all2. exact Hlen. }
    rewrite IH by (rewrite Hcase; apply firstn_le_length).
    rewrite Hcase, firstn_app_firstn, rev_app_distr, <- app_assoc.
    f_equal. f_equal.
    destruct i as [c event| | | |]; try reflexivity.
    destruct (isEnabled (systemState s)); reflexivity.
Qed.

Lemma keeps_call_files {A : Type} (e : Effect) (r : attempt A) :
  writesFile e = false -> keeps fileWrites (call e r).
Proof. intros H s. unfold fileWrites. simpl. now rewrite H. Qed.

Lemma keeps_update_files (f : HealthSystemState -> HealthSystemState) :
  keeps fileWrites (update f).
Proof. intros s. reflexivity. Qed.

Ltac frame_files :=
  repeat (first [ apply keeps_bind; [|intro]
                | apply keeps_when
                | apply keeps_update_files
                | apply keeps_call_files; reflexivity
                | apply keeps_ret
                | apply keeps_gets
                | match goal with
                  | |- keeps _ (match ?x with _ => _ end) => destruct x
                  end ]).

Lemma handleHealthEvent_writes_no_file (c : Collaborators) (event : HealthEvent)
    (s : State) :
  fileWrites (handleHealthEvent c event s) = fileWrites s.
Proof.
  unfold handleHealthEvent. destruct (isEnabled (systemState s)); [|reflexivity].
  cbn [negb].
  assert (H : keeps fileWrites (handleHealthEvent_try c event))
    by (unfold handleHealthEvent_try; frame_files).
  specialize (H s).
  destruct (handleHealthEvent_try c event s) as [[u|e] s']; cbn [snd] in H; [exact H|].
  rewrite <- H. unfold handleSelfError. destruct (messageOf e); [|reflexivity].
  cbn [snd]. destruct (MAX_SELF_FAILURES <=? _)%nat; reflexivity.
Qed.

(** The calls that write a file, step by step: one at shutdown, the clean
    exit marker, and none in any handler. *)
Lemma step_writes (s : State) (i : Input) :
  fileWrites (step s i)
  = (match i with Shutdown => [MarkCleanExit] | _ => [] end ++ fileWrites s)%list.
Proof.
  destruct i as [c event|c outcome|c st msg|strategy consented|]; cbn [step app].
  - apply handleHealthEvent_writes_no_file.
  - unfold recoveryCompleted. destruct outcome as [[|]|e]; try reflexivity.
    match goal with
    | |- fileWrites (snd (?m s)) = _ =>
        assert (H : keeps fileWrites m) by frame_files; apply H
    end.
  - unfold pollReport. destruct (pollIntervalId s); [|reflexivity].
    assert (H : keeps fileWrites (handleStatusChange c st msg))
      by (unfold handleStatusChange; frame_files).
    apply H.
  - unfold triggerRecovery.
    match goal with
    | |- fileWrites (snd (?m s)) = _ =>
        assert (H : keeps fileWrites m) by frame_files; apply H
    end.
  - reflexivity.
Qed.

(** The diagnostic report is built from [getHealthState()] and reads the
    two counters of it: whatever the ring holds, the report is the same. *)
Lemma report_ignores_ring (denv : Diagnostics.Env) (events : list HealthEvent)
    (s : State) :
  Diagnostics.collectDiagnosticReport denv (Diagnostics.withRecentEvents events s)
  = Diagnostics.collectDiagnosticReport denv s.
Proof. reflexivity. Qed.


(** *** Status transitions *)

Ltac crush_handler :=
  repeat match goal with
         | |- context [match ?x with _ => _ end] =>
             match type of x with
             | result _ => destruct x eqn:?
             | attempt _ => destruct x eqn:?
             | outcome_of _ _ => destruct x eqn:?
             | Thrown => destruct x eqn:?
             | option _ => destruct x eqn:?
             | bool => destruct x eqn:?
             | Strategy => destruct x eqn:?
             | HealthStatus => destruct x eqn:?
             end; cbn in *
         | H : context [match ?x with _ => _ end] |- _ =>
             match type of x with
             | result _ => destruct x eqn:?
             | attempt _ => destruct x eqn:?
             | outcome_of _ _ => destruct x eqn:?
             | Thrown => destruct x eqn:?
             | option _ => destruct x eqn:?
             | bool => destruct x eqn:?
             | Strategy => destruct x eqn:?
             | HealthStatus => destruct x eqn:?
             end; cbn in *
         end.

Ltac open_handler :=
  unfold raises, handleHealthEvent in *;
  unfold handleHealthEvent_try, updateStatus, handleStatusChange, attemptRecovery,
    attemptRecoveryWithUI, bindM, when, gets, update, call, ret in *;
  cbn in *.

Lemma critical_transition (c : Collaborators) (event : HealthEvent) (s : State) :
  isEnabled (systemState s) = true -> raises c event s = false ->
  category event = "critical" ->
  consecutiveFailures (systemState (handleHealthEvent c event s))
  = S (consecutiveFailures (systemState s))
  /\ status (systemState (handleHealthEvent c event s)) = unhealthy.
Proof.
  destruct s as [[st i sa cf ra ip en re] sf poll effs].
  destruct event as [ty cat ts src msg].
  cbn [systemState isEnabled category]. intros -> Hr ->.
  open_handler. crush_handler; try discriminate; split; reflexivity.
Qed.

Lemma warning_transition (c : Collaborators) (event : HealthEvent) (s : State) :
  isEnabled (systemState s) = true -> raises c event s = false ->
  category event = "warning" -> status (systemState s) = healthy ->
  status (systemState (handleHealthEvent c event s)) = degraded.
Proof.
  destruct s as [[st i sa cf ra ip en re] sf poll effs].
  destruct event as [ty cat ts src msg].
  cbn [systemState isEnabled category status]. intros -> Hr -> ->.
  open_handler. crush_handler; try discriminate; reflexivity.
Qed.

Lemma info_transition (c : Collaborators) (event : HealthEvent) (s : State) :
  isEnabled (systemState s) = true -> raises c event s = false ->
  category event = "info" ->
  ev_type event = "recovery_success" \/ ev_type event = "startup_check" ->
  consecutiveFailures (systemState (handleHealthEvent c event s)) = 0
  /\ status (systemState (handleHealthEvent c event s)) = healthy.
Proof.
  destruct s as [[st i sa cf ra ip en re] sf poll effs].
  destruct event as [ty cat ts src msg].
  cbn [systemState isEnabled category ev_type]. intros -> Hr -> [-> | ->];
    open_handler; crush_handler; try discriminate; split; reflexivity.
Qed.

(** C3, as the code has it. While the orchestrator is enabled and the
    handling of the event raises no exception: a critical event adds one
    to [consecutiveFailures] and makes the status [unhealthy]; a warning
    event received in status [healthy] makes it [degraded]; and an info
    event of type [recovery_success] or [startup_check] sets
    [consecutiveFailures] to 0 and the status to [healthy]. *)
Theorem handleHealthEvent_transitions (c : Collaborators) (event : HealthEvent)
    (s : State) :
  isEnabled (systemState s) = true -> raises c event s = false ->
  let s' := systemState (handleHealthEvent c event s) in
  (category event = "critical" ->
     consecutiveFailures s' = S (consecutiveFailures (systemState s))
     /\ status s' = unhealthy)
  /\ (category event = "warning" -> status (systemState s) = healthy ->
      status s' = degraded)
  /\ (category event = "info" ->
      ev_type event = "recovery_success" \/ ev_type event = "startup_check" ->
      consecutiveFailures s' = 0 /\ status s' = healthy).
Proof.
  intros Hen Hr. cbv zeta. split; [|split].
  - apply critical_transition; assumption.
  - apply warning_transition; assumption.
  - apply info_transition; assumption.
Qed.

(** *** The calls of a run *)

Ltac give_calls tac :=
  first [ exists (@nil Effect); tac
        | eexists [_]; tac
        | eexists [_; _]; tac
        | eexists [_; _; _]; tac
        | eexists [_; _; _; _]; tac
        | eexists [_; _; _; _; _]; tac
        | eexists [_; _; _; _; _; _]; tac ].

Lemma event_calls (c : Collaborators) (event : HealthEvent) (s : State) :
  exists calls, calls_ok (Event c event) s (handleHealthEvent c event s) calls.
Proof.
  destruct s as [[st i sa cf ra ip en re] sf poll effs].
  destruct event as [ty cat ts src msg].
  unfold calls_ok. cbn [isCritical mayNotify automatic category].
  open_handler. crush_handler;
    try match goal with
        | H1 : (?x =? "info")%string = true, H2 : (?x =? "critical")%string = true |- _ =>
            apply String.eqb_eq in H1; apply String.eqb_eq in H2; congruence
        end;
    try match goal with
        | H : negb (HealthStatus_eqb ?a ?a) = true |- _ => destruct a; discriminate H
        end;
    unfold handleSelfError, disableHealthSystem, messageOf;
    try match goal with
        | |- context [match ?e with AnError _ => _ | Nullish => _ end] => destruct e
        end;
    cbn [snd selfFailures systemState effects pollIntervalId];
    try match goal with
        | |- context [(MAX_SELF_FAILURES <=? ?n)%nat] =>
            destruct (MAX_SELF_FAILURES <=? n)%nat
        end;
    give_calls ltac:(split; [reflexivity|]; cbn; repeat split; auto; lia).
Qed.

Lemma step_calls (s : State) (i : Input) : exists calls, calls_ok i s (step s i) calls.
Proof.
  destruct i as [c event|c outcome|c st msg|strategy consented|]; cbn [step].
  - apply event_calls.
  - destruct s as [[st i sa cf ra ip en re] sf poll effs].
    unfold calls_ok, recoveryCompleted. cbn [isCritical mayNotify automatic].
    destruct outcome as [[|]|e];
      unfold bindM, update, call; cbn;
      try destruct (updateErrorCount c 0); cbn;
      give_calls ltac:(split; [reflexivity|]; cbn; repeat split; auto; lia).
  - destruct s as [[st0 i sa cf ra ip en re] sf poll effs].
    unfold calls_ok, pollReport, handleStatusChange, bindM, when, gets, update, call, ret.
    cbn [isCritical mayNotify automatic pollIntervalId].
    destruct poll as [t|]; cbn;
      [destruct (HealthStatus_eqb st st0) eqn:E; cbn;
       try destruct (sendToRenderer c st st0 msg); cbn|];
      give_calls ltac:(split; [reflexivity|]; cbn; try rewrite E; repeat split; auto; lia).
  - destruct s as [[st i sa cf ra ip en re] sf poll effs].
    unfold calls_ok, triggerRecovery, bindM, gets, update, call. cbn.
    give_calls ltac:(split; [reflexivity|]; cbn; repeat split; auto; try lia; discriminate).
  - unfold calls_ok, shutdownHealthSystem. cbn.
    give_calls ltac:(split; [reflexivity|]; cbn; repeat split; auto; lia).
Qed.

Lemma filter_length_app {A : Type} (f : A -> bool) (a b : list A) :
  length (filter f (a ++ b)) = length (filter f a) + length (filter f b).
Proof. now rewrite filter_app, length_app. Qed.

Lemma run_calls (inputs : list Input) (s : State) :
  exists calls,
    effects (run inputs s) = (calls ++ effects s)%list
    /\ recoveryAttempts (systemState (run inputs s))
       = recoveryAttempts (systemState s) + length (filter startsRecovery calls)
    /\ forallb reportsChange calls = true
    /\ (forallb automatic inputs = true ->
        forallb consentRespected calls = true
        /\ length (filter startsRecovery calls) <= length (filter isCritical inputs))
    /\ length (filter notifies calls) <= length (filter mayNotify inputs).
Proof.
  revert s. induction inputs as [|i rest IH]; intros s.
  - exists []. cbn. repeat split; auto.
  - destruct (step_calls s i) as [c1 [E1 [R1 [C1 [A1 N1]]]]].
    destruct (IH (step s i)) as [c2 [E2 [R2 [C2 [A2 N2]]]]].
    exists (c2 ++ c1)%list. change (run (i :: rest) s) with (run rest (step s i)).
    split; [rewrite E2, E1; apply app_assoc|].
    split; [rewrite R2, R1, filter_length_app; lia|].
    split; [rewrite forallb_app, C1, C2; reflexivity|].
    split.
    + cbn [forallb]. intros H. apply andb_true_iff in H as [Hi Hrest].
      destruct (A1 Hi) as [A1a A1b]. destruct (A2 Hrest) as [A2a A2b].
      split; [rewrite forallb_app, A1a, A2a; reflexivity|].
      rewrite filter_length_app. cbn [filter].
      destruct (isCritical i); cbn [length]; lia.
    + rewrite filter_length_app. cbn [filter].
      destruct (mayNotify i); cbn [length]; lia.
Qed.

(** Every recovery that is started is counted, and none is started past the
    user: over any run, [recoveryAttempts] grows by exactly the number of
    calls to [executeRecovery] and [executeRecoveryWithUI] made during it;
    and in a run without a manual trigger each such call is
    [executeRecovery] of S1 or S2 without the consent flag or
    [executeRecoveryWithUI] of S3 or S4, and there are no more of them than
    critical events. *)
Theorem recoveries_counted_and_consented (inputs : list Input) (s : State) :
  exists calls,
    effects (run inputs s) = (calls ++ effects s)%list
    /\ recoveryAttempts (systemState (run inputs s))
       = recoveryAttempts (systemState s) + length (filter startsRecovery calls)
    /\ (forallb automatic inputs = true ->
        forallb consentRespected calls = true
        /\ length (filter startsRecovery calls) <= length (filter isCritical inputs)).
Proof.
  destruct (run_calls inputs s) as [calls [E [R [_ [A _]]]]].
  exists calls. auto.
Qed.

(** The renderer is told of a status only when it changes, and not of every
    change: each [health:status-change] message of a run carries a status
    that differs from the previous one, and there are no more messages than
    critical events, warning events and poller reports; an info event and a
    completed recovery send none, also when they set the status back to
    [healthy]. *)
Theorem renderer_told_on_change_only (inputs : list Input) (s : State)
    (c : Collaborators) (event : HealthEvent) (outcome : attempt bool) :
  (exists calls,
      effects (run inputs s) = (calls ++ effects s)%list
      /\ forallb reportsChange calls = true
      /\ length (filter notifies calls) <= length (filter mayNotify inputs))
  /\ (category event = "info" ->
      notifications (handleHealthEvent c event s) = notifications s)
  /\ notifications (recoveryCompleted c outcome s) = notifications s.
Proof.
  assert (Hsilent : forall i, mayNotify i = false ->
                              notifications (step s i) = notifications s).
  { intros i Hi. destruct (step_calls s i) as [calls [E [_ [_ [_ N]]]]].
    rewrite Hi in N. unfold notifications. rewrite E, filter_app.
    destruct (filter notifies calls); [reflexivity|cbn in N; lia]. }
  split; [|split].
  - destruct (run_calls inputs s) as [calls [E [_ [C [_ N]]]]].
    exists calls. auto.
  - intros Hcat. apply (Hsilent (Event c event)). cbn. rewrite Hcat. reflexivity.
  - apply (Hsilent (RecoveryCompleted c outcome)). reflexivity.
Qed.

End OrchestratorFacts.

Section OrchestratorExamples.
Import Js Types Orchestrator.

Example troubled_state :
  consecutiveFailures (systemState troubled) = 3
  /\ status (systemState troubled) = unhealthy
  /\ isEnabled (systemState troubled) = true.
Proof. repeat split. Qed.

Example escalation_calls :
  filter (fun e => match e with
                   | ExecuteRecovery _ _ | ExecuteRecoveryWithUI _ _ => true
                   | _ => false
                   end) (effects troubled)
  = [ExecuteRecoveryWithUI S3 "Process exited with code 1";
     ExecuteRecovery S2 false; ExecuteRecovery S1 false].
Proof. reflexivity. Qed.

(** A critical event, a warning and a startup check on the demo system. *)
Lemma transitions_witness :
  (consecutiveFailures (systemState (handleHealthEvent quiet (exitEvent 4) troubled)) = 4
   /\ status (systemState (handleHealthEvent quiet (exitEvent 4) troubled)) = unhealthy)
  /\ status (systemState
               (handleHealthEvent quiet
                  (mkHealthEvent "renderer_unresponsive" "warning" 5 "renderer" "slow")
                  demoState)) = degraded
  /\ (consecutiveFailures
        (systemState
           (handleHealthEvent quiet
              (mkHealthEvent "startup_check" "info" 6 "startup" "ok") troubled)) = 0
      /\ status
           (systemState
              (handleHealthEvent quiet
                 (mkHealthEvent "startup_check" "info" 6 "startup" "ok") troubled))
         = healthy).
Proof.
  split; [|split].
  - destruct (handleHealthEvent_transitions quiet (exitEvent 4) troubled eq_refl eq_refl)
      as [H _].
    exact (H eq_refl).
  - destruct (handleHealthEvent_transitions quiet
                (mkHealthEvent "renderer_unresponsive" "warning" 5 "renderer" "slow")
                demoState eq_refl eq_refl) as [_ [H _]].
    exact (H eq_refl eq_refl).
  - destruct (handleHealthEvent_transitions quiet
                (mkHealthEvent "startup_check" "info" 6 "startup" "ok")
                troubled eq_refl eq_refl) as [_ [_ H]].
    exact (H eq_refl (or_intror eq_refl)).
Defined.

(** An info event of type [steady_state] (or [steady-state]) is recorded
    and changes neither the failure count nor the status. And when the
    recovery manager throws while a critical event is handled, the count
    has gone up but the status is left as it was. *)
Lemma steady_state_event_resets_nothing :
  let ev1 := mkHealthEvent "steady_state" "info" 6 "poller" "all clear" in
  let ev2 := mkHealthEvent "steady-state" "info" 6 "poller" "all clear" in
  (raises quiet ev1 troubled = false
   /\ hd_error (recentEvents (systemState (handleHealthEvent quiet ev1 troubled)))
      = Some ev1
   /\ consecutiveFailures (systemState (handleHealthEvent quiet ev1 troubled)) = 3
   /\ status (systemState (handleHealthEvent quiet ev1 troubled)) = unhealthy
   /\ consecutiveFailures (systemState (handleHealthEvent quiet ev2 troubled)) = 3
   /\ status (systemState (handleHealthEvent quiet ev2 troubled)) = unhealthy)
  /\ (raises broken (exitEvent 1) demoState = true
      /\ consecutiveFailures
           (systemState (handleHealthEvent broken (exitEvent 1) demoState)) = 1
      /\ status (systemState (handleHealthEvent broken (exitEvent 1) demoState))
         = healthy).
Proof. cbv zeta. repeat split. Qed.




End OrchestratorExamples.

(** ** The runtime checker: the event-driven scan *)

Section ScanFacts.
Import Js Types Platform Registry RuntimeChecker.
Context {World : Type} (env : Env World).

Lemma deadIn_nil (e : ProcessEntry) : deadIn [] e = pidTruthy (pid e).
Proof.
  unfold deadIn. destruct (pid e) as [p|]; [|reflexivity].
  cbn [includesPid existsb negb]. apply andb_true_r.
Qed.

Lemma isDead_failed_scan (err : Error) (l : list ProcessEntry) :
  filter (isDead (Throw err)) l = filter (fun e => pidTruthy (pid e)) l.
Proof.
  apply filter_ext. intros e. unfold isDead.
  destruct (type e); cbn [scanned]; apply deadIn_nil.
Qed.

(** [runPpidScanAndCleanup] and [doImmediateCheck] run the same
    reconciliation when the scan answers: same counts, same registry
    afterwards. When the scan throws they part: the event-driven scan
    removes nothing and reports zeros, the immediate check takes every
    registered entry with a pid for dead and unregisters it. *)
Theorem scan_and_check_reconcile (ts : Z) (st : Registry.State) (w : World) :
  let scan := fst (findChildProcesses (platformOps env) (mainPid env) w) in
  let quick := runPpidScanAndCleanup env st w in
  let full := doImmediateCheck env ts st w in
  (is_ok scan = true ->
     fst (fst quick) = registryCleanup (fst (fst full))
     /\ snd (fst quick) = snd (fst full))
  /\ (is_throw scan = true ->
      fst (fst quick) = {| removed := 0; orphans := 0 |}
      /\ snd (fst quick) = st
      /\ removed (registryCleanup (fst (fst full))) = length (withPid st)
      /\ orphans (registryCleanup (fst (fst full))) = 0)
  /\ snd quick = snd full.
Proof.
  cbv zeta. unfold runPpidScanAndCleanup, doImmediateCheck.
  destruct (findChildProcesses (platformOps env) (mainPid env) w) as [scan w1].
  cbn [fst].
  destruct scan as [children|err].
  - rewrite !reapDead_fold.
    destruct (match getRouterInfo env with Some _ => _ | None => _ end)
      as [routerStatus issues3].
    destruct (if serverRunning env then _ else _) as [httpServerStatus issues4].
    cbn [fst snd registryCleanup]. split; [|split]; [auto|discriminate|reflexivity].
  - rewrite !reapDead_fold.
    destruct (match getRouterInfo env with Some _ => _ | None => _ end)
      as [routerStatus issues3].
    destruct (if serverRunning env then _ else _) as [httpServerStatus issues4].
    cbn [fst snd registryCleanup removed orphans].
    split; [discriminate|]. split; [|reflexivity].
    intros _. repeat split.
    pose proof (dead_by_type (Throw err) (getCurrentProcesses st)) as H.
    cbn [scanned] in H. rewrite isDead_failed_scan in H.
    unfold withPid. rewrite <- H. reflexivity.
Qed.

End ScanFacts.

(** ** The runtime checker: the passive fallback check *)

Section FallbackCheckFacts.
Import Js Types FallbackCheck.

Example fallback_calm : statusOf calm = healthy /\ messageOf calm = "All checks passed".
Proof. split; reflexivity. Qed.

Example fallback_strained :
  statusOf strained = degraded
  /\ messageOf strained
     = "2 orphan processes in registry; 1 consecutive errors; High memory usage: 600MB".
Proof. split; reflexivity. Qed.

Lemma issuesOf_nil (r : Readings) :
  issuesOf r = []
  <-> orphanProcesses r = 0 /\ recentCritical r = [] /\ totalErrors r = 0
      /\ (heapUsed r <= 500 * 1048576)%Z.
Proof.
  unfold issuesOf, memoryCritical, RuntimeChecker.memoryHigh,
    MEMORY_CRITICAL_THRESHOLD_MB, RuntimeChecker.MEMORY_WARNING_THRESHOLD_MB.
  destruct (orphanProcesses r) as [|n]; cbn [Nat.ltb Nat.leb app].
  2:{ split; [discriminate|intros [H _]; discriminate]. }
  destruct (recentCritical r) as [|e l]; cbn [length Nat.ltb Nat.leb app].
  2:{ split; [discriminate|intros [_ [H _]]; discriminate]. }
  destruct (totalErrors r) as [|m]; cbn [Nat.ltb Nat.leb app].
  2:{ split; [discriminate|intros [_ [_ [H _]]]; discriminate]. }
  destruct (Z.ltb_spec (1024 * 1048576) (heapUsed r)) as [H1|H1].
  { split; [discriminate|intros [_ [_ [_ H]]]; lia]. }
  destruct (Z.ltb_spec (500 * 1048576) (heapUsed r)) as [H2|H2].
  { split; [discriminate|intros [_ [_ [_ H]]]; lia]. }
  split; auto.
Qed.

(** The passive status: [healthy] exactly when no issue was found (no
    orphan entry, no critical event of the last minute, no counted error,
    heap at most 500 MB); [unhealthy] exactly on a critical event of the
    last minute, three or more counted errors, or a heap above 1024 MB;
    so a status other than [healthy] always comes with an issue to
    report. *)
Theorem fallback_status_classes (r : Readings) :
  (statusOf r = healthy <-> issuesOf r = [])
  /\ (statusOf r = healthy <->
      orphanProcesses r = 0 /\ recentCritical r = [] /\ totalErrors r = 0
      /\ (heapUsed r <= 500 * 1048576)%Z)
  /\ (statusOf r = unhealthy <->
      recentCritical r <> [] \/ 3 <= totalErrors r
      \/ (1024 * 1048576 < heapUsed r)%Z)
  /\ (statusOf r <> healthy -> messageOf r = String.concat "; " (issuesOf r)
                               /\ issuesOf r <> []).
Proof.
  assert (Hh : statusOf r = healthy <-> issuesOf r = []).
  { unfold statusOf. split.
    - destruct (_ || _ || _); [discriminate|].
      destruct (issuesOf r); [reflexivity|discriminate].
    - intros H. pose proof (proj1 (issuesOf_nil r) H) as [_ [Hc [He Hm]]].
      rewrite H, Hc, He. unfold memoryCritical, MEMORY_CRITICAL_THRESHOLD_MB.
      destruct (Z.ltb_spec (1024 * 1048576) (heapUsed r)); [lia|reflexivity]. }
  split; [exact Hh|]. split; [rewrite Hh; apply issuesOf_nil|]. split.
  - unfold statusOf, memoryCritical, MEMORY_CRITICAL_THRESHOLD_MB.
    destruct (Nat.leb_spec 3 (totalErrors r)) as [H3|H3].
    { rewrite orb_true_r. cbn [orb]. split; [intros _; right; left; exact H3|reflexivity]. }
    destruct (Z.ltb_spec (1024 * 1048576) (heapUsed r)) as [H1|H1].
    { rewrite orb_true_r. split; [intros _; right; right; exact H1|reflexivity]. }
    rewrite !orb_false_r.
    destruct (recentCritical r) as [|e l]; cbn [length Nat.ltb Nat.leb].
    2:{ split; [intros _; left; discriminate|reflexivity]. }
    split.
    + destruct (length (issuesOf r)); discriminate.
    + intros [H|[H|H]]; [contradiction|lia|lia].
  - intros Hne. assert (Hi : issuesOf r <> []) by (intros H; apply Hne, Hh, H).
    split; [|exact Hi]. unfold messageOf. destruct (issuesOf r); [contradiction|reflexivity].
Qed.

Lemma filter_filter_same {A : Type} (f : A -> bool) (l : list A) :
  filter f (filter f l) = filter f l.
Proof.
  induction l as [|a l IH]; [reflexivity|].
  cbn [filter]. destruct (f a) eqn:E; [|exact IH].
  cbn [filter]. rewrite E. f_equal. exact IH.
Qed.

Lemma recentCritical_withoutStale (r : Readings) :
  recentCritical (withoutStale r) = recentCritical r.
Proof.
  unfold recentCritical at 1. unfold withoutStale. cbn [recentEvents now].
  unfold recentCritical. apply filter_filter_same.
Qed.

(** The passive check reports only a change of status: the callback is
    called exactly when there is one and the new status differs from the
    last known one; after a report that the callback accepted, the same
    readings report nothing more, and after one that the callback threw on
    they report again; events that are not critical or older than a minute
    play no part. *)
Theorem fallback_reports_transitions
    (callback : HealthStatus -> string -> result unit) (r : Readings)
    (lastKnownStatus : HealthStatus) :
  let first := performFallbackCheck (Some callback) r lastKnownStatus in
  (fst first = None <-> statusOf r = lastKnownStatus)
  /\ (forall report, fst first = Some report -> report = (statusOf r, messageOf r))
  /\ (is_ok (callback (statusOf r) (messageOf r)) = true ->
      snd first = statusOf r
      /\ fst (performFallbackCheck (Some callback) r (snd first)) = None)
  /\ (is_throw (callback (statusOf r) (messageOf r)) = true ->
      snd first = lastKnownStatus)
  /\ performFallbackCheck (Some callback) (withoutStale r) lastKnownStatus = first.
Proof.
  cbv zeta.
  assert (Heqb : forall a b, HealthStatus_eqb a b = true <-> a = b)
    by (intros [] []; cbn; split; intros; try reflexivity; discriminate).
  assert (Hrefl : forall a, HealthStatus_eqb a a = true) by (intros a; now apply Heqb).
  unfold performFallbackCheck.
  destruct (HealthStatus_eqb (statusOf r) lastKnownStatus) eqn:E; cbn [negb].
  - apply Heqb in E. split; [tauto|]. split; [discriminate|].
    split; [|split].
    + intros _. cbn [snd]. rewrite <- E, Hrefl. auto.
    + reflexivity.
    + assert (Hs : statusOf (withoutStale r) = statusOf r).
      { unfold statusOf, issuesOf. rewrite !recentCritical_withoutStale. reflexivity. }
      rewrite Hs, E, Hrefl. reflexivity.
  - assert (Hne : statusOf r <> lastKnownStatus)
      by (intros H; apply Heqb in H; congruence).
    assert (Hs : statusOf (withoutStale r) = statusOf r).
    { unfold statusOf, issuesOf. rewrite !recentCritical_withoutStale. reflexivity. }
    assert (Hm : messageOf (withoutStale r) = messageOf r).
    { unfold messageOf, issuesOf. rewrite !recentCritical_withoutStale. reflexivity. }
    rewrite Hs, Hm, E. cbn [negb].
    destruct (callback (statusOf r) (messageOf r)) as [u|e]; cbn [fst snd is_ok is_throw].
    + split; [split; [discriminate|contradiction]|].
      split; [intros report H; injection H as <-; reflexivity|].
      split; [|split; [discriminate|reflexivity]].
      intros _. rewrite Hrefl. auto.
    + split; [split; [discriminate|contradiction]|].
      split; [intros report H; injection H as <-; reflexivity|].
      split; [discriminate|]. split; reflexivity.
Qed.

End FallbackCheckFacts.

(** ** The process cleaner: which processes are signalled *)

Section CleanerTargets.
Import Js Types Platform Registry Cleaner.
Context {World : Type} (ops : PlatformProcessOps World).

Lemma fold_left_inv {A B : Type} (f : A -> B -> A) (I : A -> Prop) (l : list B) :
  (forall acc x, In x l -> I acc -> I (f acc x)) ->
  forall acc, I acc -> I (fold_left f l acc).
Proof.
  induction l as [|x l IH]; intros Hstep acc Hacc; cbn [fold_left]; [exact Hacc|].
  apply IH.
  - intros acc' y Hy. apply Hstep. right. exact Hy.
  - apply Hstep; [left; reflexivity|exact Hacc].
Qed.

Lemma tallied_cleaned (P : Z -> Prop) (result : CleanupResult) (log : list (Z * string))
    (d : CleanupDetail) :
  P (cd_pid d) -> tallied P result log ->
  tallied P (countCleaned result d) ((cd_pid d, "SIGTERM") :: log).
Proof.
  intros HP [H1 [H2 [H3 H4]]]. unfold tallied, countCleaned. cbn [cleaned failed details].
  split; [cbn [length]; lia|]. split; [rewrite length_app; cbn [length]; lia|]. split.
  - intros d' Hd. apply in_app_or in Hd. destruct Hd as [Hd|[<-|[]]].
    + right. apply H3. exact Hd.
    + left. reflexivity.
  - intros p sig [Heq|Hin]; [|apply H4; exact Hin].
    injection Heq as <- <-. split; [reflexivity|exact HP].
Qed.

Lemma tallied_failed (P : Z -> Prop) (result : CleanupResult) (log : list (Z * string))
    (p : Z) :
  P p -> tallied P result log -> tallied P (countFailed result) ((p, "SIGTERM") :: log).
Proof.
  intros HP [H1 [H2 [H3 H4]]]. unfold tallied, countFailed. cbn [cleaned failed details].
  split; [cbn [length]; lia|]. split; [exact H2|]. split.
  - intros d Hd. right. apply H3. exact Hd.
  - intros q sig [Heq|Hin]; [|apply H4; exact Hin].
    injection Heq as <- <-. split; [reflexivity|exact HP].
Qed.

Lemma killByPid_tallied (P : Z -> Prop) (entry : ProcessEntry)
    (acc : CleanupResult * (World * list (Z * string))) :
  (forall p, pid entry = Some p -> P p) ->
  tallied P (fst acc) (snd (snd acc)) ->
  tallied P (fst (killByPid (recording ops) acc entry))
            (snd (snd (killByPid (recording ops) acc entry))).
Proof.
  destruct acc as [result [w log]]. intros HP Hacc. unfold killByPid.
  destruct (pid entry) as [p|]; [|exact Hacc].
  destruct (negb (pidTruthy (Some p))); [exact Hacc|].
  cbn [recording isProcessAlive killProcess fst snd].
  destruct (isProcessAlive ops p w); [|exact Hacc].
  destruct (killProcess ops p "SIGTERM" w) as [[u|e] w']; cbn [fst snd].
  - apply (tallied_cleaned P result log (mkCleanupDetail p (type entry) by_pid));
      [apply HP; reflexivity|exact Hacc].
  - apply tallied_failed; [apply HP; reflexivity|exact Hacc].
Qed.

Lemma killByArgs_tallied (P : Z -> Prop) (cur : string) (proc : ProcessInfo)
    (acc : CleanupResult * (World * list (Z * string))) :
  (includes (commandLine proc) (HALO_INSTANCE_PREFIX ++ cur) = false -> P (pi_pid proc)) ->
  tallied P (fst acc) (snd (snd acc)) ->
  tallied P (fst (killByArgs (recording ops) cur acc proc))
            (snd (snd (killByArgs (recording ops) cur acc proc))).
Proof.
  destruct acc as [result [w log]]. intros HP Hacc. unfold killByArgs.
  destruct (includes (commandLine proc) (HALO_INSTANCE_PREFIX ++ cur)); [exact Hacc|].
  destruct (existsb _ (details result)); [exact Hacc|].
  cbn [recording isProcessAlive killProcess fst snd].
  destruct (isProcessAlive ops (pi_pid proc) w); cbn [negb]; [|exact Hacc].
  destruct (killProcess ops (pi_pid proc) "SIGTERM" w) as [[u|e] w']; cbn [fst snd].
  - apply (tallied_cleaned P result log
             (mkCleanupDetail (pi_pid proc) (inferProcessType (commandLine proc)) by_args));
      [apply HP; reflexivity|exact Hacc].
  - apply tallied_failed; [apply HP; reflexivity|exact Hacc].
Qed.

(** Writing the kills down changes neither the result nor the world. *)
Lemma killByPid_recorded (l : list ProcessEntry) (result : CleanupResult) (w : World)
    (log : list (Z * string)) :
  fst (fold_left (killByPid (recording ops)) l (result, (w, log)))
  = fst (fold_left (killByPid ops) l (result, w))
  /\ fst (snd (fold_left (killByPid (recording ops)) l (result, (w, log))))
     = snd (fold_left (killByPid ops) l (result, w)).
Proof.
  revert result w log. induction l as [|entry l IH]; intros result w log;
    cbn [fold_left]; [split; reflexivity|].
  assert (Hstep : exists log',
             killByPid (recording ops) (result, (w, log)) entry
             = (fst (killByPid ops (result, w) entry),
                (snd (killByPid ops (result, w) entry), log'))).
  { unfold killByPid. destruct (pid entry) as [p|]; [|eexists; reflexivity].
    destruct (negb (pidTruthy (Some p))); [eexists; reflexivity|].
    cbn [recording isProcessAlive killProcess fst snd].
    destruct (isProcessAlive ops p w); [|eexists; reflexivity].
    destruct (killProcess ops p "SIGTERM" w) as [[u|e] w']; eexists; reflexivity. }
  destruct Hstep as [log' Hstep]. rewrite Hstep.
  destruct (killByPid ops (result, w) entry) as [result' w']. apply IH.
Qed.

Lemma killByArgs_recorded (cur : string) (l : list ProcessInfo) (result : CleanupResult)
    (w : World) (log : list (Z * string)) :
  fst (fold_left (killByArgs (recording ops) cur) l (result, (w, log)))
  = fst (fold_left (killByArgs ops cur) l (result, w))
  /\ fst (snd (fold_left (killByArgs (recording ops) cur) l (result, (w, log))))
     = snd (fold_left (killByArgs ops cur) l (result, w)).
Proof.
  revert result w log. induction l as [|proc l IH]; intros result w log;
    cbn [fold_left]; [split; reflexivity|].
  assert (Hstep : exists log',
             killByArgs (recording ops) cur (result, (w, log)) proc
             = (fst (killByArgs ops cur (result, w) proc),
                (snd (killByArgs ops cur (result, w) proc), log'))).
  { unfold killByArgs.
    destruct (includes (commandLine proc) (HALO_INSTANCE_PREFIX ++ cur));
      [eexists; reflexivity|].
    destruct (existsb _ (details result)); [eexists; reflexivity|].
    cbn [recording isProcessAlive killProcess fst snd].
    destruct (isProcessAlive ops (pi_pid proc) w); cbn [negb]; [|eexists; reflexivity].
    destruct (killProcess ops (pi_pid proc) "SIGTERM" w) as [[u|e] w'];
      eexists; reflexivity. }
  destruct Hstep as [log' Hstep]. rewrite Hstep.
  destruct (killByArgs ops cur (result, w) proc) as [result' w']. apply IH.
Qed.

(** Only what the registry or the scan names as foreign is signalled, and
    only with SIGTERM. With the instance identifier set to [cur], and the
    kills of a pass written down: there are as many kills as [cleaned] and
    [failed] together, [cleaned] is the number of details, every detail is
    one of the kills, and every kill is a SIGTERM to a pid that an orphan
    entry of the registry records or that the args scan lists with a
    command line without the marker of [cur]. Writing the kills down
    changes neither the result, nor the registry, nor the world. *)
Theorem cleanupOrphans_kill_targets (st : Registry.State) (w : World) (cur : string) :
  getCurrentInstanceId st = Some cur ->
  let pass := cleanupOrphans (recording ops) st (w, []) in
  let result := fst (fst pass) in
  let log := snd (snd pass) in
  length log = cleaned result + failed result
  /\ cleaned result = length (details result)
  /\ (forall d, In d (details result) -> In (cd_pid d, "SIGTERM") log)
  /\ (forall p sig, In (p, sig) log ->
        sig = "SIGTERM"
        /\ (In (Some p) (map pid (getOrphanProcesses st))
            \/ exists proc, In proc (argsScan ops st w) /\ pi_pid proc = p
                 /\ includes (commandLine proc) (HALO_INSTANCE_PREFIX ++ cur) = false))
  /\ (fst pass, fst (snd pass)) = cleanupOrphans ops st w.
Proof.
  intros Hcur. cbv zeta.
  set (P := fun p : Z =>
              In (Some p) (map pid (getOrphanProcesses st))
              \/ exists proc, In proc (argsScan ops st w) /\ pi_pid proc = p
                   /\ includes (commandLine proc) (HALO_INSTANCE_PREFIX ++ cur) = false).
  enough (tallied P (fst (fst (cleanupOrphans (recording ops) st (w, []))))
                    (snd (snd (cleanupOrphans (recording ops) st (w, []))))
          /\ (fst (cleanupOrphans (recording ops) st (w, [])),
              fst (snd (cleanupOrphans (recording ops) st (w, []))))
             = cleanupOrphans ops st w) as [[T1 [T2 [T3 T4]]] T5]
    by (split; [exact T1|split; [exact T2|split; [exact T3|split; [exact T4|exact T5]]]]).
  assert (Hnil : tallied P emptyResult []).
  { unfold tallied. cbn. repeat split; intros; contradiction. }
  unfold cleanupOrphans. rewrite Hcur.
  destruct cur as [|c cur']; [split; [exact Hnil|reflexivity]|].
  set (cur := String c cur') in *.
  pose proof (killByPid_recorded (getOrphanProcesses st) emptyResult w []) as [Hr1 Hw1].
  assert (H1 : tallied P
                 (fst (fold_left (killByPid (recording ops)) (getOrphanProcesses st)
                         (emptyResult, (w, []))))
                 (snd (snd (fold_left (killByPid (recording ops)) (getOrphanProcesses st)
                              (emptyResult, (w, [])))))).
  { apply (fold_left_inv (killByPid (recording ops))
             (fun acc => tallied P (fst acc) (snd (snd acc)))); [|exact Hnil].
    intros acc entry Hin Hacc. apply killByPid_tallied; [|exact Hacc].
    intros p Hp. left. rewrite <- Hp. apply in_map. exact Hin. }
  assert (Hscan : argsScan ops st w
                  = match fst (findByArgs ops HALO_MANAGED_FLAG
                                 (snd (fold_left (killByPid ops) (getOrphanProcesses st)
                                         (emptyResult, w)))) with
                    | Ok haloProcesses => haloProcesses
                    | Throw _ => []
                    end) by reflexivity.
  destruct (fold_left (killByPid (recording ops)) (getOrphanProcesses st)
              (emptyResult, (w, []))) as [result1 [w1 log1]].
  destruct (fold_left (killByPid ops) (getOrphanProcesses st) (emptyResult, w))
    as [result1' w1'].
  cbn [fst snd] in Hr1, Hw1, H1, Hscan. subst result1' w1'.
  cbn [recording findByArgs fst snd].
  destruct (findByArgs ops HALO_MANAGED_FLAG w1) as [[procs|e] w2]; cbn [fst] in Hscan.
  - pose proof (killByArgs_recorded cur procs result1 w2 log1) as [Hr2 Hw2].
    assert (H2 : tallied P
                   (fst (fold_left (killByArgs (recording ops) cur) procs
                           (result1, (w2, log1))))
                   (snd (snd (fold_left (killByArgs (recording ops) cur) procs
                                (result1, (w2, log1)))))).
    { apply (fold_left_inv (killByArgs (recording ops) cur)
               (fun acc => tallied P (fst acc) (snd (snd acc)))); [|exact H1].
      intros acc proc Hin Hacc. apply killByArgs_tallied; [|exact Hacc].
      intros Hforeign. right. exists proc. rewrite Hscan. auto. }
    destruct (fold_left (killByArgs (recording ops) cur) procs (result1, (w2, log1)))
      as [result2 [w3 log2]].
    destruct (fold_left (killByArgs ops cur) procs (result1, w2)) as [result2' w3'].
    cbn [fst snd] in *. subst result2' w3'. split; [exact H2|reflexivity].
  - cbn [fst snd]. split; [exact H1|reflexivity].
Qed.

End CleanerTargets.

Section CleanerTargetsExamples.
Import Js Types Platform Registry Cleaner.

(** On the demo system two kills are made, both of orphan entries of the
    registry; the process of the running instance is not touched. *)
Example cleanupOrphans_demo_kills :
  snd (snd (cleanupOrphans (recording demoOps) demoRegistry (demoWorld, [])))
  = [(1235%Z, "SIGTERM"); (1234%Z, "SIGTERM")].
Proof. reflexivity. Qed.

Lemma cleanupOrphans_kill_targets_witness :
  length (snd (snd (cleanupOrphans (recording demoOps) demoRegistry (demoWorld, []))))
  = cleaned (fst (fst (cleanupOrphans (recording demoOps) demoRegistry (demoWorld, []))))
    + failed (fst (fst (cleanupOrphans (recording demoOps) demoRegistry (demoWorld, []))))
  /\ (fst (cleanupOrphans (recording demoOps) demoRegistry (demoWorld, [])),
      fst (snd (cleanupOrphans (recording demoOps) demoRegistry (demoWorld, []))))
     = cleanupOrphans demoOps demoRegistry demoWorld.
Proof.
  destruct (cleanupOrphans_kill_targets demoOps demoRegistry demoWorld "run-2" eq_refl)
    as [H1 [_ [_ [_ H5]]]].
  split; [exact H1|exact H5].
Defined.

End CleanerTargetsExamples.

(** ** The process cleaner: verification *)

Section VerifyFacts.
Import Js Types Platform Registry Cleaner.

Lemma afterPrefix_app (p s rest : string) : afterPrefix p s = Some rest -> s = p ++ rest.
Proof.
  revert s. induction p as [|a p IH]; intros s H.
  - destruct s; injection H as <-; reflexivity.
  - destruct s as [|b s]; [discriminate|]. cbn [afterPrefix] in H.
    destruct (Ascii.eqb_spec a b) as [<-|]; [|discriminate].
    cbn [append]. f_equal. apply IH. exact H.
Qed.

Lemma idRun_app (s : string) : exists post, s = idRun s ++ post.
Proof.
  induction s as [|c s [post IH]]; [exists EmptyString; reflexivity|].
  cbn [idRun]. destruct (isInstanceIdChar c).
  - exists post. cbn [append]. f_equal. exact IH.
  - exists (String c s). reflexivity.
Qed.

Lemma append_assoc (a b c : string) : (a ++ b) ++ c = a ++ (b ++ c).
Proof. induction a as [|x a IH]; cbn [append]; [reflexivity|now rewrite IH]. Qed.

Lemma matchHere_app (s run : string) :
  matchHere s = Some run ->
  run <> EmptyString /\ exists post, s = (HALO_INSTANCE_PREFIX ++ run) ++ post.
Proof.
  unfold matchHere. destruct (afterPrefix HALO_INSTANCE_PREFIX s) as [rest|] eqn:E;
    [|discriminate].
  apply afterPrefix_app in E. destruct (idRun_app rest) as [post Hpost].
  destruct (idRun rest) as [|c r] eqn:Er; [discriminate|].
  intros H. injection H as <-. split; [discriminate|].
  exists post. rewrite E, append_assoc. f_equal. exact Hpost.
Qed.

Lemma matchInstance_app (s run : string) :
  matchInstance s = Some run ->
  run <> EmptyString
  /\ exists pre post, s = pre ++ (HALO_INSTANCE_PREFIX ++ run) ++ post.
Proof.
  induction s as [|c s IH].
  - cbn [matchInstance]. destruct (matchHere EmptyString) eqn:E; [|discriminate].
    intros H. injection H as ->. apply matchHere_app in E as [Hne [post Hpost]].
    split; [exact Hne|]. exists EmptyString, post. exact Hpost.
  - cbn [matchInstance]. destruct (matchHere (String c s)) eqn:E.
    + intros H. injection H as ->. apply matchHere_app in E as [Hne [post Hpost]].
      split; [exact Hne|]. exists EmptyString, post. exact Hpost.
    + intros H. destruct (IH H) as [Hne [pre [post Hs]]].
      split; [exact Hne|]. exists (String c pre), post. cbn [append]. f_equal. exact Hs.
Qed.

Lemma substring_skip (pre rest : string) (n : nat) :
  substring (String.length pre) n (pre ++ rest) = substring 0 n rest.
Proof. induction pre as [|c pre IH]; [reflexivity|exact IH]. Qed.

Lemma substring_head (t post : string) : substring 0 (String.length t) (t ++ post) = t.
Proof.
  induction t as [|c t IH]; cbn [String.length append].
  - destruct post; reflexivity.
  - cbn [substring]. f_equal. exact IH.
Qed.

(** [s.includes(t)] finds every occurrence. *)
Lemma includes_occurrence (pre t post : string) :
  t <> EmptyString -> includes (pre ++ t ++ post) t = true.
Proof.
  intros Hne. unfold includes, indexOf.
  destruct (String.index 0 t (pre ++ t ++ post)) eqn:E; [reflexivity|].
  exfalso.
  apply (index_correct3 0 (String.length pre) t (pre ++ t ++ post) E Hne (Nat.le_0_l _)).
  rewrite substring_skip. apply substring_head.
Qed.

Context {World : Type} (ops : PlatformProcessOps World).

(** [verifyCleanup] is at least as strict as the cleaner's own test, and
    blind to a failed scan. When it answers [true] with the instance
    identifier set to [cur], every process that the args scan lists
    carries the marker of [cur] in its command line, so that the args step
    of [cleanupOrphans] would skip each of them; and it answers [true]
    whenever the scan throws. *)
Theorem verifyCleanup_sound (st : Registry.State) (w : World) (cur : string) :
  let scan := fst (findByArgs ops HALO_MANAGED_FLAG w) in
  (fst (verifyCleanup ops st w) = true -> getCurrentInstanceId st = Some cur ->
   (forall procs proc, scan = Ok procs -> In proc procs ->
      matchInstance (commandLine proc) = Some cur
      /\ includes (commandLine proc) (HALO_INSTANCE_PREFIX ++ cur) = true)
   /\ nothingToScan ops cur w = true)
  /\ (is_throw scan = true -> fst (verifyCleanup ops st w) = true)
  /\ snd (verifyCleanup ops st w) = snd (findByArgs ops HALO_MANAGED_FLAG w).
Proof.
  cbv zeta. unfold verifyCleanup, getRunningHaloProcesses, nothingToScan.
  destruct (findByArgs ops HALO_MANAGED_FLAG w) as [[procs|e] w']; cbn [fst snd is_throw].
  2:{ split; [|split; [reflexivity|reflexivity]].
      intros _ _. split; [intros ? ? H; discriminate H|reflexivity]. }
  split; [|split; [discriminate|reflexivity]].
  intros Hv Hcur. rewrite Hcur in Hv.
  assert (Hall : forall proc, In proc procs ->
                   matchInstance (commandLine proc) = Some cur
                   /\ includes (commandLine proc) (HALO_INSTANCE_PREFIX ++ cur) = true).
  { intros proc Hin.
    destruct (filter _ (map _ procs)) as [|x l] eqn:Ef; [|discriminate Hv].
    assert (Hm : matchInstance (commandLine proc) = Some cur).
    { destruct (differs (matchInstance (commandLine proc)) (Some cur)) eqn:Ed.
      - exfalso.
        assert (Hx : In (mkRunningHaloProcess (pi_pid proc)
                           (matchInstance (commandLine proc)) (commandLine proc))
                        (filter (fun p => differs (rp_instanceId p) (Some cur))
                           (map (fun proc =>
                                   {| rp_pid := pi_pid proc;
                                      rp_instanceId := matchInstance (commandLine proc);
                                      rp_commandLine := commandLine proc |}) procs))).
        { apply filter_In. split; [|exact Ed].
          apply (in_map (fun proc =>
                           {| rp_pid := pi_pid proc;
                              rp_instanceId := matchInstance (commandLine proc);
                              rp_commandLine := commandLine proc |})). exact Hin. }
        rewrite Ef in Hx. exact Hx.
      - unfold differs in Ed. destruct (matchInstance (commandLine proc)) as [r|];
          [|discriminate].
        apply negb_false_iff, String.eqb_eq in Ed. now subst. }
    split; [exact Hm|].
    destruct (matchInstance_app _ _ Hm) as [Hne [pre [post ->]]].
    apply includes_occurrence. destruct cur; [contradiction|discriminate]. }
  split.
  - intros procs' proc Heq Hin. injection Heq as <-. apply Hall. exact Hin.
  - apply forallb_forall. intros proc Hin.
    rewrite (proj2 (Hall proc Hin)). reflexivity.
Qed.

End VerifyFacts.

Section VerifyExamples.
Import Js Types Platform Registry Cleaner.

Example matchInstance_uuid :
  matchInstance "node cli.js --halo-managed --halo-instance=3f2a-77b1 --port 1"
  = Some "3f2a-77b1".
Proof. reflexivity. Qed.

(** The two tests differ on a marker that only starts with the current
    identifier: the cleaner skips the process, the verification counts it
    as an orphan. *)
Example marker_prefix_only :
  includes "node --halo-instance=3f2a-77b1" (HALO_INSTANCE_PREFIX ++ "3f2a")
  = true
  /\ differs (matchInstance "node --halo-instance=3f2a-77b1") (Some "3f2a") = true.
Proof. split; reflexivity. Qed.

Lemma verifyCleanup_witness :
  nothingToScan demoOps "3f2a-77b1" verifiedWorld = true.
Proof.
  destruct (verifyCleanup_sound demoOps verifiedRegistry verifiedWorld "3f2a-77b1")
    as [H _].
  exact (proj2 (H eq_refl eq_refl)).
Defined.

End VerifyExamples.

(** ** The immediate check on Windows *)

Section EmptyScanFacts.
Import Js Types Platform Registry RuntimeChecker.
Context {World : Type} (env : Env World).

Lemma quiet_router :
  servicesQuiet env = true ->
  exists rs,
    match getRouterInfo env with
    | Some p => checkService "OpenAI Router" p (checkOpenAIRouter env p)
    | None => (notChecked, [])
    end = (rs, []).
Proof.
  unfold servicesQuiet. intros H.
  apply andb_true_iff in H as [H _]. apply andb_true_iff in H as [H _].
  destruct (getRouterInfo env) as [p|]; [|exists notChecked; reflexivity].
  destruct (checkService_quiet "OpenAI Router" p _ H) as [Hi _].
  destruct (checkService "OpenAI Router" p (checkOpenAIRouter env p)) as [rs i3].
  cbn [snd] in Hi. subst i3. exists rs. reflexivity.
Qed.

Lemma quiet_server :
  servicesQuiet env = true ->
  exists hs,
    (if serverRunning env
     then checkService "HTTP Server" (serverPort env) (checkHttpServer env (serverPort env))
     else (notChecked, [])) = (hs, []).
Proof.
  unfold servicesQuiet. intros H.
  apply andb_true_iff in H as [H _]. apply andb_true_iff in H as [_ H].
  destruct (serverRunning env); [|exists notChecked; reflexivity].
  destruct (checkService_quiet "HTTP Server" (serverPort env) _ H) as [Hi _].
  destruct (checkService "HTTP Server" (serverPort env)
              (checkHttpServer env (serverPort env))) as [hs i4].
  cbn [snd] in Hi. subst i4. exists hs. reflexivity.
Qed.

Lemma countOrphans_nil (registered : list Z) : countOrphans [] registered = 0.
Proof. reflexivity. Qed.

(** A scan that lists no child: every entry of the running instance that
    has a pid is taken for dead. *)
Lemma empty_scan_check (ts : Z) (st : Registry.State) (w : World) :
  fst (findChildProcesses (platformOps env) (mainPid env) w) = Ok [] ->
  let r := fst (fst (doImmediateCheck env ts st w)) in
  let st' := snd (fst (doImmediateCheck env ts st w)) in
  removed (registryCleanup r) = length (withPid st)
  /\ orphans (registryCleanup r) = 0
  /\ (forall e, In e (getCurrentProcesses st') -> pidTruthy (pid e) = false)
  /\ (servicesQuiet env = true ->
      healthy r = true
      /\ issues r
         = if (0 <? length (withPid st))%nat
           then ["Cleaned " ++ show_nat (length (withPid st)) ++ " dead process entries"]
           else []).
Proof.
  cbv zeta. intros Hscan.
  enough (H : removed (registryCleanup (fst (fst (doImmediateCheck env ts st w))))
              = length (withPid st)
              /\ orphans (registryCleanup (fst (fst (doImmediateCheck env ts st w)))) = 0
              /\ (forall e, In e (getCurrentProcesses (snd (fst (doImmediateCheck env ts st w))))
                     -> pidTruthy (pid e) = false)
              /\ (servicesQuiet env = true ->
                  issues (fst (fst (doImmediateCheck env ts st w)))
                  = if (0 <? length (withPid st))%nat
                    then ["Cleaned " ++ show_nat (length (withPid st))
                          ++ " dead process entries"]
                    else [])).
  { destruct H as [H1 [H2 [H3 H4]]].
    split; [exact H1|]. split; [exact H2|]. split; [exact H3|].
    intros Hquiet. split; [|exact (H4 Hquiet)].
    rewrite healthy_formula_short, H1, (H4 Hquiet).
    destruct (0 <? length (withPid st))%nat; reflexivity. }
  assert (Hremoved :
            length (filter (deadIn []) (ofType v2_session (getCurrentProcesses st)))
            + length (filter (deadIn []) (ofType tunnel (getCurrentProcesses st)))
            = length (withPid st)).
  { pose proof (dead_by_type (Ok []) (getCurrentProcesses st)) as H.
    cbn [scanned pidsNamed filter map] in H. rewrite H. unfold withPid.
    f_equal. apply filter_ext. intros e. unfold isDead.
    destruct (type e); cbn [scanned pidsNamed filter map]; apply deadIn_nil. }
  unfold doImmediateCheck.
  destruct (findChildProcesses (platformOps env) (mainPid env) w) as [scan w1].
  cbn [fst] in Hscan. subst scan.
  cbn [pidsNamed filter map]. rewrite !reapDead_fold, !countOrphans_nil.
  cbn [Nat.add]. rewrite Hremoved.
  split; [|split; [|split]].
  - destruct (match getRouterInfo env with Some _ => _ | None => _ end).
    destruct (if serverRunning env then _ else _). reflexivity.
  - destruct (match getRouterInfo env with Some _ => _ | None => _ end).
    destruct (if serverRunning env then _ else _). reflexivity.
  - assert (Hst : forall e,
               In e (getCurrentProcesses
                       (fold_left
                          (fun s e => if deadIn [] e then unregisterProcess (id e) tunnel s
                                      else s)
                          (ofType tunnel (getCurrentProcesses st))
                          (fold_left
                             (fun s e => if deadIn [] e
                                         then unregisterProcess (id e) v2_session s else s)
                             (ofType v2_session (getCurrentProcesses st)) st))) ->
               pidTruthy (pid e) = false).
    { intros e Hin. unfold getCurrentProcesses in Hin at 1.
      apply filter_In in Hin. destruct Hin as [Hin Hcur].
      rewrite !reap_instance in Hcur.
      destruct (pidTruthy (pid e)) eqn:Hp; [exfalso|reflexivity].
      assert (Hdead : deadIn [] e = true) by (rewrite deadIn_nil; exact Hp).
      assert (Hst0 : In e (getCurrentProcesses st)).
      { unfold getCurrentProcesses. apply filter_In. split; [|exact Hcur].
        apply reap_subset in Hin. apply reap_subset in Hin. exact Hin. }
      destruct (type e) eqn:Ht.
      - apply reap_subset in Hin. revert Hin.
        apply reap_removes; [|exact Hdead|exact Ht].
        unfold ofType. apply filter_In. split; [exact Hst0|]. rewrite Ht. reflexivity.
      - revert Hin. apply reap_removes; [|exact Hdead|exact Ht].
        unfold ofType. apply filter_In. split; [exact Hst0|]. rewrite Ht. reflexivity. }
    destruct (match getRouterInfo env with Some _ => _ | None => _ end).
    destruct (if serverRunning env then _ else _). exact Hst.
  - intros Hquiet.
    destruct (quiet_router Hquiet) as [rs ->]. destruct (quiet_server Hquiet) as [hs ->].
    assert (Hmem : memoryHigh (heapUsed env) = false).
    { unfold servicesQuiet in Hquiet. apply andb_true_iff in Hquiet as [_ H].
      apply negb_true_iff in H. exact H. }
    rewrite Hmem. cbn [fst snd issues app].
    destruct (0 <? length (withPid st))%nat; reflexivity.
Qed.

End EmptyScanFacts.

Section Win32ScanFacts.
Import Js Types Platform Registry RuntimeChecker.

(** Neither scan of the Windows implementation throws, and a scan whose
    command fails or prints something that is not JSON lists nothing. *)
Lemma win32_scan_total {World A : Type} (os : Win32ProcessOps.OS World)
    (JSON_parse : string -> result Win32Platform.Parsed) (psCommand : string)
    (entry : Win32Platform.Win32_Process -> A) (w : World) :
  is_ok (fst (Win32Platform.scan os JSON_parse psCommand entry w)) = true
  /\ (Win32Platform.scanLost os JSON_parse psCommand w = true ->
      fst (Win32Platform.scan os JSON_parse psCommand entry w) = Ok []).
Proof.
  unfold Win32Platform.scan, Win32Platform.scanLost.
  destruct (Win32ProcessOps.execAsync os psCommand 10000 w) as [[stdout|e] w'];
    cbn [fst]; [|split; reflexivity].
  destruct (Win32Platform.blank stdout); cbn [negb andb fst];
    [split; [reflexivity|discriminate]|].
  destruct (JSON_parse stdout); cbn [fst is_throw]; split;
    try reflexivity; discriminate.
Qed.

(** On Windows a lost scan reads as "no children". When the PowerShell
    command of [findChildProcesses] fails, runs into its timeout or prints
    something that is not JSON, the scan returns the empty list instead of
    throwing; the immediate check then unregisters every entry of the
    running instance that has a pid, counts them as cleaned, and, with the
    services quiet, reports [healthy] with at most the cleanup line as
    issue. *)
Theorem win32_lost_scan_reads_as_no_children {World : Type}
    (os : Win32ProcessOps.OS World)
    (JSON_parse : string -> result Win32Platform.Parsed)
    (env : Env World) (ts : Z) (st : Registry.State) (w : World) :
  platformOps env = Win32Platform.ops os JSON_parse ->
  Win32Platform.scanLost os JSON_parse
    (Win32Platform.findChildProcessesCommand (mainPid env)) w = true ->
  let r := fst (fst (doImmediateCheck env ts st w)) in
  let st' := snd (fst (doImmediateCheck env ts st w)) in
  fst (findChildProcesses (platformOps env) (mainPid env) w) = Ok []
  /\ removed (registryCleanup r) = length (withPid st)
  /\ (forall e, In e (getCurrentProcesses st') -> pidTruthy (pid e) = false)
  /\ (servicesQuiet env = true ->
      healthy r = true
      /\ issues r
         = if (0 <? length (withPid st))%nat
           then ["Cleaned " ++ show_nat (length (withPid st)) ++ " dead process entries"]
           else []).
Proof.
  intros Hops Hlost. cbv zeta.
  assert (Hscan : fst (findChildProcesses (platformOps env) (mainPid env) w) = Ok []).
  { rewrite Hops. cbn [Win32Platform.ops findChildProcesses].
    unfold Win32Platform.findChildProcesses.
    apply (win32_scan_total os JSON_parse). exact Hlost. }
  destruct (empty_scan_check env ts st w Hscan) as [H1 [_ [H3 H4]]].
  split; [exact Hscan|]. split; [exact H1|]. split; [exact H3|exact H4].
Qed.

End Win32ScanFacts.

Section Win32ScanExamples.
Import Js Types Platform Registry RuntimeChecker.

(** PowerShell does not start: the one registered session is unregistered
    and the check says healthy. *)
Lemma win32_lost_scan_witness :
  removed (registryCleanup
             (fst (fst (doImmediateCheck Win32Platform.noPowerShellEnv 5000
                          demoRegistry tt)))) = 1
  /\ healthy (fst (fst (doImmediateCheck Win32Platform.noPowerShellEnv 5000
                          demoRegistry tt))) = true
  /\ issues (fst (fst (doImmediateCheck Win32Platform.noPowerShellEnv 5000
                         demoRegistry tt)))
     = ["Cleaned 1 dead process entries"].
Proof.
  destruct (win32_lost_scan_reads_as_no_children
              Win32Platform.noPowerShell (fun _ => Throw (mkError "unused"))
              Win32Platform.noPowerShellEnv 5000 demoRegistry tt eq_refl eq_refl)
    as [_ [H1 [_ H4]]].
  destruct (H4 eq_refl) as [Hh Hi].
  split; [exact H1|]. split; [exact Hh|exact Hi].
Defined.

End Win32ScanExamples.

(** ** The startup checker: the overall status *)

Section StartupStatusFacts.
Import Js Types StartupChecker.

Lemma determineOverallStatus_alarms (probes : list ProbeResult) :
  determineOverallStatus probes
  = if existsb (alarming critical) probes then unhealthy
    else if existsb (alarming warning) probes then degraded
    else healthy.
Proof. reflexivity. Qed.

(** For the status and for the log, a wrapped probe counts as much as its
    answer. *)
Lemma safeProbe_alarm (probeName : string)
    (probeFn : unit -> attempt (Promise ProbeResult)) (now : Z) (r : ProbeResult) :
  safeProbe probeName probeFn now = Ok r ->
  (forall s, alarming s r = existsb (alarming s) (answer probeFn))
  /\ logFails r = existsb logFails (answer probeFn).
Proof.
  intros Hr. destruct (faults probeFn) eqn:F.
  - assert (Hesc : escapes probeFn = false).
    { rewrite <- (safeProbe_escapes probeName probeFn now), Hr. reflexivity. }
    destruct (safeProbe_fault probeName probeFn now F Hesc) as [msg Hm].
    rewrite Hm in Hr. injection Hr as <-. unfold answer. rewrite F.
    split; [intros s|]; reflexivity.
  - destruct (safeProbe_no_fault probeName probeFn now F) as [r' [Hs Ha]].
    rewrite Hs in Hr. injection Hr as ->. rewrite Ha. cbn [existsb].
    split; [intros s|]; now rewrite orb_false_r.
Qed.

Lemma logResults_throws (probes : list ProbeResult) :
  is_throw (logResults probes) = existsb logFails probes.
Proof.
  induction probes as [|p rest IH]; [reflexivity|].
  cbn [logResults existsb]. unfold logFails at 1.
  destruct (detail p); cbn [bind is_throw orb]; [exact IH|reflexivity].
Qed.

Lemma existsb_alarming (s : Severity) (l : list ProbeResult) :
  existsb (alarming s) l = true
  <-> exists p, In p l /\ probe_healthy p = false /\ severity p = s.
Proof.
  rewrite existsb_exists. split; intros [p [Hin H]]; exists p; (split; [exact Hin|]).
  - unfold alarming in H. apply andb_true_iff in H as [Hh Hs].
    apply negb_true_iff in Hh. split; [exact Hh|].
    destruct (severity p), s; try discriminate; reflexivity.
  - destruct H as [Hh Hs]. unfold alarming. rewrite Hh, Hs. destruct s; reflexivity.
Qed.

Lemma startup_result (env : Env) :
  interrupted env = false ->
  length (probes (runStartupChecks env)) = 4
  /\ status (runStartupChecks env)
     = if existsb logFails (answers env) then healthy
       else determineOverallStatus (answers env).
Proof.
  intros H.
  destruct (runStartupChecks_probes env H)
    as [c [p [d [q [Hc [Hp [Hd [Hq [Hprobes Hstatus]]]]]]]]].
  rewrite Hprobes, Hstatus. split; [reflexivity|].
  destruct (safeProbe_alarm _ _ _ _ Hc) as [Ac Lc].
  destruct (safeProbe_alarm _ _ _ _ Hp) as [Ap Lp].
  destruct (safeProbe_alarm _ _ _ _ Hd) as [Ad Ld].
  destruct (safeProbe_alarm _ _ _ _ Hq) as [Aq Lq].
  assert (Hall : forall s, existsb (alarming s) [c; p; d; q]
                           = existsb (alarming s) (answers env)).
  { intros s. unfold answers. rewrite !existsb_app. cbn [existsb].
    rewrite Ac, Ap, Ad, Aq. now rewrite orb_false_r. }
  assert (Hlog : existsb logFails [c; p; d; q] = existsb logFails (answers env)).
  { unfold answers. rewrite !existsb_app. cbn [existsb].
    rewrite Lc, Lp, Ld, Lq. now rewrite orb_false_r. }
  rewrite logResults_throws, Hlog, !determineOverallStatus_alarms, !Hall. reflexivity.
Qed.

(** The status of the startup check. When the check is interrupted
    ([wasLastExitClean] throws, or a probe throws or rejects in time with
    [null] or [undefined]), the result has no probes and the status is
    [healthy]. Otherwise it has the four results; the status is [healthy]
    when logging an answer throws (an unhealthy answer whose [errors] have
    a length and cannot be joined); and in all other cases it is computed from
    the answers of the probes that answered within ten seconds, a probe
    that faults never counting against the application: [unhealthy]
    exactly when one of them answered unhealthy with severity [critical],
    and [healthy] exactly when each of them answered healthy or with
    severity [info]. *)
Theorem startup_status_from_answers (env : Env) :
  let r := runStartupChecks env in
  (interrupted env = true -> status r = healthy /\ probes r = [])
  /\ (interrupted env = false ->
      length (probes r) = 4
      /\ (existsb logFails (answers env) = true -> status r = healthy)
      /\ (existsb logFails (answers env) = false ->
          status r = determineOverallStatus (answers env)
          /\ (status r = unhealthy <->
              exists p, In p (answers env) /\ probe_healthy p = false
                        /\ severity p = critical)
          /\ (status r = healthy <->
              forall p, In p (answers env) ->
                        probe_healthy p = true \/ severity p = info))).
Proof.
  cbv zeta. split.
  - intros H. destruct (runStartupChecks_interrupted env H). auto.
  - intros H. destruct (startup_result env H) as [Hlen Hst].
    split; [exact Hlen|]. split; [intros Hlog; rewrite Hst, Hlog; reflexivity|].
    intros Hlog. rewrite Hlog in Hst. split; [exact Hst|].
    rewrite Hst, determineOverallStatus_alarms. split.
    + rewrite <- existsb_alarming.
      destruct (existsb (alarming critical) (answers env)); [tauto|].
      destruct (existsb (alarming warning) (answers env)); split; discriminate.
    + destruct (existsb (alarming critical) (answers env)) eqn:Ec.
      { split; [discriminate|]. intros Hall. exfalso.
        apply existsb_alarming in Ec as [x [Hin [Hh Hs]]].
        destruct (Hall x Hin) as [H1|H1]; congruence. }
      destruct (existsb (alarming warning) (answers env)) eqn:Ew.
      { split; [discriminate|]. intros Hall. exfalso.
        apply existsb_alarming in Ew as [x [Hin [Hh Hs]]].
        destruct (Hall x Hin) as [H1|H1]; congruence. }
      split; [|reflexivity]. intros _ x Hin.
      destruct (probe_healthy x) eqn:Hh; [left; reflexivity|right].
      destruct (severity x) eqn:Hs; [exfalso|exfalso|reflexivity].
      * assert (Ht : existsb (alarming critical) (answers env) = true)
          by (apply existsb_alarming; exists x; auto).
        congruence.
      * assert (Ht : existsb (alarming warning) (answers env) = true)
          by (apply existsb_alarming; exists x; auto).
        congruence.
Qed.

(** What the config probe can do to a status: never a warning, and an
    alarm exactly for a file that is there and cannot be used. *)
Lemma config_probe_alarm (cenv : ConfigProbe.Env) :
  alarming warning (ConfigProbe.runConfigProbe cenv) = false
  /\ alarming critical (ConfigProbe.runConfigProbe cenv) = ConfigProbe.unusable cenv.
Proof.
  unfold ConfigProbe.runConfigProbe, ConfigProbe.unusable.
  destruct (ConfigProbe.existsSync cenv); cbn [negb andb]; [|split; reflexivity].
  destruct (ConfigProbe.readConfig cenv) as [config|e]; [|split; reflexivity].
  unfold ConfigProbe.inspect, ConfigProbe.criticalFieldsOf.
  destruct config; cbn [ConfigProbe.get ConfigProbe.prop]; try (split; reflexivity);
    match goal with
    | |- context [ConfigProbe.checkApiKey ?e ?a] => destruct (ConfigProbe.checkApiKey e a)
    end; cbn [is_throw andb];
    try match goal with
        | |- context [ConfigProbe.hasAiSourcesCurrent ?a && ?b] =>
            destruct (ConfigProbe.hasAiSourcesCurrent a && b)
        end;
    try match goal with
        | |- context [if negb ?a then warning else info] => destruct a
        end;
    split; reflexivity.
Qed.

(** The [errors] of the config probe are an array of strings: logging its
    result never throws. *)
Lemma config_probe_logged (cenv : ConfigProbe.Env) :
  logFails (ConfigProbe.runConfigProbe cenv) = false.
Proof.
  assert (H : exists d, data (ConfigProbe.runConfigProbe cenv) = Some (ConfigData d)).
  { unfold ConfigProbe.runConfigProbe.
    destruct (negb (ConfigProbe.existsSync cenv)); [eexists; reflexivity|].
    destruct (ConfigProbe.readConfig cenv) as [config|e]; [|eexists; reflexivity].
    unfold ConfigProbe.inspect.
    destruct (ConfigProbe.get (Some config) "aiSources"); [|eexists; reflexivity].
    destruct (ConfigProbe.checkApiKey cenv _); eexists; reflexivity. }
  destruct H as [d Hd]. unfold logFails, detail, errorsOf. rewrite Hd.
  destruct (negb _ && _); reflexivity.
Qed.

(** Inside the startup check the config probe is all or nothing. When it
    answers in time, and unless the check is interrupted or the logging of
    another answer throws (the status is [healthy] then), a configuration
    file that is there and cannot be used makes the startup status
    [unhealthy]; anything else it finds (no file yet, no API key) leaves
    the status to the other three probes. *)
Theorem config_counts_only_when_unusable (cenv : ConfigProbe.Env) (env : Env) (t : Z) :
  runConfigProbe env tt = Ok (mkPromise (Some t) (Ok (ConfigProbe.runConfigProbe cenv))) ->
  (t <= 10000)%Z ->
  let others := (answer (runPortProbe env) ++ answer (runDiskProbe env)
                 ++ answer (runProcessProbe env))%list in
  status (runStartupChecks env)
  = if interrupted env || existsb logFails others then healthy
    else if ConfigProbe.unusable cenv then unhealthy
    else determineOverallStatus others.
Proof.
  intros Hprobe Ht. cbv zeta.
  destruct (interrupted env) eqn:Hint; cbn [orb].
  { apply runStartupChecks_interrupted. exact Hint. }
  destruct (startup_result env Hint) as [_ Hst].
  assert (Hans : answer (runConfigProbe env) = [ConfigProbe.runConfigProbe cenv]).
  { unfold answer, faults. rewrite Hprobe. cbn [settledAfter outcome is_throw].
    assert (Hlt : (10000 <? t)%Z = false) by (apply Z.ltb_ge; exact Ht).
    rewrite Hlt. reflexivity. }
  destruct (config_probe_alarm cenv) as [Hw Hc].
  rewrite Hst. unfold answers. rewrite Hans, !determineOverallStatus_alarms.
  cbn [app existsb]. rewrite Hw. rewrite Hc. rewrite (config_probe_logged cenv).
  cbn [orb]. clear Hst.
  destruct (existsb logFails _); [reflexivity|].
  destruct (ConfigProbe.unusable cenv); reflexivity.
Qed.

End StartupStatusFacts.

Section StartupStatusExamples.
Import Js Types StartupChecker.

(** First launch: the missing configuration file is reported by its probe
    and the startup status is [healthy]. *)
Lemma first_launch_witness :
  status (runStartupChecks firstLaunch) = healthy.
Proof.
  assert (Ht : (5 <= 10000)%Z) by (intros H; discriminate H).
  rewrite (config_counts_only_when_unusable
             (ConfigProbe.mkEnv false (Throw (mkError "ENOENT"))
                (fun _ => Throw (mkError "unused")) (fun _ => "") 0)
             firstLaunch 5 eq_refl Ht).
  reflexivity.
Defined.

(** The process probe reports two orphans as critical, in time, and its
    [errors] are a string: logging them throws, and the status is
    [healthy]. *)
Example unjoinable_errors_read_as_healthy :
  answer (runProcessProbe unjoinable)
  = [mkProbeResult "process" false critical "2 orphans" 0
       (Some (OtherData
                (ErrorsValue true (Throw (mkError "errors.join is not a function")))))]
  /\ status (runStartupChecks unjoinable) = healthy
  /\ length (probes (runStartupChecks unjoinable)) = 4.
Proof. repeat split. Qed.

(** A probe that settles at the very moment the timer fires is heard. *)
Example settled_at_the_bell :
  safeProbe "port"
    (fun _ => Ok (mkPromise (Some 10000%Z)
                    (Ok (mkProbeResult "port" false critical "in use" 0 None)))) 0
  = Ok (mkProbeResult "port" false critical "in use" 0 None).
Proof. reflexivity. Qed.

End StartupStatusExamples.

(** ** [utils/url.ts]: what is kept of the URL *)

Section UrlPrefixFacts.
Import Js Url.

Lemma trimSlash_split (u : string) :
  exists slashes, u = trimSlash u ++ slashes /\ onlySlashes slashes = true.
Proof.
  induction u as [|c rest [sl [Hrest Hsl]]]; [exists EmptyString; split; reflexivity|].
  cbn [trimSlash]. destruct (trimSlash rest) as [|c' r'] eqn:E.
  - cbn [append] in Hrest. subst rest.
    destruct (Ascii.eqb c "/"%char) eqn:Ec.
    + exists (String c sl). cbn [append onlySlashes]. rewrite Ec, Hsl. split; reflexivity.
    + exists sl. split; [reflexivity|exact Hsl].
  - exists sl. split; [|exact Hsl]. cbn [append]. f_equal. exact Hrest.
Qed.

Lemma endsWith_slash_cons (c : ascii) (s : string) :
  s <> EmptyString -> endsWith (String c s) "/" = endsWith s "/".
Proof.
  destruct s as [|d s]; [contradiction|]. intros _. unfold endsWith.
  cbn [String.length Nat.sub]. rewrite !Nat.sub_0_r. reflexivity.
Qed.

Lemma trimSlash_no_trailing_slash (u : string) : endsWith (trimSlash u) "/" = false.
Proof.
  induction u as [|c rest IH]; [reflexivity|].
  cbn [trimSlash]. destruct (trimSlash rest) as [|c' r'] eqn:E.
  - destruct (Ascii.eqb c "/"%char) eqn:Ec; [reflexivity|].
    unfold endsWith. cbn. rewrite Ec. reflexivity.
  - rewrite endsWith_slash_cons by discriminate. exact IH.
Qed.

Lemma substring_is_prefix (m : nat) (s : string) : exists rest, s = substring 0 m s ++ rest.
Proof.
  revert s. induction m as [|m IH]; intros s.
  - exists s. destruct s; reflexivity.
  - destruct s as [|c s]; [exists EmptyString; reflexivity|].
    destruct (IH s) as [rest Hrest]. exists rest. cbn [substring append]. f_equal.
    exact Hrest.
Qed.

Lemma slice0_is_prefix (s : string) (e : Z) : exists rest, s = slice0 s e ++ rest.
Proof. unfold slice0. apply substring_is_prefix. Qed.

Lemma stripPartialSuffix_is_prefix (suffixes : list string) (s : string) :
  exists rest, s = stripPartialSuffix suffixes s ++ rest.
Proof.
  induction suffixes as [|suffix l IH]; cbn [stripPartialSuffix].
  - exists EmptyString. induction s as [|c s IHs]; cbn [append]; [reflexivity|now f_equal].
  - destruct (endsWith s suffix); [apply slice0_is_prefix|exact IH].
Qed.

Lemma prefix_split (t s : string) : prefix t s = true -> exists rest, s = t ++ rest.
Proof.
  revert s. induction t as [|a t IH]; intros s H; [exists s; reflexivity|].
  destruct s as [|b s]; [discriminate|]. cbn [prefix] in H.
  destruct (ascii_dec a b) as [<-|]; [|discriminate].
  destruct (IH s H) as [rest ->]. exists rest. reflexivity.
Qed.

Lemma prefix_app (t a b : string) : prefix t a = true -> prefix t (a ++ b) = true.
Proof.
  revert a. induction t as [|x t IH]; intros a H; [destruct (a ++ b); reflexivity|].
  destruct a as [|y a]; [discriminate|]. cbn [prefix append] in *.
  destruct (ascii_dec x y); [apply IH; exact H|discriminate].
Qed.

(** The first occurrence of [t] splits the string, and [t] does not occur
    before it. *)
Lemma index_split (t s : string) (i : nat) :
  t <> EmptyString -> String.index 0 t s = Some i ->
  exists x rest, s = x ++ t ++ rest /\ String.length x = i /\ includes x t = false.
Proof.
  intros Hne. revert i. induction s as [|b s IH]; intros i H.
  - cbn [String.index] in H. destruct t; [contradiction|discriminate].
  - cbn [String.index] in H. destruct (prefix t (String b s)) eqn:Ep.
    + injection H as <-. destruct (prefix_split _ _ Ep) as [rest Hrest].
      exists EmptyString, rest. split; [exact Hrest|]. split; [reflexivity|].
      unfold includes, indexOf. cbn [String.index]. destruct t; [contradiction|reflexivity].
    + destruct (String.index 0 t s) as [n|] eqn:En; [|discriminate].
      injection H as <-. destruct (IH n eq_refl) as [x [rest [Hs [Hlen Hinc]]]].
      exists (String b x), rest. split; [cbn [append]; f_equal; exact Hs|].
      split; [cbn [String.length]; f_equal; exact Hlen|].
      unfold includes, indexOf in *. cbn [String.index].
      destruct (prefix t (String b x)) eqn:Ep'.
      * exfalso. apply (prefix_app _ _ (t ++ rest)) in Ep'. cbn [append] in Ep'.
        rewrite <- Hs in Ep'. congruence.
      * destruct (String.index 0 t x); [discriminate|reflexivity].
Qed.

Lemma ensureV1_form (s : string) :
  exists x rest, ensureV1 s = x ++ "/v1" /\ includes x "/v1" = false /\ s = x ++ rest.
Proof.
  unfold ensureV1. destruct (includes s "/v1") eqn:Einc.
  - unfold includes in Einc. destruct (indexOf s "/v1") as [idx|] eqn:Ei; [|discriminate].
    destruct (index_split "/v1" s idx ltac:(discriminate) Ei) as [x [rest [Hs [Hlen Hx]]]].
    exists x, ("/v1" ++ rest). split; [|split; [exact Hx|exact Hs]].
    unfold slice0.
    assert (Hl : String.length s = idx + 3 + String.length rest).
    { rewrite Hs, !length_append, Hlen. cbn [String.length]. lia. }
    assert (Hz : (Z.of_nat idx + 3 <? 0)%Z = false) by (apply Z.ltb_ge; lia).
    rewrite Hz.
    replace (Z.to_nat (Z.min (Z.of_nat idx + 3) (Z.of_nat (String.length s))))
      with (String.length (x ++ "/v1")) by (rewrite length_append, Hlen; cbn; lia).
    rewrite Hs. rewrite <- append_assoc. apply substring_head.
  - exists s, EmptyString. split; [reflexivity|]. split; [exact Einc|].
    clear. induction s as [|c s IH]; cbn [append]; [reflexivity|now f_equal].
Qed.

(** What [normalizeApiUrl] keeps of the URL. For Anthropic the result is
    the input without its trailing slashes, and it ends with none. For an
    OpenAI-compatible URL that does not already end with an endpoint, the
    result is [x ++ "/v1/chat/completions"] where [x] is a prefix of the
    input in which ["/v1"] does not occur: everything from the first
    ["/v1"] on is replaced. *)
Theorem normalizeApiUrl_keeps_prefix (u : string) :
  (exists slashes,
      u = normalizeApiUrl u Anthropic ++ slashes /\ onlySlashes slashes = true
      /\ endsWith (normalizeApiUrl u Anthropic) "/" = false)
  /\ ((endsWith (trimSlash u) "/chat/completions" || endsWith (trimSlash u) "/responses")
      = false ->
      exists x rest,
        normalizeApiUrl u OpenAI = x ++ "/v1/chat/completions"
        /\ includes x "/v1" = false
        /\ u = x ++ rest).
Proof.
  split.
  - destruct (trimSlash_split u) as [sl [Hu Hsl]]. exists sl.
    cbn [normalizeApiUrl]. split; [exact Hu|]. split; [exact Hsl|].
    apply trimSlash_no_trailing_slash.
  - intros Hend. unfold normalizeApiUrl. rewrite Hend.
    destruct (ensureV1_form (stripPartialSuffix partialSuffixes (trimSlash u)))
      as [x [r1 [Hv [Hx Hs]]]].
    destruct (stripPartialSuffix_is_prefix partialSuffixes (trimSlash u)) as [r2 Hp].
    destruct (trimSlash_split u) as [r3 [Hu _]].
    exists x, (r1 ++ r2 ++ r3). split; [|split; [exact Hx|]].
    + rewrite Hv. apply append_assoc.
    + rewrite Hu at 1. rewrite Hp at 1. rewrite Hs at 1. now rewrite !append_assoc.
Qed.

End UrlPrefixFacts.

Section UrlPrefixExamples.
Import Js Url.

(** A versioned path that only starts like ["/v1"] is cut as well. *)
Example normalizeApiUrl_v1beta :
  normalizeApiUrl "https://generativelanguage.googleapis.com/v1beta/openai" OpenAI
  = "https://generativelanguage.googleapis.com/v1/chat/completions".
Proof. reflexivity. Qed.

Example normalizeApiUrl_embeddings :
  normalizeApiUrl "https://host/v1/embeddings" OpenAI = "https://host/v1/chat/completions".
Proof. reflexivity. Qed.

End UrlPrefixExamples.

(** ** The interceptor chain *)

Section InterceptorFacts.
Import Js Interceptors.

Lemma find_skip {A : Type} (f : A -> bool) (skipped : list A) (x : A) (rest : list A) :
  forallb (fun a => negb (f a)) skipped = true -> f x = true ->
  find f (skipped ++ x :: rest) = Some x.
Proof.
  intros Hs Hx. induction skipped as [|a l IH]; cbn [app find forallb] in *.
  - rewrite Hx. reflexivity.
  - apply andb_true_iff in Hs as [Ha Hl]. apply negb_true_iff in Ha. rewrite Ha.
    apply IH. exact Hl.
Qed.

(** Only the last user message decides. Whatever precedes it, and
    whatever follows it under another role, a request is a warm-up exactly
    when the text of its last user message, trimmed, is ["Warmup"]; of an
    array content the first text block is the one that counts. *)
Theorem warmup_decided_by_last_user_message
    (m : string) (s : option bool) (before after : list Message) (last : Message) :
  role last = "user" ->
  forallb (fun a => negb (String.eqb (role a) "user")) after = true ->
  isWarmupRequest (mkOpenAIRequest m (Some (before ++ last :: after)%list) s)
  = saysWarmup last
  /\ (forall skipped textBlock rest,
        content last = Blocks (skipped ++ textBlock :: rest)%list ->
        forallb (fun b => negb (String.eqb (block_type b) "text")) skipped = true ->
        block_type textBlock = "text" ->
        saysWarmup last
        = match block_text textBlock with
          | Some text => String.eqb (trim text) "Warmup"
          | None => false
          end).
Proof.
  intros Hrole Hafter. split.
  - unfold isWarmupRequest. cbn [messages].
    destruct (before ++ last :: after)%list eqn:E;
      [destruct before; discriminate|]. rewrite <- E.
    rewrite rev_app_distr. cbn [rev]. rewrite <- app_assoc. cbn [app].
    rewrite (find_skip (fun m => String.eqb (role m) "user") (rev after) last (rev before)).
    + reflexivity.
    + rewrite forallb_forall in *. intros x Hx. apply Hafter. apply in_rev. exact Hx.
    + rewrite Hrole. reflexivity.
  - intros skipped textBlock rest Hc Hs Ht. unfold saysWarmup, getUserMessageText.
    rewrite Hc.
    rewrite (find_skip (fun b => String.eqb (block_type b) "text") skipped textBlock rest Hs)
      by (rewrite Ht; reflexivity).
    reflexivity.
Qed.

Lemma runInterceptors_request (chain : list RequestInterceptor) (request : OpenAIRequest)
    (context : InterceptorContext) (res : Res) (r : OpenAIRequest) :
  fst (runInterceptors chain request context res) = NotIntercepted r -> r = request.
Proof.
  revert res. induction chain as [|i chain IH]; intros res; cbn [runInterceptors].
  - cbn [fst]. intros H. injection H as <-. reflexivity.
  - destruct (negb (shouldIntercept i request context)); [apply IH|].
    destruct (intercept i request context res) as [[|[modified|]|] res'];
      cbn [fst]; try discriminate; apply IH.
Qed.

Lemma runInterceptors_app (chain behind : list RequestInterceptor)
    (request : OpenAIRequest) (context : InterceptorContext) (res : Res) :
  runInterceptors (chain ++ behind) request context res
  = if intercepted (fst (runInterceptors chain request context res))
    then runInterceptors chain request context res
    else runInterceptors behind request context
           (snd (runInterceptors chain request context res)).
Proof.
  revert res. induction chain as [|i chain IH]; intros res; cbn [app runInterceptors].
  - reflexivity.
  - destruct (negb (shouldIntercept i request context)); [apply IH|].
    destruct (intercept i request context res) as [[|[modified|]|] res'];
      try reflexivity; apply IH.
Qed.

(** The first interceptor that answers wins. A chain that has intercepted
    the request (by responding or by handing back a modified request) is
    not changed by interceptors put behind it: they are never called, not
    even with the modified request. A chain that has not hands back the
    request it was given, and the interceptors behind it run on that same
    request. With the default chain the mock response is sent exactly for
    a warm-up request, and nothing is written otherwise. *)
Theorem interceptor_chain_first_wins (chain behind : list RequestInterceptor)
    (request : OpenAIRequest) (context : InterceptorContext) (res : Res) :
  (intercepted (fst (runInterceptors chain request context res)) = true ->
   runInterceptors (chain ++ behind) request context res
   = runInterceptors chain request context res)
  /\ (intercepted (fst (runInterceptors chain request context res)) = false ->
      fst (runInterceptors chain request context res) = NotIntercepted request
      /\ runInterceptors (chain ++ behind) request context res
         = runInterceptors behind request context
             (snd (runInterceptors chain request context res)))
  /\ runInterceptors defaultInterceptors request context res
     = if isWarmupRequest request
       then (ResponseSent, sendMockResponse context res)
       else (NotIntercepted request, res).
Proof.
  split; [|split].
  - intros H. rewrite runInterceptors_app, H. reflexivity.
  - intros H. split.
    + destruct (fst (runInterceptors chain request context res)) eqn:E;
        try discriminate.
      f_equal. apply (runInterceptors_request chain request context res). exact E.
    + rewrite runInterceptors_app, H. reflexivity.
  - cbn [defaultInterceptors runInterceptors warmupInterceptor shouldIntercept intercept].
    destruct (isWarmupRequest request); reflexivity.
Qed.

End InterceptorFacts.

Section InterceptorExamples.
Import Js Interceptors.

Example warmup_padded :
  isWarmupRequest
    (mkOpenAIRequest "gpt-4o"
       (Some [mkMessage "user" (Text "Warmup");
              mkMessage "assistant" (Text "Ready.");
              mkMessage "user" (Blocks [mkContentBlock "image" None;
                                        mkContentBlock "text" (Some "  Warmup ")]);
              mkMessage "system" (Text "be brief")])
       None) = true.
Proof. reflexivity. Qed.

Example warmup_not_last :
  isWarmupRequest
    (mkOpenAIRequest "gpt-4o"
       (Some [mkMessage "user" (Text "Warmup");
              mkMessage "user" (Text "Hello")])
       None) = false.
Proof. reflexivity. Qed.

Lemma warmup_witness :
  isWarmupRequest
    (mkOpenAIRequest "gpt-4o"
       (Some [mkMessage "user" (Text "Hello");
              mkMessage "user" (Text "Warmup");
              mkMessage "assistant" (Text "Ready.")])
       None)
  = saysWarmup (mkMessage "user" (Text "Warmup")).
Proof.
  exact (proj1 (warmup_decided_by_last_user_message "gpt-4o" None
                  [mkMessage "user" (Text "Hello")]
                  [mkMessage "assistant" (Text "Ready.")]
                  (mkMessage "user" (Text "Warmup")) eq_refl eq_refl)).
Defined.

End InterceptorExamples.

(** ** The request handler: relaying upstream errors *)

Section RequestHandlerFacts.
Import Js RequestHandler.

Lemma statusFor_codes (errorType : string) (n : Z) :
  statusFor errorType = Code n ->
  In n [400; 401; 403; 404; 413; 429; 500; 529; 504]%Z.
Proof.
  unfold statusFor, ERROR_STATUS_MAP. cbn [own].
  repeat (match goal with
          | |- context [String.eqb errorType ?k] => destruct (String.eqb errorType k)
          end;
          [cbn; intros H; injection H as <-; cbn; tauto|]).
  destruct (existsb _ _); [discriminate|].
  intros H. injection H as <-. cbn. tauto.
Qed.

Lemma statusFor_504 (errorType : string) :
  statusFor errorType = Code 504 -> errorType = "timeout_error".
Proof.
  unfold statusFor, ERROR_STATUS_MAP. cbn [own].
  repeat (match goal with
          | |- context [String.eqb errorType ?k] =>
              destruct (String.eqb errorType k) eqn:?
          end;
          [cbn; intros H; try discriminate H; apply String.eqb_eq; assumption|]).
  destruct (existsb _ _); discriminate.
Qed.

(** Status to type and back. *)
Lemma status_round_trip (status : Z) :
  statusFor (getErrorTypeFromStatus status)
  = Code (if official status then status else 500).
Proof.
  unfold getErrorTypeFromStatus, STATUS_ERROR_MAP, official. cbn [ownByStatus existsb].
  repeat (match goal with
          | |- context [(status =? ?k)%Z] => destruct (Z.eqb_spec status k) as [->|_]
          end; [reflexivity|]).
  reflexivity.
Qed.

Lemma type_round_trip (errorType : string) (n : Z) :
  own errorType ERROR_STATUS_MAP = Some n -> n <> 504%Z ->
  getErrorTypeFromStatus n = errorType.
Proof.
  unfold ERROR_STATUS_MAP. cbn [own].
  repeat (match goal with
          | |- context [String.eqb errorType ?k] =>
              destruct (String.eqb_spec errorType k) as [->|_]
          end;
          [intros H; injection H as <-; intros Hn; try reflexivity; contradiction|]).
  discriminate.
Qed.

Lemma getUpstreamError_untyped (JSON_parse : string -> result ConfigProbe.json)
    (status : Z) (errorText : string) :
  typedBody JSON_parse errorText = false ->
  getUpstreamError JSON_parse status errorText
  = (ConfigProbe.JStr (getErrorTypeFromStatus status),
     ConfigProbe.JStr (if String.eqb errorText "" then "HTTP " ++ show_Z status
                       else errorText)).
Proof.
  unfold typedBody, getUpstreamError.
  destruct (JSON_parse errorText) as [json|e]; [|reflexivity].
  destruct (ConfigProbe.getOpt (ConfigProbe.getOpt (Some json) "error") "type") as [t|];
    [|reflexivity].
  intros ->. reflexivity.
Qed.

(** What the client is told when the upstream fails. A response is always
    sent, and it starts by setting the status. For a body without an error
    type of its own the upstream status is passed on when it is one of
    400, 401, 403, 404, 413, 429, 500 and 529, and every other status
    becomes 500. A numeric status sent is one of these eight or 504, and
    504 is sent only for a body that names its own error type. Mapping a
    type to its status and back gives the type again, except for
    [timeout_error]. *)
Theorem upstream_error_relay (JSON_parse : string -> result ConfigProbe.json)
    (toPropertyKey : ConfigProbe.json -> string) (now status : Z) (errorText : string) :
  (exists arg rest,
      relayUpstreamError JSON_parse toPropertyKey now status errorText
      = Ok (Status arg :: rest)
      /\ (typedBody JSON_parse errorText = false ->
          arg = Code (if official status then status else 500))
      /\ (forall n, arg = Code n ->
            In n [400; 401; 403; 404; 413; 429; 500; 529; 504]%Z)
      /\ (arg = Code 504 -> typedBody JSON_parse errorText = true))
  /\ (forall errorType n,
        own errorType ERROR_STATUS_MAP = Some n -> n <> 504%Z ->
        getErrorTypeFromStatus n = errorType).
Proof.
  split; [|apply type_round_trip].
  destruct (typedBody JSON_parse errorText) eqn:Ety.
  - unfold relayUpstreamError.
    destruct (getUpstreamError JSON_parse status errorText) as [t m].
    unfold sendError. destruct (hasSlice m).
    + eexists _, _. split; [reflexivity|]. split; [discriminate|].
      split; [apply statusFor_codes|reflexivity].
    + cbn [message String.eqb hasSlice keyOf]. eexists _, _. split; [reflexivity|].
      split; [discriminate|]. split; [apply statusFor_codes|reflexivity].
  - unfold relayUpstreamError. rewrite (getUpstreamError_untyped _ _ _ Ety).
    unfold sendError. cbn [hasSlice keyOf]. rewrite status_round_trip.
    eexists _, _. split; [reflexivity|]. split; [reflexivity|]. split.
    + intros n H. injection H as <-. unfold official. cbn [existsb].
      repeat (match goal with
              | |- context [(status =? ?k)%Z] => destruct (Z.eqb_spec status k) as [->|_]
              end; [cbn; tauto|]).
      cbn. tauto.
    + intros H. injection H as H. exfalso. revert H. unfold official. cbn [existsb].
      repeat (match goal with
              | |- context [(status =? ?k)%Z] => destruct (Z.eqb_spec status k) as [->|_]
              end; [cbn; discriminate|]).
      cbn. discriminate.
Qed.

End RequestHandlerFacts.

Section RequestHandlerExamples.
Import Js RequestHandler.

(** A quota error of an OpenAI-compatible upstream (HTTP 429) reaches the
    client as HTTP 500: its type is not one of the map. *)
Example quota_error_becomes_500 :
  relayUpstreamError
    (fun _ => Ok (ConfigProbe.JObj
                    [("error", ConfigProbe.JObj
                                 [("type", ConfigProbe.JStr "insufficient_quota");
                                  ("message", ConfigProbe.JStr "quota exceeded")])]))
    (fun _ => "") 7 429 "..."
  = Ok [ Status (Code 500);
         SetHeader "Content-Type" "application/json";
         SetHeader "request-id" "req_7";
         SetHeader "retry-after" "1";
         Json (ConfigProbe.JObj
                 [("type", ConfigProbe.JStr "error");
                  ("error", ConfigProbe.JObj
                              [("type", ConfigProbe.JStr "insufficient_quota");
                               ("message", ConfigProbe.JStr "quota exceeded")])]) ].
Proof. reflexivity. Qed.

Example plain_429_is_relayed :
  relayUpstreamError (fun _ => Throw (mkError "Unexpected token")) (fun _ => "") 7 429
    "Too Many Requests"
  = Ok [ Status (Code 429);
         SetHeader "Content-Type" "application/json";
         SetHeader "request-id" "req_7";
         SetHeader "retry-after" "1";
         Json (ConfigProbe.JObj
                 [("type", ConfigProbe.JStr "error");
                  ("error", ConfigProbe.JObj
                              [("type", ConfigProbe.JStr "rate_limit_error");
                               ("message", ConfigProbe.JStr "Too Many Requests")])]) ].
Proof. reflexivity. Qed.

End RequestHandlerExamples.

(** ** Provider adapters *)

Section ProviderAdapterFacts.
Import Js RequestHandler ProviderAdapters.

Lemma own_assign_same {V : Type} (k : string) (v : V) (fields : list (string * V)) :
  own k (assign k v fields) = Some v.
Proof.
  induction fields as [|[k' v'] rest IH]; cbn [assign own].
  - now rewrite String.eqb_refl.
  - destruct (String.eqb k k') eqn:E; cbn [own]; [now rewrite String.eqb_refl|].
    rewrite E. exact IH.
Qed.

Lemma own_assign_other {V : Type} (k k0 : string) (v : V) (fields : list (string * V)) :
  k0 <> k -> own k0 (assign k v fields) = own k0 fields.
Proof.
  intros Hne. induction fields as [|[k' v'] rest IH]; cbn [assign own].
  - destruct (String.eqb_spec k0 k); [contradiction|reflexivity].
  - destruct (String.eqb_spec k k') as [<-|Hk]; cbn [own].
    + destruct (String.eqb_spec k0 k); [contradiction|reflexivity].
    + destruct (String.eqb k0 k'); [reflexivity|exact IH].
Qed.

Lemma assign_present {V : Type} (k : string) (v : V) (fields : list (string * V)) :
  own k fields = Some v -> assign k v fields = fields.
Proof.
  induction fields as [|[k' v'] rest IH]; cbn [assign own]; [discriminate|].
  destruct (String.eqb_spec k k') as [<-|Hk].
  - intros H. injection H as ->. reflexivity.
  - intros H. f_equal. apply IH. exact H.
Qed.

(** A provider adapter touches little, and applying it again changes
    nothing. Of the body only [temperature] can change, and only for a URL
    that contains [api.groq.com], where a zero becomes 0.01; of the headers
    only [HTTP-Referer] and [X-Title]; a Groq URL gets no header, whatever
    else it contains, since the first adapter that matches is the only one
    applied. *)
Theorem applyProviderAdapter_frame (url : string) (body : Body) (headers : Headers) :
  let applied := applyProviderAdapter url body headers in
  let body' := snd (fst applied) in
  let headers' := snd applied in
  applyProviderAdapter url body' headers' = applied
  /\ (forall k, k <> "temperature" -> own k body' = own k body)
  /\ (forall k, k <> "HTTP-Referer" -> k <> "X-Title" -> own k headers' = own k headers)
  /\ (includes url "api.groq.com" = true ->
      headers' = headers
      /\ ConfigProbe.strictEq (own "temperature" body') (Some zero) = false)
  /\ (includes url "api.groq.com" = false -> body' = body).
Proof.
  cbv zeta. unfold applyProviderAdapter, findAdapter, adapters.
  cbn [find matches groqAdapter openRouterAdapter deepSeekAdapter].
  destruct (includes url "api.groq.com") eqn:G.
  - unfold groqAdapter. cbn [transformRequest getExtraHeaders fst snd].
    assert (Hz : ConfigProbe.strictEq
                   (own "temperature"
                      (if ConfigProbe.strictEq (own "temperature" body) (Some zero)
                       then assign "temperature" hundredth body else body))
                   (Some zero) = false).
    { destruct (ConfigProbe.strictEq (own "temperature" body) (Some zero)) eqn:E;
        [|exact E].
      rewrite own_assign_same. reflexivity. }
    split; [rewrite Hz; reflexivity|]. split.
    + intros k Hk.
      destruct (ConfigProbe.strictEq (own "temperature" body) (Some zero));
        [apply own_assign_other; exact Hk|reflexivity].
    + split; [reflexivity|]. split; [intros _; split; [reflexivity|exact Hz]|discriminate].
  - destruct (includes url "openrouter.ai") eqn:R.
    + unfold openRouterAdapter. unfold assignAll.
      cbn [transformRequest getExtraHeaders fst snd fold_left].
      split; [|split; [reflexivity|split; [|split; [discriminate|reflexivity]]]].
      * f_equal.
        rewrite (assign_present "HTTP-Referer" "https://hello-halo.cc/").
        -- apply assign_present. apply own_assign_same.
        -- rewrite own_assign_other by discriminate. apply own_assign_same.
      * intros k H1 H2. rewrite !own_assign_other by (intros E; subst; contradiction).
        reflexivity.
    + destruct (includes url "api.deepseek.com") eqn:D;
        unfold deepSeekAdapter; cbn [transformRequest getExtraHeaders fst snd];
        (split; [reflexivity|]); repeat split; discriminate.
Qed.

End ProviderAdapterFacts.

Section ProviderAdapterExamples.
Import Js RequestHandler ProviderAdapters.

Example groq_zero_temperature :
  snd (fst (applyProviderAdapter "https://api.groq.com/openai/v1/chat/completions"
              [("model", ConfigProbe.JStr "llama"); ("temperature", zero)] []))
  = [("model", ConfigProbe.JStr "llama"); ("temperature", hundredth)].
Proof. reflexivity. Qed.

Example openrouter_headers :
  snd (applyProviderAdapter "https://openrouter.ai/api/v1/chat/completions" []
         [("X-Title", "Mine"); ("Authorization", "Bearer k")])
  = [("X-Title", "Halo"); ("Authorization", "Bearer k");
     ("HTTP-Referer", "https://hello-halo.cc/")].
Proof. reflexivity. Qed.

End ProviderAdapterExamples.

(** ** The session manager and the health registry *)

Section SessionFacts.
Import Js Types Registry SessionManager.

Lemma in_unregister (i : string) (t : ProcessType) (st : Registry.State)
    (e : ProcessEntry) :
  In e (processes (unregisterProcess i t st))
  <-> In e (processes st) /\ sameKey i t e = false.
Proof.
  unfold unregisterProcess. cbn [processes]. rewrite filter_In, negb_true_iff. tauto.
Qed.

Lemma in_register (x : ProcessEntry) (st : Registry.State) (e : ProcessEntry) :
  In e (processes (registerProcess x st)) -> e = x \/ In e (processes st).
Proof.
  unfold registerProcess. cbn [processes]. intros H. apply in_app_or in H.
  destruct H as [H|[H|[]]]; [right|left; now symmetry].
  apply filter_In in H. tauto.
Qed.

Lemma sameKey_self (e : ProcessEntry) : sameKey (id e) (type e) e = true.
Proof. unfold sameKey. rewrite String.eqb_refl. destruct (type e); reflexivity. Qed.

Lemma mapGet_delete {V : Type} (k k' : string) (m : list (string * V)) :
  mapGet k (mapDelete k' m) = if String.eqb k k' then None else mapGet k m.
Proof.
  induction m as [|[k0 v] m IH]; cbn [mapDelete filter mapGet fst].
  - destruct (String.eqb k k'); reflexivity.
  - fold (mapDelete k' m). destruct (String.eqb_spec k' k0) as [<-|Hne]; cbn [negb].
    + rewrite IH. destruct (String.eqb k k'); reflexivity.
    + cbn [mapGet]. rewrite IH. destruct (String.eqb_spec k k0) as [->|_]; [|reflexivity].
      destruct (String.eqb_spec k0 k'); [congruence|reflexivity].
Qed.

Lemma mapGet_set {V : Type} (k k' : string) (v : V) (m : list (string * V)) :
  mapGet k (mapSet k' v m) = if String.eqb k k' then Some v else mapGet k m.
Proof.
  induction m as [|[k0 v0] m IH]; cbn [mapSet mapGet].
  - reflexivity.
  - destruct (String.eqb_spec k' k0) as [<-|Hne]; cbn [mapGet].
    + destruct (String.eqb k k'); reflexivity.
    + rewrite IH. destruct (String.eqb_spec k k0) as [->|_]; [|reflexivity].
      destruct (String.eqb_spec k0 k'); [congruence|reflexivity].
Qed.

Lemma mapGet_in {V : Type} (k : string) (v : V) (m : list (string * V)) :
  mapGet k m = Some v -> In (k, v) m.
Proof.
  induction m as [|[k0 v0] m IH]; cbn [mapGet]; [discriminate|].
  destruct (String.eqb_spec k k0) as [->|_].
  - intros H. injection H as ->. left. reflexivity.
  - intros H. right. apply IH. exact H.
Qed.

Lemma mapHas_in {V : Type} (k : string) (m : list (string * V)) :
  mapHas k m = true -> exists v, In (k, v) m.
Proof.
  unfold mapHas. destruct (mapGet k m) as [v|] eqn:E; [|discriminate].
  intros _. exists v. apply mapGet_in. exact E.
Qed.

(** [tracked] looks at the registry and at the map only. *)
Lemma tracked_same (s s' : State) :
  registry s' = registry s -> v2Sessions s' = v2Sessions s -> tracked s -> tracked s'.
Proof. unfold tracked. intros -> ->. auto. Qed.

Lemma tracked_close (c : string) (v : V2SessionInfo) (s : State) :
  tracked s ->
  tracked (set_v2Sessions (mapDelete c (v2Sessions (closeAndUnregister c v s)))
             (closeAndUnregister c v s)).
Proof.
  unfold tracked. cbn [set_v2Sessions closeAndUnregister registry v2Sessions].
  intros H e He Ht. apply in_unregister in He. destruct He as [He Hk].
  specialize (H e He Ht). unfold mapHas in *. rewrite mapGet_delete.
  destruct (String.eqb_spec (id e) c) as [<-|_]; [|exact H].
  rewrite <- Ht, sameKey_self in Hk. discriminate.
Qed.

Lemma closeV2Session_tracked (c : string) (s : State) :
  tracked s -> tracked (closeV2Session c s).
Proof.
  intros H. unfold closeV2Session. destruct (mapGet c (v2Sessions s)); [|exact H].
  apply tracked_close. exact H.
Qed.

Lemma cleanupTick_tracked (now : Z) (s : State) : tracked s -> tracked (cleanupTick now s).
Proof.
  unfold cleanupTick. apply fold_left_inv. intros acc kv _ H.
  destruct (_ <? _)%Z; [|exact H]. apply tracked_close. exact H.
Qed.

(** The first loop of [closeAllV2Sessions] and of [invalidateAllSessions]:
    only entries outside [skip] are closed. *)
Lemma closing_loop (skip : State -> string -> bool)
    (other : string -> State -> State) (l : list (string * V2SessionInfo)) (s : State) :
  (forall k acc, v2Sessions (other k acc) = v2Sessions acc
                 /\ activeSessions (other k acc) = activeSessions acc
                 /\ registry (other k acc) = registry acc
                 /\ closed (other k acc) = closed acc) ->
  (forall k v acc, skip (closeAndUnregister k v acc) = skip acc) ->
  (forall k acc, skip (other k acc) = skip acc) ->
  let s' := fold_left
              (fun acc kv => if skip acc (fst kv) then other (fst kv) acc
                             else closeAndUnregister (fst kv) (snd kv) acc) l s in
  v2Sessions s' = v2Sessions s
  /\ activeSessions s' = activeSessions s
  /\ skip s' = skip s
  /\ (forall e, In e (processes (registry s')) ->
        In e (processes (registry s))
        /\ forall kv, In kv l -> skip s (fst kv) = false ->
                      sameKey (fst kv) v2_session e = false)
  /\ (forall kv, In kv l -> skip s (fst kv) = false -> In (session (snd kv)) (closed s'))
  /\ (forall n, In n (closed s) -> In n (closed s')).
Proof.
  intros Hother Hskip1 Hskip2. cbv zeta. revert s.
  induction l as [|kv l IH]; intros s; cbn [fold_left].
  - repeat split; auto; intros; contradiction.
  - set (s1 := if skip s (fst kv) then other (fst kv) s
               else closeAndUnregister (fst kv) (snd kv) s).
    assert (Hs1 : v2Sessions s1 = v2Sessions s /\ activeSessions s1 = activeSessions s
                  /\ skip s1 = skip s).
    { unfold s1. destruct (skip s (fst kv)).
      - destruct (Hother (fst kv) s) as [H1 [H2 _]]. rewrite H1, H2, Hskip2. auto.
      - rewrite Hskip1. auto. }
    destruct Hs1 as [Hv [Ha Hsk]].
    destruct (IH s1) as [I1 [I2 [I3 [I4 [I5 I6]]]]].
    split; [congruence|]. split; [congruence|]. split; [congruence|].
    split; [|split].
    + intros e He. destruct (I4 e He) as [He1 Hrest]. rewrite Hsk in Hrest.
      unfold s1 in He1. destruct (skip s (fst kv)) eqn:Ek.
      * destruct (Hother (fst kv) s) as [_ [_ [Hr _]]]. rewrite Hr in He1.
        split; [exact He1|]. intros kv' [<-|Hin] Hk'; [congruence|auto].
      * cbn [closeAndUnregister registry] in He1. apply in_unregister in He1.
        destruct He1 as [He1 Hk]. split; [exact He1|].
        intros kv' [<-|Hin] Hk'; [exact Hk|auto].
    + intros kv' [<-|Hin] Hk'.
      * apply I6. unfold s1. rewrite Hk'. left. reflexivity.
      * apply I5; [exact Hin|]. rewrite Hsk. exact Hk'.
    + intros n Hn. apply I6. unfold s1. destruct (skip s (fst kv)).
      * destruct (Hother (fst kv) s) as [_ [_ [_ Hc]]]. rewrite Hc. exact Hn.
      * right. exact Hn.
Qed.

Lemma closeAll_loop (l : list (string * V2SessionInfo)) (s : State) :
  let s' := fold_left (fun acc kv => closeAndUnregister (fst kv) (snd kv) acc) l s in
  (forall e, In e (processes (registry s')) ->
     In e (processes (registry s))
     /\ forall kv, In kv l -> sameKey (fst kv) v2_session e = false)
  /\ (forall kv, In kv l -> In (session (snd kv)) (closed s')).
Proof.
  cbv zeta.
  destruct (closing_loop (fun _ _ => false) (fun _ acc => acc) l s)
    as [_ [_ [_ [H4 [H5 _]]]]]; auto.
  cbv zeta in H4, H5. cbn [negb] in *. split.
  - intros e He. destruct (H4 e He) as [H1 H2]. split; [exact H1|auto].
  - auto.
Qed.

Lemma closeAllV2Sessions_no_entry (s : State) (e : ProcessEntry) :
  tracked s -> In e (processes (registry (closeAllV2Sessions s))) ->
  type e = v2_session -> False.
Proof.
  intros Ht He Hty. unfold closeAllV2Sessions in He.
  assert (Hreg : forall x, registry (stopSessionCleanup x) = registry x)
    by (intros x; unfold stopSessionCleanup; destruct (cleanupIntervalId x); reflexivity).
  rewrite Hreg in He. cbn [set_v2Sessions registry] in He.
  destruct (closeAll_loop (v2Sessions s) s) as [H _]. cbv zeta in H.
  destruct (H e He) as [He0 Hk].
  destruct (mapHas_in _ _ (Ht e He0 Hty)) as [v Hin].
  specialize (Hk _ Hin). cbn [fst] in Hk. rewrite <- Hty, sameKey_self in Hk. discriminate.
Qed.

Lemma deleting_loop (keys : list string) (s : State) :
  let s' := fold_left
              (fun acc convId =>
                 if negb (setHas convId (activeSessions acc))
                 then set_v2Sessions (mapDelete convId (v2Sessions acc)) acc
                 else acc) keys s in
  activeSessions s' = activeSessions s
  /\ registry s' = registry s
  /\ closed s' = closed s
  /\ pendingInvalidations s' = pendingInvalidations s
  /\ forall k, mapGet k (v2Sessions s')
               = if setHas k keys && negb (setHas k (activeSessions s)) then None
                 else mapGet k (v2Sessions s).
Proof.
  cbv zeta. revert s. induction keys as [|c keys IH]; intros s; cbn [fold_left].
  - repeat split; reflexivity.
  - set (s1 := if negb (setHas c (activeSessions s))
               then set_v2Sessions (mapDelete c (v2Sessions s)) s else s).
    assert (Hs1 : activeSessions s1 = activeSessions s /\ registry s1 = registry s
                  /\ closed s1 = closed s
                  /\ pendingInvalidations s1 = pendingInvalidations s)
      by (unfold s1; destruct (negb _); repeat split; reflexivity).
    destruct Hs1 as [Ha [Hr [Hc Hp]]].
    destruct (IH s1) as [I1 [I2 [I3 [I4 I5]]]].
    split; [congruence|]. split; [congruence|]. split; [congruence|].
    split; [congruence|].
    intros k. rewrite I5, Ha. cbn [setHas existsb].
    destruct (String.eqb_spec k c) as [->|Hne]; cbn [orb].
    + unfold s1. destruct (setHas c (activeSessions s)) eqn:Eact; cbn [negb andb].
      * rewrite andb_false_r. reflexivity.
      * cbn [set_v2Sessions v2Sessions]. rewrite mapGet_delete, String.eqb_refl.
        destruct (setHas c keys && true); reflexivity.
    + unfold s1. fold (setHas k keys).
      destruct (setHas k keys && negb (setHas k (activeSessions s))); [reflexivity|].
      destruct (negb (setHas c (activeSessions s))); [|reflexivity].
      cbn [set_v2Sessions v2Sessions]. rewrite mapGet_delete.
      destruct (String.eqb_spec k c); [contradiction|reflexivity].
Qed.

Lemma invalidate_first_loop (s : State) :
  let s1 := fold_left
              (fun acc kv =>
                 if setHas (fst kv) (activeSessions acc)
                 then set_pendingInvalidations
                        (setAdd (fst kv) (pendingInvalidations acc)) acc
                 else closeAndUnregister (fst kv) (snd kv) acc)
              (v2Sessions s) s in
  v2Sessions s1 = v2Sessions s
  /\ activeSessions s1 = activeSessions s
  /\ (forall e, In e (processes (registry s1)) ->
        In e (processes (registry s))
        /\ forall kv, In kv (v2Sessions s) -> setHas (fst kv) (activeSessions s) = false ->
                      sameKey (fst kv) v2_session e = false)
  /\ (forall kv, In kv (v2Sessions s) -> setHas (fst kv) (activeSessions s) = false ->
        In (session (snd kv)) (closed s1)).
Proof.
  cbv zeta.
  destruct (closing_loop (fun acc k => setHas k (activeSessions acc))
              (fun k acc => set_pendingInvalidations
                              (setAdd k (pendingInvalidations acc)) acc)
              (v2Sessions s) s) as [H1 [H2 [_ [H4 [H5 _]]]]];
    try (intros; repeat split; reflexivity).
  cbv zeta in H1, H2, H4, H5. auto.
Qed.

Lemma invalidateAllSessions_tracked (s : State) :
  tracked s -> tracked (invalidateAllSessions s).
Proof.
  intros Ht. unfold invalidateAllSessions.
  destruct (length (v2Sessions s) =? 0)%nat; [exact Ht|].
  destruct (invalidate_first_loop s) as [H1 [H2 [H3 _]]]. cbv zeta in H1, H2, H3.
  set (s1 := fold_left _ (v2Sessions s) s) in *.
  destruct (deleting_loop (map fst (v2Sessions s1)) s1) as [_ [D2 [_ [_ D5]]]].
  cbv zeta in D2, D5.
  intros e He Hty. rewrite D2 in He. destruct (H3 e He) as [He0 Hk].
  pose proof (Ht e He0 Hty) as Hhas. unfold mapHas in *. rewrite D5, H1, H2.
  destruct (mapHas_in (id e) (v2Sessions s)) as [v Hin];
    [unfold mapHas; exact Hhas|].
  destruct (setHas (id e) (activeSessions s)) eqn:Eact.
  - rewrite andb_false_r. exact Hhas.
  - exfalso. specialize (Hk _ Hin Eact). cbn [fst] in Hk.
    rewrite <- Hty, sameKey_self in Hk. discriminate.
Qed.

Lemma begin_tracked (c : string) (sid : option string) (cfg : option SessionConfig)
    (wd : option string) (mig : result bool) (now : Z) (s : State) :
  tracked s -> tracked (snd (getOrCreateV2Session_begin c sid cfg wd mig now s)).
Proof.
  intros Ht. unfold getOrCreateV2Session_begin.
  assert (Hcreate : forall s', tracked s' ->
            tracked (snd (if given sid && given wd
                          then match mig with
                               | Ok true => (Ok (Create sid), s')
                               | Ok false => (Ok (Create None), s')
                               | Throw e => (Throw e, s')
                               end
                          else (Ok (Create (if given sid then sid else None)), s')))).
  { intros s' H. destruct (given sid && given wd); [|exact H].
    destruct mig as [[|]|]; exact H. }
  destruct (mapGet c (v2Sessions s)) as [existing|] eqn:E; [|apply Hcreate; exact Ht].
  destruct (match cfg with Some c0 => needsSessionRebuild existing c0 | None => false end).
  - apply Hcreate. unfold closeV2SessionForRebuild. rewrite E. apply tracked_close. exact Ht.
  - cbn [snd]. intros e He Hty. cbn [set_v2Sessions registry v2Sessions] in *.
    specialize (Ht e He Hty). unfold mapHas in *. rewrite mapGet_set.
    destruct (String.eqb (id e) c); [reflexivity|exact Ht].
Qed.

Lemma startSessionCleanup_tracked (timer : nat) (s : State) :
  tracked s -> tracked (startSessionCleanup timer s).
Proof. unfold startSessionCleanup. destruct (cleanupIntervalId s); auto. Qed.

Lemma finish_tracked (sp c : string) (cfg : option SessionConfig)
    (created : result (nat * option Z)) (now : Z) (timer : nat) (s : State) :
  tracked s -> tracked (snd (getOrCreateV2Session_end sp c cfg created now timer s)).
Proof.
  intros Ht. unfold getOrCreateV2Session_end.
  destruct created as [[newSession newPid]|err]; [|exact Ht]. cbn [snd].
  apply startSessionCleanup_tracked.
  intros e He Hty. cbn [set_v2Sessions registry v2Sessions] in *.
  unfold mapHas. rewrite mapGet_set.
  destruct (String.eqb_spec (id e) c) as [_|Hne]; [reflexivity|].
  assert (He0 : In e (processes (registry s))).
  { destruct (getCurrentInstanceId (registry s)) as [instance|]; [|exact He].
    destruct (String.eqb instance ""); [exact He|].
    cbn [set_registry registry] in He. apply in_register in He.
    destruct He as [->|He]; [contradiction Hne; reflexivity|exact He]. }
  pose proof (Ht e He0 Hty) as H. unfold mapHas in H.
  destruct (getCurrentInstanceId (registry s)) as [instance|]; [|exact H].
  destruct (String.eqb instance ""); exact H.
Qed.

Lemma step_tracked (s : State) (i : Input) : tracked s -> tracked (step s i).
Proof.
  intros Ht. destruct i; cbn [step].
  - apply begin_tracked. exact Ht.
  - apply finish_tracked. exact Ht.
  - apply closeV2Session_tracked. exact Ht.
  - intros e He Hty. exfalso. exact (closeAllV2Sessions_no_entry s e Ht He Hty).
  - apply invalidateAllSessions_tracked. exact Ht.
  - exact Ht.
  - unfold unregisterActiveSession.
    destruct (setHas conversation _); [apply closeV2Session_tracked|]; exact Ht.
  - apply cleanupTick_tracked. exact Ht.
  - intros e He Hty. cbn [set_registry registry v2Sessions] in *.
    apply in_unregister in He. apply Ht; tauto.
  - intros e He Hty. cbn [set_registry registry v2Sessions] in *.
    apply in_register in He. destruct He as [->|He]; [discriminate Hty|].
    apply Ht; assumption.
Qed.

(** The registry never holds a session the manager has let go. Through
    any interleaving of the manager's operations (the two halves of
    [getOrCreateV2Session] apart), reaping by the health checker and
    tunnel registrations, every [v2-session] entry of the registry has its
    session in [v2Sessions]; and after [closeAllV2Sessions] no
    [v2-session] entry is left and no session is held. *)
Theorem registry_tracks_sessions (inputs : list Input) (s : State) :
  tracked s ->
  tracked (run inputs s)
  /\ v2Sessions (closeAllV2Sessions (run inputs s)) = []
  /\ forall e, In e (processes (registry (closeAllV2Sessions (run inputs s)))) ->
               type e <> v2_session.
Proof.
  intros Ht.
  assert (Hrun : tracked (run inputs s)).
  { unfold run. apply fold_left_inv; [|exact Ht]. intros acc i _. apply step_tracked. }
  split; [exact Hrun|]. split.
  - unfold closeAllV2Sessions, stopSessionCleanup.
    match goal with |- context [cleanupIntervalId ?x] =>
      destruct (cleanupIntervalId x) end; reflexivity.
  - intros e He Hty. exact (closeAllV2Sessions_no_entry _ e Hrun He Hty).
Qed.

Lemma setHas_add (k k' : string) (p : list string) :
  setHas k (setAdd k' p) = String.eqb k k' || setHas k p.
Proof.
  unfold setAdd. destruct (setHas k' p) eqn:E.
  - destruct (String.eqb_spec k k') as [->|_]; [now rewrite E|reflexivity].
  - unfold setHas. rewrite existsb_app. cbn [existsb]. rewrite orb_false_r. apply orb_comm.
Qed.

Lemma setHas_delete (k : string) (p : list string) : setHas k (setDelete k p) = false.
Proof.
  unfold setHas, setDelete. induction p as [|x p IH]; [reflexivity|].
  cbn [filter]. destruct (String.eqb k x) eqn:E; cbn [negb]; [exact IH|].
  cbn [existsb]. rewrite E. exact IH.
Qed.

Lemma setHas_keys {V : Type} (k : string) (v : V) (m : list (string * V)) :
  In (k, v) m -> setHas k (map fst m) = true.
Proof.
  intros H. unfold setHas. apply existsb_exists. exists k. split.
  - apply (in_map fst) in H. exact H.
  - apply String.eqb_refl.
Qed.

Lemma invalidate_pending (l : list (string * V2SessionInfo)) (s : State) :
  let s1 := fold_left
              (fun acc kv =>
                 if setHas (fst kv) (activeSessions acc)
                 then set_pendingInvalidations
                        (setAdd (fst kv) (pendingInvalidations acc)) acc
                 else closeAndUnregister (fst kv) (snd kv) acc) l s in
  activeSessions s1 = activeSessions s
  /\ forall k, setHas k (pendingInvalidations s) = true
               \/ (setHas k (map fst l) = true /\ setHas k (activeSessions s) = true) ->
               setHas k (pendingInvalidations s1) = true.
Proof.
  cbv zeta. revert s. induction l as [|kv l IH]; intros s; cbn [fold_left].
  - split; [reflexivity|]. intros k [H|[H _]]; [exact H|discriminate].
  - set (s0 := if setHas (fst kv) (activeSessions s)
               then set_pendingInvalidations
                      (setAdd (fst kv) (pendingInvalidations s)) s
               else closeAndUnregister (fst kv) (snd kv) s).
    assert (Ha : activeSessions s0 = activeSessions s)
      by (unfold s0; destruct (setHas _ _); reflexivity).
    destruct (IH s0) as [I1 I2]. split; [congruence|].
    intros k Hk. apply I2. rewrite Ha.
    destruct Hk as [Hp|[Hin Hact]].
    + left. unfold s0. destruct (setHas (fst kv) (activeSessions s)); [|exact Hp].
      cbn [set_pendingInvalidations pendingInvalidations]. rewrite setHas_add, Hp.
      apply orb_true_r.
    + cbn [map setHas existsb] in Hin. fold (setHas k (map fst l)) in Hin.
      destruct (String.eqb_spec k (fst kv)) as [E|_].
      * left. unfold s0. rewrite E in Hact |- *. rewrite Hact.
        cbn [set_pendingInvalidations pendingInvalidations].
        rewrite setHas_add, String.eqb_refl. reflexivity.
      * right. cbn [orb] in Hin. split; assumption.
Qed.

(** A change of the API configuration reaches every session, now or when
    its request ends. Of the sessions held when [invalidateAllSessions]
    runs, one without a request in flight is closed and dropped at once;
    one with a request in flight is kept and marked, and the
    [unregisterActiveSession] that ends its request closes and drops it
    and clears the mark. *)
Theorem config_change_reaches_every_session (s : State) (conv : string)
    (v : V2SessionInfo) :
  mapGet conv (v2Sessions s) = Some v ->
  let s1 := invalidateAllSessions s in
  let s2 := unregisterActiveSession conv s1 in
  (setHas conv (activeSessions s) = false ->
   mapGet conv (v2Sessions s1) = None /\ In (session v) (closed s1))
  /\ (setHas conv (activeSessions s) = true ->
      mapGet conv (v2Sessions s1) = Some v
      /\ setHas conv (pendingInvalidations s1) = true
      /\ mapGet conv (v2Sessions s2) = None
      /\ In (session v) (closed s2)
      /\ setHas conv (pendingInvalidations s2) = false
      /\ setHas conv (activeSessions s2) = false).
Proof.
  intros Hget. cbv zeta. pose proof (mapGet_in _ _ _ Hget) as Hin.
  unfold invalidateAllSessions.
  destruct (length (v2Sessions s) =? 0)%nat eqn:Elen.
  { apply Nat.eqb_eq in Elen. destruct (v2Sessions s); [contradiction|discriminate]. }
  destruct (invalidate_first_loop s) as [H1 [H2 [_ H4]]]. cbv zeta in H1, H2, H4.
  destruct (invalidate_pending (v2Sessions s) s) as [_ P2]. cbv zeta in P2.
  set (s1 := fold_left _ (v2Sessions s) s) in *.
  destruct (deleting_loop (map fst (v2Sessions s1)) s1) as [D1 [_ [D3 [D4 D5]]]].
  cbv zeta in D1, D3, D4, D5.
  set (s1' := fold_left _ (map fst (v2Sessions s1)) s1) in *.
  assert (Hkeys : setHas conv (map fst (v2Sessions s)) = true)
    by (apply (setHas_keys conv v); exact Hin).
  split.
  - intros Hact. split.
    + rewrite D5, H1, H2, Hkeys, Hact. reflexivity.
    + rewrite D3. apply (H4 (conv, v)); assumption.
  - intros Hact.
    assert (G1 : mapGet conv (v2Sessions s1') = Some v).
    { rewrite D5, H1, H2, Hact, andb_false_r. exact Hget. }
    assert (G2 : setHas conv (pendingInvalidations s1') = true).
    { rewrite D4. apply P2. right. split; assumption. }
    split; [exact G1|]. split; [exact G2|].
    unfold unregisterActiveSession.
    cbn [set_activeSessions pendingInvalidations]. rewrite G2.
    unfold closeV2Session.
    cbn [set_pendingInvalidations set_activeSessions v2Sessions]. rewrite G1.
    cbn [set_v2Sessions closeAndUnregister v2Sessions closed pendingInvalidations
         activeSessions].
    split; [rewrite mapGet_delete, String.eqb_refl; reflexivity|].
    split; [left; reflexivity|].
    split; apply setHas_delete.
Qed.

End SessionFacts.

Section SessionExamples.
Import Js Types Registry SessionManager.

Example two_sessions_registered :
  map id (processes (registry twoSessions)) = ["conv-a"; "conv-b"]
  /\ map fst (v2Sessions twoSessions) = ["conv-a"; "conv-b"].
Proof. split; reflexivity. Qed.

(** The idle sweep does not look at [activeSessions]: a session whose
    request has run for more than thirty minutes is closed under it. *)
Example idle_sweep_closes_active_session :
  closed (cleanupTick 1900000 twoSessions) = [2; 1]
  /\ activeSessions (cleanupTick 1900000 twoSessions) = ["conv-a"].
Proof. split; reflexivity. Qed.

Lemma registry_tracks_sessions_witness :
  v2Sessions (closeAllV2Sessions twoSessions) = []
  /\ processes (registry (closeAllV2Sessions twoSessions)) = [].
Proof.
  assert (H0 : tracked (fresh "run-2")) by (intros e []).
  destruct (registry_tracks_sessions
              [ Finish "space" "conv-a" None (Ok (1, Some 501%Z)) 100 7;
                Finish "space" "conv-b" None (Ok (2, Some 502%Z)) 200 7;
                RegisterActive "conv-a" ] (fresh "run-2") H0) as [_ [H _]].
  split; [exact H|reflexivity].
Defined.

(** The configuration changes while [conv-a] has a request in flight:
    [conv-b] is closed at once, [conv-a] when its request ends. *)
Lemma config_change_witness :
  closed (invalidateAllSessions twoSessions) = [2]
  /\ mapGet "conv-a"
       (v2Sessions (unregisterActiveSession "conv-a" (invalidateAllSessions twoSessions)))
     = None
  /\ In 1 (closed (unregisterActiveSession "conv-a" (invalidateAllSessions twoSessions))).
Proof.
  destruct (config_change_reaches_every_session twoSessions "conv-a"
              (mkV2SessionInfo 1 "space" "conv-a" 100 100 (mkSessionConfig false))
              eq_refl) as [_ H].
  destruct (H eq_refl) as [_ [_ [H3 [H4 _]]]].
  split; [reflexivity|]. split; [exact H3|exact H4].
Defined.

End SessionExamples.

(** ** The config service: migrating encrypted credentials *)

Section MigrationFacts.
Import Js ConfigProbe ConfigService.

Ltac conjs := repeat match goal with |- _ /\ _ => split end.

Lemma lookup_own (k : string) (fs : list (string * json)) :
  lookup k fs = RequestHandler.own k fs.
Proof. induction fs as [|[k' v] fs IH]; cbn; [reflexivity|now rewrite IH]. Qed.

Lemma prop_setProp_same (k : string) (v v0 : json) (o : json) :
  prop o k = Some v0 -> prop (setProp k v o) k = Some v.
Proof.
  destruct o; cbn [prop setProp]; try discriminate. intros _.
  rewrite lookup_own. apply own_assign_same.
Qed.

Lemma prop_setProp_other (k k' : string) (v : json) (o : json) :
  k' <> k -> prop (setProp k v o) k' = prop o k'.
Proof.
  intros Hne. destruct o; try reflexivity. cbn [prop setProp].
  rewrite !lookup_own. apply own_assign_other. exact Hne.
Qed.

Lemma setProp_present (k : string) (v : json) (o : json) :
  prop o k = Some v -> setProp k v o = o.
Proof.
  destruct o; cbn [prop setProp]; try discriminate. rewrite lookup_own. intros H.
  f_equal. apply assign_present. exact H.
Qed.

Lemma setProp_shape (k : string) (v : json) (o : json) :
  truthy (Some (setProp k v o)) = truthy (Some o)
  /\ isObject (Some (setProp k v o)) = isObject (Some o)
  /\ (setProp k v o = JNull <-> o = JNull).
Proof. destruct o; cbn; repeat split; intros; try reflexivity; discriminate. Qed.

Lemma tryDecrypt_plain (d : string -> string) (v x : string) :
  tryDecrypt d v = Some x -> prefix ENCRYPTED_PREFIX x = false.
Proof.
  unfold tryDecrypt. destruct (negb (String.eqb (d v) "")); cbn [andb]; [|discriminate].
  destruct (prefix ENCRYPTED_PREFIX (d v)) eqn:E; cbn [negb]; [discriminate|].
  intros H. injection H as <-. exact E.
Qed.

Lemma grows_consistent (fs fl : list string) :
  (fs ++ fl)%list <> [] -> consistent {| migrated := true; fields := fs; failures := fl |}.
Proof. intros H. unfold consistent. cbn. tauto. Qed.

(** One block: afterwards the property is not encrypted, nothing else of
    the object has changed, and a block that finds nothing encrypted does
    nothing. *)
Lemma migrateField_spec (d : string -> string) (label k : string) (o : json)
    (r : MigrationResult) :
  let o' := fst (migrateField d label k (o, r)) in
  let r' := snd (migrateField d label k (o, r)) in
  isEncryptedValue (prop o' k) = false
  /\ (forall k', k' <> k -> prop o' k' = prop o k')
  /\ truthy (Some o') = truthy (Some o)
  /\ isObject (Some o') = isObject (Some o)
  /\ (isEncryptedValue (prop o k) = false -> migrateField d label k (o, r) = (o, r))
  /\ (consistent r -> consistent r')
  /\ (migrated r' = false -> o' = o /\ r' = r).
Proof.
  cbv zeta. unfold migrateField.
  destruct (prop o k) as [[|b|q|x|items|fs]|] eqn:Ep; cbn [fst snd];
    try (rewrite Ep; cbn [isEncryptedValue]; conjs; auto; fail).
  destruct (prefix ENCRYPTED_PREFIX x) eqn:Ex; cbn [fst snd].
  2:{ rewrite Ep. cbn [isEncryptedValue]. conjs; auto. }
  destruct (tryDecrypt d x) as [plain|] eqn:Et; cbn [fst snd].
  - rewrite (prop_setProp_same k _ _ o Ep). cbn [isEncryptedValue].
    rewrite (tryDecrypt_plain d x plain Et).
    destruct (setProp_shape k (JStr plain) o) as [S1 [S2 _]].
    split; [reflexivity|]. split; [intros k' Hk; apply prop_setProp_other; exact Hk|].
    split; [exact S1|]. split; [exact S2|].
    split; [cbn [isEncryptedValue]; rewrite Ex; discriminate|].
    split; [intros _; apply grows_consistent; destruct (fields r); cbn; discriminate
           |cbn; discriminate].
  - rewrite (prop_setProp_same k _ _ o Ep). cbn [isEncryptedValue].
    destruct (setProp_shape k (JStr "") o) as [S1 [S2 _]].
    split; [reflexivity|]. split; [intros k' Hk; apply prop_setProp_other; exact Hk|].
    split; [exact S1|]. split; [exact S2|].
    split; [cbn [isEncryptedValue]; rewrite Ex; discriminate|].
    split; [|cbn; discriminate].
    intros _. apply grows_consistent.
    destruct (fields r); cbn; [destruct (failures r); discriminate|discriminate].
Qed.

Lemma migrateProvider_spec (d : string -> string) (key : string) (v : json)
    (r : MigrationResult) :
  let v' := fst (migrateProvider d key (v, r)) in
  let r' := snd (migrateProvider d key (v, r)) in
  (forall d2 r2, migrateProvider d2 key (v', r2) = (v', r2))
  /\ (consistent r -> consistent r')
  /\ (migrated r' = false -> v' = v /\ r' = r)
  /\ (String.eqb key "custom" = true -> v' = v).
Proof.
  cbv zeta. unfold migrateProvider.
  destruct (String.eqb key "current" || String.eqb key "custom"
            || negb (truthy (Some v)) || negb (isObject (Some v))) eqn:Eskip.
  - cbn [fst snd]. split; [intros d2 r2; rewrite Eskip; reflexivity|]. auto.
  - set (label1 := "aiSources." ++ key ++ ".accessToken").
    set (label2 := "aiSources." ++ key ++ ".refreshToken").
    destruct (migrateField_spec d label1 "accessToken" v r)
      as [A1 [A2 [A3 [A4 [_ [A6 A7]]]]]]. cbv zeta in *.
    destruct (migrateField d label1 "accessToken" (v, r)) as [v1 r1]. cbn [fst snd] in *.
    destruct (migrateField_spec d label2 "refreshToken" v1 r1)
      as [B1 [B2 [B3 [B4 [_ [B6 B7]]]]]]. cbv zeta in *.
    destruct (migrateField d label2 "refreshToken" (v1, r1)) as [v2 r2]. cbn [fst snd] in *.
    split; [|split; [auto|split]].
    + intros d2 r0.
      assert (Eskip2 : String.eqb key "current" || String.eqb key "custom"
                       || negb (truthy (Some v2)) || negb (isObject (Some v2)) = false)
        by (rewrite B3, B4, A3, A4; exact Eskip).
      rewrite Eskip2.
      assert (Hacc : isEncryptedValue (prop v2 "accessToken") = false)
        by (rewrite B2 by discriminate; exact A1).
      destruct (migrateField_spec d2 label1 "accessToken" v2 r0)
        as [_ [_ [_ [_ [C5 _]]]]].
      rewrite (C5 Hacc).
      destruct (migrateField_spec d2 label2 "refreshToken" v2 r0)
        as [_ [_ [_ [_ [D5 _]]]]].
      exact (D5 B1).
    + intros H. destruct (B7 H) as [-> ->]. exact (A7 H).
    + intros Hc. rewrite Hc in Eskip. rewrite orb_true_r in Eskip. discriminate.
Qed.

Lemma migrateEntries_spec (d : string -> string) (entries : list (string * json))
    (r : MigrationResult) :
  let entries' := fst (migrateEntries d entries r) in
  let r' := snd (migrateEntries d entries r) in
  (forall d2 r2, migrateEntries d2 entries' r2 = (entries', r2))
  /\ (consistent r -> consistent r')
  /\ (migrated r' = false -> entries' = entries /\ r' = r)
  /\ lookup "custom" entries' = lookup "custom" entries.
Proof.
  cbv zeta. revert r. induction entries as [|[key v] rest IH]; intros r;
    cbn [migrateEntries].
  - cbn. conjs; auto.
  - destruct (migrateProvider_spec d key v r) as [P1 [P2 [P3 P4]]]. cbv zeta in *.
    destruct (migrateProvider d key (v, r)) as [v' r1]. cbn [fst snd] in *.
    destruct (IH r1) as [I1 [I2 [I3 I4]]].
    destruct (migrateEntries d rest r1) as [rest' r2]. cbn [fst snd] in *.
    split; [|split; [auto|split]].
    + intros d2 r0. cbn [migrateEntries]. rewrite P1, I1. reflexivity.
    + intros H. destruct (I3 H) as [-> ->]. destruct (P3 H) as [-> ->]. auto.
    + cbn [lookup]. destruct (String.eqb "custom" key) eqn:E.
      * rewrite String.eqb_sym in E. rewrite (P4 E). reflexivity.
      * exact I4.
Qed.

Lemma migrateItems_spec (d : string -> string) (items : list json) (index : nat)
    (r : MigrationResult) :
  let items' := fst (migrateItems d index items r) in
  let r' := snd (migrateItems d index items r) in
  (forall d2 r2, migrateItems d2 index items' r2 = (items', r2))
  /\ (consistent r -> consistent r')
  /\ (migrated r' = false -> items' = items /\ r' = r).
Proof.
  cbv zeta. revert index r. induction items as [|v rest IH]; intros index r;
    cbn [migrateItems].
  - cbn. conjs; auto.
  - destruct (migrateProvider_spec d (show_nat index) v r) as [P1 [P2 [P3 _]]].
    cbv zeta in *.
    destruct (migrateProvider d (show_nat index) (v, r)) as [v' r1]. cbn [fst snd] in *.
    destruct (IH (S index) r1) as [I1 [I2 I3]].
    destruct (migrateItems d (S index) rest r1) as [rest' r2]. cbn [fst snd] in *.
    split; [|split; [auto|]].
    + intros d2 r0. cbn [migrateItems]. rewrite P1, I1. reflexivity.
    + intros H. destruct (I3 H) as [-> ->]. destruct (P3 H) as [-> ->]. auto.
Qed.

Lemma migrateApi_spec (d : string -> string) (parsed : json) (r : MigrationResult) :
  let p' := fst (migrateApi d (parsed, r)) in
  let r' := snd (migrateApi d (parsed, r)) in
  apiClean p'
  /\ prop p' "aiSources" = prop parsed "aiSources"
  /\ (consistent r -> consistent r')
  /\ (migrated r' = false -> p' = parsed /\ r' = r).
Proof.
  cbv zeta. unfold migrateApi, apiClean.
  destruct (prop parsed "api") as [api|] eqn:Ea; cbn [fst snd];
    [|rewrite Ea; auto].
  destruct (truthy (Some api)) eqn:Et; cbn [fst snd].
  2:{ rewrite Ea. split; [intros H; congruence|auto]. }
  destruct (migrateField_spec d "api.apiKey" "apiKey" api r)
    as [F1 [_ [F3 [_ [_ [F6 F7]]]]]]. cbv zeta in *.
  destruct (migrateField d "api.apiKey" "apiKey" (api, r)) as [api' r1].
  cbn [fst snd] in *.
  rewrite (prop_setProp_same "api" api' api parsed Ea).
  split; [intros _; exact F1|].
  split; [apply prop_setProp_other; discriminate|].
  split; [exact F6|].
  intros H. destruct (F7 H) as [-> ->]. split; [|reflexivity].
  apply setProp_present. exact Ea.
Qed.

Lemma migrateApi_clean (d : string -> string) (parsed : json) (r : MigrationResult) :
  apiClean parsed -> migrateApi d (parsed, r) = (parsed, r).
Proof.
  unfold apiClean, migrateApi. destruct (prop parsed "api") as [api|] eqn:Ea;
    [|reflexivity].
  destruct (truthy (Some api)); [|reflexivity]. intros H.
  destruct (migrateField_spec d "api.apiKey" "apiKey" api r) as [_ [_ [_ [_ [F5 _]]]]].
  rewrite (F5 (H eq_refl)). f_equal. apply setProp_present. exact Ea.
Qed.

Lemma migrateCustom_spec (d : string -> string) (parsed : json) (r : MigrationResult) :
  let p' := fst (migrateCustom d (parsed, r)) in
  let r' := snd (migrateCustom d (parsed, r)) in
  customClean p'
  /\ prop p' "api" = prop parsed "api"
  /\ (consistent r -> consistent r')
  /\ (migrated r' = false -> p' = parsed /\ r' = r).
Proof.
  cbv zeta. unfold migrateCustom, customClean.
  destruct (prop parsed "aiSources") as [a|] eqn:Ea; cbn [fst snd];
    [|rewrite Ea; cbn [getOpt]; auto].
  destruct (getOpt (Some a) "custom") as [custom|] eqn:Ec; cbn [fst snd];
    [|rewrite Ea, Ec; auto].
  destruct (truthy (Some custom)) eqn:Et; cbn [fst snd].
  2:{ rewrite Ea, Ec. split; [intros H; congruence|auto]. }
  destruct (migrateField_spec d "aiSources.custom.apiKey" "apiKey" custom r)
    as [F1 [_ [F3 [_ [_ [F6 F7]]]]]]. cbv zeta in *.
  destruct (migrateField d "aiSources.custom.apiKey" "apiKey" (custom, r))
    as [custom' r1]. cbn [fst snd] in *.
  assert (Hc : prop a "custom" = Some custom).
  { destruct a; cbn [getOpt] in Ec; try discriminate; exact Ec. }
  rewrite (prop_setProp_same "aiSources" _ a parsed Ea).
  assert (Hget : getOpt (Some (setProp "custom" custom' a)) "custom" = Some custom').
  { destruct a; cbn [prop] in Hc; try discriminate. cbn [setProp getOpt prop].
    rewrite lookup_own. apply own_assign_same. }
  rewrite Hget.
  split; [intros _; exact F1|].
  split; [apply prop_setProp_other; discriminate|].
  split; [exact F6|].
  intros H. destruct (F7 H) as [-> ->]. split; [|reflexivity].
  rewrite (setProp_present "custom" custom a Hc). apply setProp_present. exact Ea.
Qed.

Lemma migrateCustom_clean (d : string -> string) (parsed : json) (r : MigrationResult) :
  customClean parsed -> migrateCustom d (parsed, r) = (parsed, r).
Proof.
  unfold customClean, migrateCustom.
  destruct (prop parsed "aiSources") as [a|] eqn:Ea; [|reflexivity].
  destruct (getOpt (Some a) "custom") as [custom|] eqn:Ec; [|reflexivity].
  destruct (truthy (Some custom)); [|reflexivity]. intros H.
  destruct (migrateField_spec d "aiSources.custom.apiKey" "apiKey" custom r)
    as [_ [_ [_ [_ [F5 _]]]]].
  rewrite (F5 (H eq_refl)).
  assert (Hc : prop a "custom" = Some custom).
  { destruct a; cbn [getOpt] in Ec; try discriminate; exact Ec. }
  rewrite (setProp_present "custom" custom a Hc).
  f_equal. apply setProp_present. exact Ea.
Qed.

Lemma migrateProviders_spec (d : string -> string) (parsed : json)
    (r : MigrationResult) :
  let p' := fst (migrateProviders d (parsed, r)) in
  let r' := snd (migrateProviders d (parsed, r)) in
  (forall d2 r2, migrateProviders d2 (p', r2) = (p', r2))
  /\ prop p' "api" = prop parsed "api"
  /\ getOpt (prop p' "aiSources") "custom" = getOpt (prop parsed "aiSources") "custom"
  /\ (consistent r -> consistent r')
  /\ (migrated r' = false -> p' = parsed /\ r' = r).
Proof.
  cbv zeta. unfold migrateProviders.
  destruct (prop parsed "aiSources") as [[|b|q|x|items|entries]|] eqn:Ea; cbn [fst snd];
    try (rewrite Ea; split; [intros d2 r2; reflexivity|conjs; auto]; fail).
  - destruct (migrateItems_spec d items 0 r) as [I1 [I2 I3]]. cbv zeta in *.
    destruct (migrateItems d 0 items r) as [items' r1]. cbn [fst snd] in *.
    split; [|split; [|split; [|split]]].
    + intros d2 r2. rewrite (prop_setProp_same "aiSources" _ _ parsed Ea), I1.
      f_equal. apply setProp_present. apply (prop_setProp_same _ _ _ _ Ea).
    + apply prop_setProp_other. discriminate.
    + rewrite (prop_setProp_same "aiSources" _ _ parsed Ea). reflexivity.
    + exact I2.
    + intros H. destruct (I3 H) as [-> ->]. split; [|reflexivity].
      apply setProp_present. exact Ea.
  - destruct (migrateEntries_spec d entries r) as [I1 [I2 [I3 I4]]]. cbv zeta in *.
    destruct (migrateEntries d entries r) as [entries' r1]. cbn [fst snd] in *.
    split; [|split; [|split; [|split]]].
    + intros d2 r2. rewrite (prop_setProp_same "aiSources" _ _ parsed Ea), I1.
      f_equal. apply setProp_present. apply (prop_setProp_same _ _ _ _ Ea).
    + apply prop_setProp_other. discriminate.
    + rewrite (prop_setProp_same "aiSources" _ _ parsed Ea).
      cbn [getOpt prop]. exact I4.
    + exact I2.
    + intros H. destruct (I3 H) as [-> ->]. split; [|reflexivity].
      apply setProp_present. exact Ea.
Qed.

Lemma migrateApi_null (d : string -> string) (parsed : json) (r : MigrationResult) :
  fst (migrateApi d (parsed, r)) = JNull -> parsed = JNull.
Proof.
  unfold migrateApi. destruct (prop parsed "api") as [api|]; [|auto].
  destruct (truthy (Some api)); [|auto].
  destruct (migrateField d "api.apiKey" "apiKey" (api, r)) as [api' r1]. cbn [fst].
  apply setProp_shape.
Qed.

Lemma migrateCustom_null (d : string -> string) (parsed : json) (r : MigrationResult) :
  fst (migrateCustom d (parsed, r)) = JNull -> parsed = JNull.
Proof.
  unfold migrateCustom. destruct (prop parsed "aiSources") as [a|]; [|auto].
  destruct (getOpt (Some a) "custom") as [custom|]; [|auto].
  destruct (truthy (Some custom)); [|auto].
  destruct (migrateField d "aiSources.custom.apiKey" "apiKey" (custom, r)). cbn [fst].
  apply setProp_shape.
Qed.

Lemma migrateProviders_null (d : string -> string) (parsed : json)
    (r : MigrationResult) :
  fst (migrateProviders d (parsed, r)) = JNull -> parsed = JNull.
Proof.
  unfold migrateProviders.
  destruct (prop parsed "aiSources") as [[|b|q|x|items|entries]|]; auto.
  - destruct (migrateItems d 0 items r). cbn [fst]. apply setProp_shape.
  - destruct (migrateEntries d entries r). cbn [fst]. apply setProp_shape.
Qed.

Lemma Ok_inj {A : Type} (x y : A) : @Ok Error A x = Ok y -> x = y.
Proof. intros H. injection H as H. exact H. Qed.

(** The migration settles in one run. It throws exactly for a document
    that is [null]. Otherwise a second run over the document it leaves,
    with whatever decryption, finds nothing encrypted and changes nothing;
    a run that does not set [migrated] has changed nothing; and [migrated]
    is set exactly when a field was decrypted or cleared. *)
Theorem migration_settles (decryptString decryptAgain : string -> string)
    (parsed : json) :
  (is_throw (migrate decryptString parsed) = true <-> parsed = JNull)
  /\ forall doc r,
       migrate decryptString parsed = Ok (doc, r) ->
       migrate decryptAgain doc = Ok (doc, nothingMigrated)
       /\ (migrated r = false -> doc = parsed)
       /\ (migrated r = true <-> (fields r ++ failures r)%list <> []).
Proof.
  split.
  - destruct parsed; cbn; split; intros; try reflexivity; discriminate.
  - intros doc r Hm.
    assert (Hnn : parsed <> JNull) by (intros ->; discriminate Hm).
    assert (Hm' : Ok (migrateProviders decryptString
                        (migrateCustom decryptString
                           (migrateApi decryptString (parsed, nothingMigrated))))
                  = Ok (doc, r))
      by (destruct parsed; try (exfalso; apply Hnn; reflexivity); exact Hm).
    assert (Hdoc : doc <> JNull).
    { intros Hd. apply Hnn. pose proof (Ok_inj _ _ Hm') as Hm2.
      apply (migrateApi_null decryptString parsed nothingMigrated).
      apply (migrateCustom_null decryptString _
               (snd (migrateApi decryptString (parsed, nothingMigrated)))).
      apply (migrateProviders_null decryptString _
               (snd (migrateCustom decryptString
                       (migrateApi decryptString (parsed, nothingMigrated))))).
      rewrite <- !surjective_pairing, Hm2. exact Hd. }
    assert (Hrun : (doc, r) = migrateProviders decryptString
                                (migrateCustom decryptString
                                   (migrateApi decryptString (parsed, nothingMigrated)))).
    { symmetry. apply Ok_inj.
      destruct parsed; try (exfalso; apply Hnn; reflexivity); exact Hm. }
    destruct (migrateApi_spec decryptString parsed nothingMigrated)
      as [A1 [A2 [A3 A4]]]. cbv zeta in *.
    destruct (migrateApi decryptString (parsed, nothingMigrated)) as [p1 r1].
    cbn [fst snd] in *.
    destruct (migrateCustom_spec decryptString p1 r1) as [B1 [B2 [B3 B4]]].
    cbv zeta in *.
    destruct (migrateCustom decryptString (p1, r1)) as [p2 r2]. cbn [fst snd] in *.
    destruct (migrateProviders_spec decryptString p2 r2) as [C1 [C2 [C3 [C4 C5]]]].
    cbv zeta in *.
    destruct (migrateProviders decryptString (p2, r2)) as [p3 r3].
    injection Hrun as Hp3 Hr3. subst p3 r3. cbn [fst snd] in *.
    assert (Hc0 : consistent nothingMigrated)
      by (unfold consistent; cbn; split; [discriminate|intros H; contradiction]).
    assert (Hapi : apiClean doc) by (unfold apiClean in *; rewrite C2, B2; exact A1).
    assert (Hcus : customClean doc) by (unfold customClean in *; rewrite C3; exact B1).
    split; [|split].
    + destruct doc; try contradiction; cbn [migrate];
        rewrite (migrateApi_clean _ _ _ Hapi), (migrateCustom_clean _ _ _ Hcus), C1;
        reflexivity.
    + intros H. destruct (C5 H) as [-> ->]. destruct (B4 H) as [-> ->].
      destruct (A4 H) as [-> _]. reflexivity.
    + apply C4, B3, A3, Hc0.
Qed.

End MigrationFacts.

Section MigrationExamples.
Import Js ConfigProbe ConfigService.

(** One key is recovered, the two values that cannot be decrypted are
    cleared, the plain token is left alone. *)
Example migrate_legacy :
  migrate demoDecrypt legacyConfig
  = Ok (JObj [("api", JObj [("provider", JStr "anthropic"); ("apiKey", JStr "sk-ant-1")]);
              ("aiSources",
               JObj [("current", JStr "custom");
                     ("custom", JObj [("provider", JStr "openai"); ("apiKey", JStr "")]);
                     ("github", JObj [("accessToken", JStr "");
                                      ("refreshToken", JStr "plain")])])],
        {| migrated := true; fields := ["api.apiKey"];
           failures := ["aiSources.custom.apiKey"; "aiSources.github.accessToken"] |}).
Proof. reflexivity. Qed.

End MigrationExamples.

(** ** The config service: the signature that invalidates sessions *)

Section SignatureFacts.
Import Js ConfigProbe ConfigService.
Context (toString : json -> string).

Lemma getOpt_setProp_other (k k' : string) (v : json) (o : json) :
  k' <> k -> getOpt (Some (setProp k v o)) k' = getOpt (Some o) k'.
Proof.
  intros Hne. destruct o; try reflexivity. cbn [setProp getOpt prop].
  rewrite !lookup_own. apply own_assign_other. exact Hne.
Qed.

Lemma getOpt_setProp_same (k : string) (v v0 : json) (o : json) :
  prop o k = Some v0 -> getOpt (Some (setProp k v o)) k = Some v.
Proof.
  destruct o; cbn [prop setProp getOpt]; try discriminate. intros _.
  rewrite lookup_own. apply own_assign_same.
Qed.

Lemma getOpt_prop (o : json) (k : string) (v : json) :
  prop o k = Some v -> getOpt (Some o) k = Some v.
Proof. destruct o; cbn [prop getOpt]; try discriminate; auto. Qed.

Lemma append_inj_r (x a b : string) : x ++ a = x ++ b -> a = b.
Proof.
  induction x as [|c x IH]; cbn [append]; [auto|]. intros H. injection H as H. auto.
Qed.

(** The signature follows the credentials and not the model. Setting the
    [model] of any source leaves the signature as it is, so that a change
    of model alone never invalidates the sessions; and while the custom
    source is the current one, two different API keys give two different
    signatures. *)
Theorem signature_ignores_model_sees_key (aiSources : json) :
  (forall key m, key <> "current" ->
     getAiSourcesSignature toString (Some (withModel key m aiSources))
     = getAiSourcesSignature toString (Some aiSources))
  /\ (forall fs k1 k2,
        currentOf (Some aiSources) = JStr "custom" ->
        prop aiSources "custom" = Some (JObj fs) -> k1 <> k2 ->
        getAiSourcesSignature toString (Some (withApiKey k1 aiSources))
        <> getAiSourcesSignature toString (Some (withApiKey k2 aiSources))).
Proof.
  split.
  - intros key m Hkey. unfold withModel.
    destruct (prop aiSources key) as [source|] eqn:Es; [|reflexivity].
    set (a' := setProp key (setProp "model" m source) aiSources).
    assert (Hshape : truthy (Some a') = truthy (Some aiSources))
      by apply setProp_shape.
    assert (Hread : forall k f, f <> "model" ->
              orEmpty (getOpt (getOpt (Some a') k) f)
              = orEmpty (getOpt (getOpt (Some aiSources) k) f)
              /\ truthy (getOpt (Some a') k) = truthy (getOpt (Some aiSources) k)
              /\ isObject (getOpt (Some a') k) = isObject (getOpt (Some aiSources) k)).
    { intros k f Hf. unfold a'. destruct (String.eqb_spec k key) as [->|Hk].
      - rewrite (getOpt_setProp_same key _ source aiSources Es),
          (getOpt_prop aiSources key source Es).
        destruct (setProp_shape "model" m source) as [S1 [S2 _]].
        rewrite (getOpt_setProp_other "model" f m source Hf). auto.
      - rewrite (getOpt_setProp_other key k _ aiSources Hk). auto. }
    assert (Hcur : currentOf (Some a') = currentOf (Some aiSources)).
    { unfold currentOf, a'.
      rewrite (getOpt_setProp_other key "current" _ aiSources) by congruence.
      reflexivity. }
    unfold getAiSourcesSignature. rewrite Hshape, Hcur.
    destruct (negb (truthy (Some aiSources))); [reflexivity|].
    destruct (strictEq _ _).
    + destruct (Hread "custom" "provider" ltac:(discriminate)) as [-> _].
      destruct (Hread "custom" "apiUrl" ltac:(discriminate)) as [-> _].
      destruct (Hread "custom" "apiKey" ltac:(discriminate)) as [-> _].
      reflexivity.
    + destruct (String.eqb (str toString (currentOf (Some aiSources))) "__proto__");
        [reflexivity|].
      set (c := str toString (currentOf (Some aiSources))).
      destruct (Hread c "accessToken" ltac:(discriminate)) as [-> [-> ->]].
      destruct (Hread c "refreshToken" ltac:(discriminate)) as [-> _].
      destruct (Hread c "tokenExpires" ltac:(discriminate)) as [-> _].
      reflexivity.
  - intros fs k1 k2 Hcur Hcustom Hne.
    assert (Hsig : forall k,
              getAiSourcesSignature toString (Some (withApiKey k aiSources))
              = JStr (("custom|" ++ str toString (orEmpty (lookup "provider" fs)) ++ "|"
                       ++ str toString (orEmpty (lookup "apiUrl" fs)) ++ "|") ++ k)).
    { intros k. unfold withApiKey. rewrite Hcustom.
      set (a' := setProp "custom" (setProp "apiKey" (JStr k) (JObj fs)) aiSources).
      assert (Ht : truthy (Some a') = true).
      { unfold a'. destruct aiSources; cbn [prop] in Hcustom; try discriminate.
        reflexivity. }
      assert (Hc : currentOf (Some a') = JStr "custom").
      { unfold currentOf, a'.
        rewrite (getOpt_setProp_other "custom" "current" _ aiSources) by discriminate.
        exact Hcur. }
      unfold getAiSourcesSignature. rewrite Ht, Hc. cbn [negb strictEq].
      rewrite String.eqb_refl. unfold a'.
      rewrite (getOpt_setProp_same "custom" _ _ aiSources Hcustom).
      cbn [setProp getOpt prop]. rewrite !lookup_own.
      rewrite !own_assign_other by discriminate. rewrite own_assign_same.
      rewrite <- !lookup_own.
      unfold joinBar. cbn [map String.concat str orEmpty truthy].
      destruct (String.eqb_spec k "") as [->|_]; cbn [negb str];
        rewrite !append_assoc; reflexivity. }
    rewrite !Hsig. intros H. injection H as H. apply append_inj_r in H. contradiction.
Qed.

End SignatureFacts.

Section SignatureExamples.
Import Js ConfigProbe ConfigService.

Example signature_custom :
  getAiSourcesSignature (fun _ => "")
    (Some (JObj [("current", JStr "custom");
                 ("custom", JObj [("provider", JStr "openai");
                                  ("apiUrl", JStr "https://api.openai.com");
                                  ("apiKey", JStr "sk-1");
                                  ("model", JStr "gpt-4o")])]))
  = JStr "custom|openai|https://api.openai.com|sk-1".
Proof. reflexivity. Qed.

End SignatureExamples.
